(** * Garden core: template operators, recursive resolution, delete and
      test tasks, the watch loop and command result handling.

    A shallow embedding of the parts of the Garden sources that the
    specification talks about, followed by the theorems about them.

    - [JS]               : the values of the language the code computes with
    - [TemplateString]   : core/src/template-string.ts
    - [ConfigGraphModel] : the dependency queries of the config graph
    - [TaskGraph]        : the results of the task graph
    - [DeleteDeploy]     : the DeleteDeploy task (tasks/delete-service.ts, the
                           third file in core/src/process.ts) and the action
                           of DeleteDeployCommand
    - [TestTaskModel]    : the Test task (tasks/test.ts, the second file in
                           core/src/process.ts)
    - [Watch]            : the watch loop of core/src/process.ts
    - [CommandBase]      : core/src/commands/base.ts
    - [TemplateParts]    : the parts of a parsed template string
    - [SecretKeys]       : the secrets a configuration refers to
    - [TestSelection]    : the selection of tests (tasks/test.ts and
                           commands/test.ts)
    - [CommandPaths]     : keys, names and paths of commands
    - [TaskResults]      : the result of a single task (commands/base.ts)

    The modules named [...Facts] hold the theorems. *)

From Stdlib Require Import ZArith Floats Ascii String.
From stdpp Require Import base option list gmap strings pretty.

Set Warnings "-register-all,-inexact-float,-clear-no-such-hyp".

Local Open Scope string_scope.
Local Open Scope list_scope.

(* ====================================================================== *)
(** * JavaScript values and results                                        *)
(* ====================================================================== *)

Module JS.

(** A JavaScript value.  Numbers are IEEE 754 binary64, as in the language.
    Arrays and plain objects carry their identity: [Some r] for an object
    that is reachable under reference [r] (a value held by the resolution
    context), [None] for an object created during the evaluation at hand,
    which nothing else aliases.  The properties of a plain object are kept
    in the order [Object.entries] enumerates them. *)
Inductive value : Type :=
| VUndefined
| VNull
| VBool (b : bool)
| VNum (n : float)
| VStr (s : string)
| VArr (ref : option nat) (items : list value)
| VObj (ref : option nat) (props : list (string * value)).

(** The classes of the errors the modelled code creates or meets. *)
Inductive errorClass : Type :=
| TemplateStringError
| TemplateStringMissingKeyException
| TemplateStringPassthroughException
| ConfigurationError
| TypeError
| RuntimeError
| TestError
| OtherError (name : string).

(** An error instance: class, message, the detail object handed to the
    constructor and, for a wrapping error, the wrapped one ([{ err }]). *)
Inductive error : Type :=
| Error (cls : errorClass) (msg : string) (detail : list (string * value))
        (err : option error).

Definition errorCls (e : error) : errorClass := let 'Error c _ _ _ := e in c.
Definition errorMessage (e : error) : string := let 'Error _ m _ _ := e in m.

(** A computation either returns or throws. *)
Inductive outcome (A : Type) : Type :=
| Ret (a : A)
| Throw (e : error).
Arguments Ret {A} a.
Arguments Throw {A} e.

Definition bind {A B} (m : outcome A) (k : A -> outcome B) : outcome B :=
  match m with
  | Ret a => k a
  | Throw e => Throw e
  end.

Notation "x <- m ;; k" := (bind m (fun x => k))
  (at level 100, m at next level, right associativity).

(** [typeof v] *)
Definition typeOf (v : value) : string :=
  match v with
  | VUndefined => "undefined"
  | VNull => "object"
  | VBool _ => "boolean"
  | VNum _ => "number"
  | VStr _ => "string"
  | VArr _ _ => "object"
  | VObj _ _ => "object"
  end.

(** ToBoolean: [undefined], [null], [false], [+0], [-0], [NaN] and the empty
    string are falsy, everything else is truthy. *)
Definition truthy (v : value) : bool :=
  match v with
  | VUndefined | VNull => false
  | VBool b => b
  | VNum n => negb (is_zero n || is_nan n)
  | VStr s => negb (String.eqb s "")
  | VArr _ _ | VObj _ _ => true
  end.

Definition sameRef (r1 r2 : option nat) : bool :=
  match r1, r2 with
  | Some a, Some b => Nat.eqb a b
  | _, _ => false
  end.

(** [l === r].  Numbers compare as IEEE values ([NaN] differs from itself,
    the two zeros are equal); arrays and objects compare by identity. *)
Definition strictEquals (l r : value) : bool :=
  match l, r with
  | VUndefined, VUndefined => true
  | VNull, VNull => true
  | VBool a, VBool b => Bool.eqb a b
  | VNum a, VNum b => PrimFloat.eqb a b
  | VStr a, VStr b => String.eqb a b
  | VArr a _, VArr b _ => sameRef a b
  | VObj a _, VObj b _ => sameRef a b
  | _, _ => false
  end.

Definition isUndefined (v : value) : bool :=
  match v with VUndefined => true | _ => false end.

Definition isNumber (v : value) : bool :=
  match v with VNum _ => true | _ => false end.

Definition isArray (v : value) : bool :=
  match v with VArr _ _ => true | _ => false end.

Definition isPlainObject (v : value) : bool :=
  match v with VObj _ _ => true | _ => false end.

(** The [%] of the language on numbers: the remainder of the truncating
    division, exact, with the sign of the dividend. *)
Definition js_rem (n d : float) : float :=
  match Prim2SF n, Prim2SF d with
  | S754_nan, _ => nan
  | _, S754_nan => nan
  | S754_infinity _, _ => nan
  | _, S754_zero _ => nan
  | _, S754_infinity _ => n
  | S754_zero _, _ => n
  | S754_finite sn mn en, S754_finite _ md ed =>
      let e := Z.min en ed in
      let a := (Z.pos mn * 2 ^ (en - e))%Z in
      let b := (Z.pos md * 2 ^ (ed - e))%Z in
      let r := (a mod b)%Z in
      SF2Prim (binary_normalize prec emax (if sn then (- r)%Z else r) e sn)
  end.

End JS.

(* ====================================================================== *)
(** * core/src/template-string.ts                                          *)
(* ====================================================================== *)

Module TemplateString.
Import JS.

Definition missingKeyExceptionType : string := "template-string-missing-key".
Definition passthroughExceptionType : string := "template-string-passthrough".
Definition escapePrefix : string := "$${".

(** The [type] field of an error instance.  [TemplateStringError] and the
    two exceptions declare theirs in this file; [ConfigurationError] and
    [RuntimeError] declare theirs in exceptions.ts; errors of the language
    have none. *)
Definition errorType (c : errorClass) : option string :=
  match c with
  | TemplateStringError => Some "template-string"
  | TemplateStringMissingKeyException => Some missingKeyExceptionType
  | TemplateStringPassthroughException => Some passthroughExceptionType
  | ConfigurationError => Some "configuration"
  | TypeError => None
  | RuntimeError => Some "runtime"
  | TestError => None
  | OtherError _ => None
  end.

(** [interface ResolvedClause extends ContextResolveOutput]: the plain
    object a key lookup or a failed sub-expression hands around.  A missing
    field is [None] ([false] for [partial]); an error result [{ _error }]
    has [resolved = VUndefined]. *)
Record ResolvedClause : Type := {
  resolved : value;
  message : option string;
  partial : bool;
  block : option string;
  _error : option error
}.

(** What the parser passes for an operand: a plain object is always a
    [ResolvedClause]; anything else (a primitive, an array) is the value
    itself. *)
Inductive res : Type :=
| Raw (v : value)
| Clause (c : ResolvedClause).

Definition errorResult (e : error) : res :=
  Clause {| resolved := VUndefined; message := None; partial := false;
            block := None; _error := Some e |}.

(** [getValue(v) = isPlainObject(v) ? v.resolved : v] *)
Definition getValue (v : res) : value :=
  match v with
  | Clause c => resolved c
  | Raw v => v
  end.

(** [r && r._error]: the error a result carries, if any. *)
Definition carriedError (r : res) : option error :=
  match r with
  | Clause c => _error c
  | Raw _ => None
  end.

Definition hasError (r : res) : bool :=
  match carriedError r with Some _ => true | None => false end.

(** [r.message]: reading a property of [null] or [undefined] throws a
    [TypeError] (the wording of its message is the engine's). *)
Definition messageOf (r : res) : outcome (option string) :=
  match r with
  | Clause c => Ret (message c)
  | Raw VUndefined =>
      Throw (Error TypeError
        "Cannot read properties of undefined (reading 'message')" [] None)
  | Raw VNull =>
      Throw (Error TypeError
        "Cannot read properties of null (reading 'message')" [] None)
  | Raw _ => Ret None
  end.

(** [.filter(Boolean)] on optional strings, and [.join(sep)]. *)
Definition filterBoolean (l : list (option string)) : list string :=
  omap (fun m => match m with
                 | Some s => if String.eqb s "" then None else Some s
                 | None => None
                 end) l.

Fixpoint join (sep : string) (l : list string) : string :=
  match l with
  | [] => ""
  | [s] => s
  | s :: t => s ++ sep ++ join sep t
  end.

(** [a || b] on strings. *)
Definition orElse (a b : string) : string :=
  if String.eqb a "" then b else a.

Definition operandDetail (left right : value) (operator : string)
  : list (string * value) :=
  [("left", left); ("right", right); ("operator", VStr operator)].

(** The callback of the [reduce] in [buildBinaryExpression]: one operator
    applied to the result so far and the next operand. *)
Definition binaryStep (result : res) (element : string * res) : outcome res :=
  let operator := element.1 in
  let leftRes := result in
  let rightRes := element.2 in
  if hasError leftRes then Ret leftRes
  else if hasError rightRes then Ret rightRes
  else
    let left := getValue leftRes in
    let right := getValue rightRes in
    if isUndefined left || isUndefined right then
      ml <- messageOf leftRes ;;
      mr <- messageOf rightRes ;;
      let message := join " " (filterBoolean [ml; mr]) in
      Ret (errorResult
             (Error TemplateStringError
                (orElse message "Could not resolve one or more keys.")
                (operandDetail left right operator) None))
    else if String.eqb operator "==" then
      Ret (Raw (VBool (strictEquals left right)))
    else if String.eqb operator "!=" then
      Ret (Raw (VBool (negb (strictEquals left right))))
    else if String.eqb operator "+" then
      match left, right with
      | VNum a, VNum b => Ret (Raw (VNum (PrimFloat.add a b)))
      | VArr _ l, VArr _ r => Ret (Raw (VArr None (l ++ r)))
      | _, _ =>
          Ret (errorResult
                 (Error TemplateStringError
                    ("Both terms need to be either arrays or numbers for + operator (got "
                       ++ typeOf left ++ " and " ++ typeOf right ++ ").")
                    (operandDetail left right operator) None))
      end
    else
      match left, right with
      | VNum a, VNum b =>
          if String.eqb operator "*" then Ret (Raw (VNum (PrimFloat.mul a b)))
          else if String.eqb operator "/" then Ret (Raw (VNum (PrimFloat.div a b)))
          else if String.eqb operator "%" then Ret (Raw (VNum (js_rem a b)))
          else if String.eqb operator "-" then Ret (Raw (VNum (PrimFloat.sub a b)))
          else if String.eqb operator "<=" then Ret (Raw (VBool (PrimFloat.leb a b)))
          else if String.eqb operator ">=" then Ret (Raw (VBool (PrimFloat.leb b a)))
          else if String.eqb operator "<" then Ret (Raw (VBool (PrimFloat.ltb a b)))
          else if String.eqb operator ">" then Ret (Raw (VBool (PrimFloat.ltb b a)))
          else
            Ret (errorResult
                   (Error TemplateStringError
                      ("Unrecognized operator: " ++ operator)
                      [("operator", VStr operator)] None))
      | _, _ =>
          Ret (errorResult
                 (Error TemplateStringError
                    ("Both terms need to be numbers for " ++ operator
                       ++ " operator (got " ++ typeOf left ++ " and "
                       ++ typeOf right ++ ").")
                    (operandDetail left right operator) None))
      end.

(** [tail.reduce(callback, head)], where the callback may throw. *)
Fixpoint reduce {A B} (f : A -> B -> outcome A) (l : list B) (acc : A)
  : outcome A :=
  match l with
  | [] => Ret acc
  | x :: t => a <- f acc x ;; reduce f t a
  end.

Definition buildBinaryExpression (head : res) (tail : list (string * res))
  : outcome res :=
  reduce binaryStep tail head.

(** The callback of the [reduce] in [buildLogicalExpression]. *)
Definition logicalStep (result : res) (element : string * res) : outcome res :=
  let operator := element.1 in
  let leftRes := result in
  let rightRes := element.2 in
  if hasError leftRes then Ret leftRes
  else if hasError rightRes then Ret rightRes
  else
    let left := getValue leftRes in
    if String.eqb operator "&&" then
      Ret (if negb (truthy left) then leftRes else rightRes)
    else if String.eqb operator "||" then
      Ret (if truthy left then leftRes else rightRes)
    else
      Ret (errorResult
             (Error TemplateStringError
                ("Unrecognized operator: " ++ operator)
                [("operator", VStr operator)] None)).

Definition buildLogicalExpression (head : res) (tail : list (string * res))
  : outcome res :=
  reduce logicalStep tail head.


(** ** Plain objects: property order *)

(** The number a string of decimal digits denotes, if it is one. *)
Fixpoint digitsValue (s : string) (acc : N) : option N :=
  match s with
  | EmptyString => Some acc
  | String c rest =>
      let n := Ascii.N_of_ascii c in
      if (48 <=? n)%N && (n <=? 57)%N
      then digitsValue rest (acc * 10 + (n - 48))%N
      else None
  end.

(** An own property key is an array index when it is the canonical decimal
    form of an integer below [2^32 - 1]; such keys are enumerated first, in
    ascending order, the others after them in insertion order. *)
Definition arrayIndex (k : string) : option N :=
  match k with
  | EmptyString => None
  | String "0"%char (String _ _) => None
  | _ =>
      match digitsValue k 0 with
      | Some n => if (n <? 4294967295)%N then Some n else None
      | None => None
      end
  end.

Definition props : Type := list (string * value).

(** [o[k]] on the own properties of a plain object. *)
Fixpoint getProp (k : string) (o : props) : option value :=
  match o with
  | [] => None
  | (k', v) :: t => if String.eqb k k' then Some v else getProp k t
  end.

Definition hasProp (k : string) (o : props) : bool :=
  match getProp k o with Some _ => true | None => false end.

Fixpoint replaceProp (k : string) (v : value) (o : props) : props :=
  match o with
  | [] => []
  | (k', v') :: t =>
      if String.eqb k k' then (k', v) :: t else (k', v') :: replaceProp k v t
  end.

Fixpoint insertIndexed (n : N) (k : string) (v : value) (o : props) : props :=
  match o with
  | [] => [(k, v)]
  | (k', v') :: t =>
      match arrayIndex k' with
      | Some n' =>
          if (n' <? n)%N then (k', v') :: insertIndexed n k v t
          else (k, v) :: o
      | None => (k, v) :: o
      end
  end.

(** [o[k] = v]: an existing property keeps its place; a new one goes where
    the enumeration order puts it. *)
Definition setProp (k : string) (v : value) (o : props) : props :=
  if hasProp k o then replaceProp k v o
  else match arrayIndex k with
       | Some n => insertIndexed n k v o
       | None => o ++ [(k, v)]
       end.

(** [{ ...output, ...m }]: the properties of [m] are set on a copy of
    [output], in their order.  The literal defines each of them as an own
    property, [__proto__] included. *)
Definition spread (output m : props) : props :=
  fold_left (fun o kv => setProp kv.1 kv.2 o) m output.

Definition protoKey : string := "__proto__".

(** The prototype of an object under construction: [Object.prototype], as
    for every object literal; [null]; or an object or array that an
    assignment to [__proto__] put in its place. *)
Inductive Prototype : Type :=
| DefaultPrototype
| NullPrototype
| OtherPrototype.

(** [output[k] = v] on an object under construction, given by its own
    properties and its prototype.  While the object has no own property
    [__proto__] and inherits from [Object.prototype], an assignment to that
    key runs the inherited setter: it replaces the prototype when [v] is an
    object, an array or null, does nothing otherwise, and makes no own
    property.  Any other assignment is [setProp]. *)
Definition reachesSetter (k : string) (o : props * Prototype) : bool :=
  String.eqb k protoKey && negb (hasProp k o.1)
  && match o.2 with NullPrototype => false | _ => true end.

Definition assign (k : string) (v : value) (o : props * Prototype)
  : props * Prototype :=
  if reachesSetter k o then
    match v with
    | VObj _ _ | VArr _ _ => (o.1, OtherPrototype)
    | VNull => (o.1, NullPrototype)
    | _ => o
    end
  else (setProp k v o.1, o.2).

(** [isPlainObject(resolved)] of lodash on an object the resolution
    returned, with the own properties of the object when it holds.  An
    object whose prototype was replaced by an object or array is no plain
    object; one whose prototype is null is. *)
Definition asPlainObject (resolved : value * Prototype) : option props :=
  match resolved with
  | (VObj _ m, DefaultPrototype) | (VObj _ m, NullPrototype) => Some m
  | _ => None
  end.

(** ** resolveTemplateString *)

Record ContextResolveOpts : Type := {
  allowPartial : bool;
  unescape : bool
}.

Inductive nodeType : Type := NRoot | NIf | NElse | NValue.

(** [interface ConditionalTree], without the [parent] pointer: the
    assembly below keeps the path to the root instead. *)
Inductive ConditionalTree : Type :=
| Node (type : nodeType) (val : value) (children : list ConditionalTree).

(** An [if] or [else] node under construction: its type, its value and
    the children pushed so far. *)
Record frame : Type := {
  ftype : nodeType;
  fvalue : bool;
  fchildren : list ConditionalTree
}.

Definition frameNode (f : frame) : ConditionalTree :=
  Node (ftype f) (VBool (fvalue f)) (fchildren f).

(** [currentNode.children.push(child)], where [currentNode] is the innermost
    open node, or the root when none is open. *)
Definition pushChild (child : ConditionalTree)
    (rootChildren : list ConditionalTree) (open : list frame)
  : list ConditionalTree * list frame :=
  match open with
  | f :: up =>
      (rootChildren,
       {| ftype := ftype f; fvalue := fvalue f;
          fchildren := fchildren f ++ [child] |} :: up)
  | [] => (rootChildren ++ [child], [])
  end.

Definition isBlock (part : ResolvedClause) (name : string) : bool :=
  match block part with
  | Some b => String.eqb b name
  | None => false
  end.

(** The loop that assembles the parts into a conditional tree.
    [rootChildren] are the children of [tree] so far; [open] are the [if]
    and [else] nodes from [currentNode] up to (not including) the root.  A
    node is attached to its parent when it is left, which puts it where the
    source's [push] at creation does, since nothing else is pushed to the
    parent while the node is current. *)
Fixpoint assemble (parts : list ResolvedClause)
    (rootChildren : list ConditionalTree) (open : list frame)
  : outcome ConditionalTree :=
  match parts with
  | [] =>
      match open with
      | _ :: _ =>
          Throw (Error TemplateStringError
                   "Missing ${endif} after ${if ...} block." [] None)
      | [] => Ret (Node NRoot VUndefined rootChildren)
      end
  | part :: rest =>
      if isBlock part "if" then
        assemble rest rootChildren
          ({| ftype := NIf; fvalue := truthy (resolved part);
              fchildren := [] |} :: open)
      else if isBlock part "else" then
        match open with
        | {| ftype := NIf; fvalue := v; fchildren := cs |} as f :: up =>
            let '(rootChildren', up') := pushChild (frameNode f) rootChildren up in
            assemble rest rootChildren'
              ({| ftype := NElse; fvalue := negb v; fchildren := [] |} :: up')
        | _ =>
            Throw (Error TemplateStringError
                     "Found ${else} block without a preceding ${if...} block."
                     [] None)
        end
      else if isBlock part "endif" then
        match open with
        | f :: up =>
            let '(rootChildren', up') := pushChild (frameNode f) rootChildren up in
            assemble rest rootChildren' up'
        | [] =>
            Throw (Error TemplateStringError
                     "Found ${endif} block without a preceding ${if...} block."
                     [] None)
        end
      else
        let v := resolved part in
        let '(rootChildren', open') :=
          pushChild (Node NValue (match v with VNull => VStr "null" | _ => v end) [])
                    rootChildren open in
        assemble rest rootChildren' open'
  end.

(** [.replace(/\n/g, "\\n")] *)
Fixpoint escapeNewlines (s : string) : string :=
  match s with
  | EmptyString => EmptyString
  | String c rest =>
      if Ascii.eqb c "010"%char
      then String "\"%char (String "n"%char (escapeNewlines rest))
      else String c (escapeNewlines rest)
  end.

(** [isPlainObject(p) ? p : { resolved: getValue(p) }] *)
Definition toClause (p : res) : ResolvedClause :=
  match p with
  | Clause c => c
  | Raw v => {| resolved := v; message := None; partial := false;
                block := None; _error := None |}
  end.

(** The first [_error] among the outputs, which the propagation loop
    throws. *)
Fixpoint firstError (outputs : list ResolvedClause) : option error :=
  match outputs with
  | [] => None
  | r :: rest =>
      match _error r with
      | Some e => Some e
      | None => firstError rest
      end
  end.

Definition objectSpreadKey : string := "$merge".

Section Resolver.

(** The resolution context is opaque to this file. *)
Variable ConfigContext : Type.

(** [getParser().parse(string, { getKey, ..., isPrimitive })]: the parser
    generated from the template grammar, closed over the context and the
    options.  It returns the parsed clauses or throws. *)
Variable parse : string -> ConfigContext -> ContextResolveOpts
                 -> outcome (list res).

(** The language's conversion of a number to a string. *)
Variable numberToString : float -> string.

(** [truncate] of util/string. *)
Variable truncate : string -> nat -> string.

(** ToString, as applied by [resolved += node.value]. *)
Fixpoint toString (v : value) : string :=
  match v with
  | VUndefined => "undefined"
  | VNull => "null"
  | VBool true => "true"
  | VBool false => "false"
  | VNum n => numberToString n
  | VStr s => s
  | VArr _ items =>
      join ","
        ((fix elems (l : list value) : list string :=
            match l with
            | [] => []
            | VUndefined :: t => "" :: elems t
            | VNull :: t => "" :: elems t
            | x :: t => toString x :: elems t
            end) items)
  | VObj _ _ => "[object Object]"
  end.

(** [resolveTree(node)], with the string built so far passed along. *)
Fixpoint resolveTree (node : ConditionalTree) (acc : string) : string :=
  let 'Node type val children := node in
  let descend :=
    (fix all (l : list ConditionalTree) (acc : string) : string :=
       match l with
       | [] => acc
       | child :: t => all t (resolveTree child acc)
       end) in
  match type with
  | NValue => if isUndefined val then acc else (acc ++ toString val)%string
  | NRoot => descend children acc
  | NIf | NElse => if truthy val then descend children acc else acc
  end.

(** The body of the [try] block. *)
Definition resolveParsed (str : string) (context : ConfigContext)
    (opts : ContextResolveOpts) : outcome value :=
  parsed <- parse str context opts ;;
  let outputs := map toClause parsed in
  match firstError outputs with
  | Some e => Throw e
  | None =>
      match outputs with
      | [] => Ret VUndefined
      | [r] => Ret (resolved r)
      | _ =>
          tree <- assemble outputs [] [] ;;
          Ret (VStr (resolveTree tree ""))
      end
  end.

Definition resolveTemplateString (str : string) (context : ConfigContext)
    (opts : ContextResolveOpts) : outcome value :=
  if String.eqb str "" then Ret (VStr str)
  else
    match resolveParsed str context opts with
    | Ret resolved => Ret resolved
    | Throw err =>
        let prefix : string :=
          ("Invalid template string (" ++ escapeNewlines (truncate str 35)
             ++ "): ")%string in
        let message : string :=
          if String.prefix prefix (errorMessage err) then errorMessage err
          else (prefix ++ errorMessage err)%string in
        Throw (Error TemplateStringError message [] (Some err))
    end.

(** [value.map(f)], where [f] may throw. *)
Definition mapOutcome (f : value -> outcome value)
  : list value -> outcome (list value) :=
  fix go (l : list value) : outcome (list value) :=
    match l with
    | [] => Ret []
    | x :: t => y <- f x ;; ys <- go t ;; Ret (y :: ys)
    end.

(** The [for] loop over [Object.entries(value)], with [output] passed
    along; [whole] is the object under resolution, for the error detail.
    [{ ...output, ...resolved }] is a new object literal, with the own
    properties of both. *)
Definition resolveEntries (f : value -> outcome (value * Prototype))
    (opts : ContextResolveOpts) (whole : value)
  : list (string * value) -> props * Prototype -> outcome (props * Prototype) :=
  fix go (entries : list (string * value)) (output : props * Prototype)
    : outcome (props * Prototype) :=
    match entries with
    | [] => Ret output
    | (k, v) :: rest =>
        resolved <- f v ;;
        if String.eqb k objectSpreadKey then
          match asPlainObject resolved with
          | Some m => go rest (spread output.1 m, DefaultPrototype)
          | None =>
              if allowPartial opts then go rest (assign k resolved.1 output)
              else
                Throw (Error ConfigurationError
                         ("Value of " ++ objectSpreadKey
                            ++ " key must be (or resolve to) a mapping object (got "
                            ++ typeOf resolved.1 ++ ")")
                         [("value", whole); ("resolved", resolved.1)] None)
          end
        else go rest (assign k resolved.1 output)
    end.

(** [resolveTemplateStrings(value, context, opts)], the recursion: what it
    returns, and for an object it has built the prototype that the
    assignments left it with.  The values the parser answers with, and the
    values that are returned as they are, have the prototypes they came
    with, which stand as [DefaultPrototype]. *)
Fixpoint resolveWithPrototype (value : value) (context : ConfigContext)
    (opts : ContextResolveOpts) {struct value}
  : outcome (JS.value * Prototype) :=
  match value with
  | VStr s =>
      resolved <- resolveTemplateString s context opts ;;
      Ret (resolved, DefaultPrototype)
  | VArr _ items =>
      items' <- mapOutcome
                  (fun v =>
                     resolved <- resolveWithPrototype v context opts ;;
                     Ret resolved.1)
                  items ;;
      Ret (VArr None items', DefaultPrototype)
  | VObj _ entries =>
      output <- resolveEntries
                  (fun v => resolveWithPrototype v context opts)
                  opts value entries ([], DefaultPrototype) ;;
      Ret (VObj None output.1, output.2)
  | _ => Ret (value, DefaultPrototype)
  end.

(** [resolveTemplateStrings(value, context, opts)]: the value returned, an
    object by its own properties. *)
Definition resolveTemplateStrings (value : value) (context : ConfigContext)
    (opts : ContextResolveOpts) : outcome JS.value :=
  resolved <- resolveWithPrototype value context opts ;;
  Ret resolved.1.

End Resolver.

(** ** Operands of the claims, and a parser for plain strings *)

(** Modelled from the spec: [isPrimitive] of config/common, a file that is
    not embedded here.  The primitives of a template expression are
    strings, numbers, booleans and null. *)
Definition isPrimitive (v : value) : bool :=
  match v with
  | VNull | VBool _ | VNum _ | VStr _ => true
  | _ => false
  end.

(** Equality of two primitives as values: the same kind and the same
    content, numbers being compared numerically. *)
Definition primitiveEqual (l r : value) : Prop :=
  match l, r with
  | VNull, VNull => True
  | VBool a, VBool b => a = b
  | VNum a, VNum b => PrimFloat.eqb a b = true
  | VStr a, VStr b => a = b
  | _, _ => False
  end.

(** An operand is defined when its result carries no error and its value
    is not undefined. *)
Definition operandDefined (r : res) : Prop :=
  hasError r = false /\ getValue r <> VUndefined.

(** The result of looking up a key that is not there, outside partial
    resolution: no value, and the message that says so. *)
Definition missingKey (message : string) : res :=
  Clause {| resolved := VUndefined; message := Some message;
            partial := false; block := None; _error := None |}.

(** The parser's answer on a string without any template clause: the text
    itself as the one literal part. *)
Definition literalParser (str : string) (_ : unit) (_ : ContextResolveOpts)
  : outcome (list res) :=
  Ret [Clause {| resolved := VStr str; message := None; partial := false;
                 block := None; _error := None |}].

(** The examples resolve plain strings only, where the conversion of
    numbers and the shortening of the string are never consulted. *)
Definition noNumbers (_ : float) : string := "".
Definition noTruncation (str : string) (_ : nat) : string := str.

Definition strict : ContextResolveOpts :=
  {| allowPartial := false; unescape := false |}.

Definition resolveLiteral (v : value) : outcome value :=
  resolveTemplateStrings unit literalParser noNumbers noTruncation v tt strict.

(** A parser that answers with the given clauses, and what a block operator
    and a literal part look like among them. *)
Definition parsedAs (parts : list res) (_ : string) (_ : unit)
    (_ : ContextResolveOpts) : outcome (list res) :=
  Ret parts.

Definition blockClause (operator : string) (v : value) : res :=
  Clause {| resolved := v; message := None; partial := false;
            block := Some operator; _error := None |}.

Definition literal (text : string) : res := Raw (VStr text).

Definition resolveParts (parts : list res) : outcome value :=
  resolveTemplateString unit (parsedAs parts) noNumbers noTruncation
    "template" tt strict.

End TemplateString.

(* ====================================================================== *)
(** * The config graph                                                     *)
(* ====================================================================== *)

Module ConfigGraphModel.

Inductive ActionKind : Type := Build | Deploy | Run | Test.

#[global] Instance ActionKind_eq_dec : EqDecision ActionKind.
Proof. solve_decision. Defined.

#[global] Instance ActionKind_countable : Countable ActionKind.
Proof.
  refine (inj_countable'
            (fun k => match k with
                      | Build => 0 | Deploy => 1 | Run => 2 | Test => 3
                      end)
            (fun n => match n with
                      | 0 => Build | 1 => Deploy | 2 => Run | _ => Test
                      end) _).
  by intros [].
Defined.

(** [ActionRef]: kind and name, unique within a project. *)
Definition ActionRef : Type := (ActionKind * string)%type.

Record Action : Type := {
  kind : ActionKind;
  name : string;
  dependencies : list ActionRef
}.

Definition reference (a : Action) : ActionRef := (kind a, name a).

(** Modelled from the spec: the helper that the code imports as
    [isDeployAction] from actions/deploy.  That file exports no such
    helper; this is the one the code expects there: whether an action is of
    kind Deploy. *)
Definition isDeploy (a : Action) : bool :=
  bool_decide (kind a = Deploy).

(** The config graph: its actions, each with the references it depends
    on. *)
Record ConfigGraph : Type := {
  actions : list Action
}.

(** Whether [a] has a dependency edge to one of the references in [on]. *)
Definition dependsOnOneOf (a : Action) (on : gset ActionRef) : bool :=
  bool_decide (Exists (fun r => r ∈ on) (dependencies a)).

(** The references of the actions that depend directly on one of [on]. *)
Definition directDependants (g : ConfigGraph) (on : gset ActionRef)
  : gset ActionRef :=
  list_to_set
    (reference <$> filter (fun a => dependsOnOneOf a on) (actions g)).

(** [n] rounds of adding the direct dependants of what was found so far. *)
Fixpoint closure (g : ConfigGraph) (n : nat) (found : gset ActionRef)
  : gset ActionRef :=
  match n with
  | 0 => found
  | S n' => closure g n' (found ∪ directDependants g found)
  end.

(** All references from which a chain of dependency edges leads to [ref]:
    as many rounds as the graph has actions find them all. *)
Definition dependantRefs (g : ConfigGraph) (ref : ActionRef) : gset ActionRef :=
  closure g (length (actions g)) (directDependants g {[ref]}).

(** Modelled from the spec: [getDependants(ref, recursive)] of the config
    graph (graph/config-graph.ts, not embedded here).  It is the inverse
    of the dependency edges: the actions with an edge to [ref], and with
    [recursive] also those with an edge to an action that reaches [ref]
    through a chain of such edges.  The optional [filter] keeps the nodes it
    accepts. *)
Definition getDependants (g : ConfigGraph) (ref : ActionRef) (recursive : bool)
    (filter_ : Action -> bool) : list Action :=
  let targets :=
    if recursive then {[ref]} ∪ dependantRefs g ref else {[ref]} in
  filter (fun a => dependsOnOneOf a targets && filter_ a) (actions g).

(** Modelled from the spec: [getDeploys({ names })], the Deploy actions of
    the graph, restricted to the given names when there are any. *)
Definition getDeploys (g : ConfigGraph) (names : option (list string))
  : list Action :=
  filter (fun a => isDeploy a &&
                   match names with
                   | Some ns => bool_decide (name a ∈ ns)
                   | None => true
                   end)
         (actions g).

(** [a] depends on [ref], directly or through other actions of the
    graph. *)
Inductive dependsOn (g : ConfigGraph) : ActionRef -> ActionRef -> Prop :=
| dependsDirectly a ref :
    a ∈ actions g -> ref ∈ dependencies a -> dependsOn g (reference a) ref
| dependsThrough a via ref :
    a ∈ actions g -> via ∈ dependencies a -> dependsOn g via ref ->
    dependsOn g (reference a) ref.

(** Modelled from the spec: [uniqByName] of util/util, a file that is not
    embedded here.  It is lodash's [uniqBy] on the name: the first action
    of each name is kept. *)
Fixpoint uniqByName (l : list Action) : list Action :=
  match l with
  | [] => []
  | a :: t =>
      a :: filter (fun b => negb (String.eqb (name b) (name a))) (uniqByName t)
  end.

(** The references of the actions of the graph. *)
Definition nodes (g : ConfigGraph) : gset ActionRef :=
  list_to_set (reference <$> actions g).

(** ** Sample graphs *)

(** Deploy [b] depends on Deploy [a]. *)
Definition deployA : Action :=
  {| kind := Deploy; name := "a"; dependencies := [] |}.
Definition deployB : Action :=
  {| kind := Deploy; name := "b"; dependencies := [(Deploy, "a")] |}.
Definition twoDeploys : ConfigGraph := {| actions := [deployA; deployB] |}.

(** A third deploy that reaches [a] through a Run action. *)
Definition runR : Action :=
  {| kind := Run; name := "r"; dependencies := [(Deploy, "b")] |}.
Definition deployC : Action :=
  {| kind := Deploy; name := "c"; dependencies := [(Run, "r")] |}.
Definition deployD : Action :=
  {| kind := Deploy; name := "d"; dependencies := [] |}.
Definition chain : ConfigGraph :=
  {| actions := [deployA; deployB; runR; deployC; deployD] |}.

End ConfigGraphModel.

(* ====================================================================== *)
(** * Task graph results                                                   *)
(* ====================================================================== *)

Module TaskGraph.
Import JS.

(** [GraphResult]: what the task graph records for a task that ran. *)
Record GraphResult : Type := {
  type : string;
  name : string;
  output : value;
  startedAt : option float;
  completedAt : option float;
  error : option JS.error;
  version : option string
}.

(** [GraphResults]: task key to result, in key order of insertion; a task
    that was aborted has [null] ([None]). *)
Definition GraphResults : Type := list (string * option GraphResult).

End TaskGraph.

(* ====================================================================== *)
(** * The DeleteDeploy task and the delete deploy command                   *)
(* ====================================================================== *)

Module DeleteDeploy.
Import JS TemplateString ConfigGraphModel.

Record DeleteDeployTask : Type := {
  action : Action;
  dependantsFirst : bool;
  deleteDeployNames : list string
}.

#[global] Instance Action_eq_dec : EqDecision Action.
Proof. solve_decision. Defined.

#[global] Instance DeleteDeployTask_eq_dec : EqDecision DeleteDeployTask.
Proof. solve_decision. Defined.

(** The constructor: [dependantsFirst = false] and
    [deleteDeployNames || [action.name]] when not given. *)
Definition newDeleteDeployTask (action : Action)
    (deleteDeployNames : option (list string)) (dependantsFirst : option bool)
  : DeleteDeployTask :=
  {| action := action;
     dependantsFirst := default false dependantsFirst;
     deleteDeployNames := default [ConfigGraphModel.name action] deleteDeployNames |}.

Definition getName (t : DeleteDeployTask) : string :=
  ConfigGraphModel.name (action t).

(** The [TypeError] of calling what is no function (the wording of its
    message is the engine's). *)
Definition notAFunction (what : string) : JS.error :=
  Error TypeError (what ++ " is not a function") [] None.

(** [array.filter(callback)] with an imported binding as callback.  When
    the binding is [undefined], [filter] throws a [TypeError] before it
    looks at an element, so on an empty array too. *)
Definition filterBy {A} (callback : option (A -> bool)) (array : list A)
  : outcome (list A) :=
  match callback with
  | Some keep => Ret (filter (fun x => keep x) array)
  | None => Throw (notAFunction "undefined")
  end.

(** [array.flatMap(f)], where [f] may throw. *)
Fixpoint flatMapOutcome {A B} (f : A -> outcome (list B)) (array : list A)
  : outcome (list B) :=
  match array with
  | [] => Ret []
  | x :: rest =>
      ys <- f x ;; others <- flatMapOutcome f rest ;; Ret (ys ++ others)
  end.

(** [deletedServiceStatuses(results)] *)
Definition deletedServiceStatuses (results : TaskGraph.GraphResults) : props :=
  let deleted :=
    omap (fun kr => match kr.2 with
                    | Some r =>
                        if String.eqb (TaskGraph.type r) "delete-service"
                        then Some r else None
                    | None => None
                    end) results in
  fold_left (fun statuses res =>
               setProp (TaskGraph.name res) (TaskGraph.output res) statuses)
            deleted [].

Record DeleteDeployOpts : Type := {
  dependants_first : bool;
  with_dependants : bool
}.

Inductive LogEntry : Type :=
| Warn (msg : string).

(** What a run of the command did: what it logged, the tasks it handed to
    [garden.processTasks] ([None] when it never called it), and the result
    it returned or the error it threw. *)
Record CommandRun : Type := {
  logged : list LogEntry;
  processed : option (list DeleteDeployTask);
  result : outcome props
}.

Section Imports.
(** The binding [isDeployAction], which tasks/delete-service and
    commands/delete import from actions/deploy.  The file actions/deploy.ts
    exports no [isDeployAction], which leaves the binding [undefined]
    ([None]); [Some helper] is the binding with a helper in place. *)
Variable isDeployAction : option (Action -> bool).

(** [resolveDependencies()] *)
Definition resolveDependencies (graph : ConfigGraph) (t : DeleteDeployTask)
  : outcome (list DeleteDeployTask) :=
  if negb (dependantsFirst t) then Ret []
  else
    (* Note: We delete in _reverse_ dependency order, so we query for
       dependants *)
    let deps :=
      getDependants graph (Deploy, getName t) false
        (fun depNode =>
           bool_decide (kind depNode = Deploy)
           && bool_decide (ConfigGraphModel.name depNode ∈ deleteDeployNames t)) in
    kept <- filterBy isDeployAction deps ;;
    Ret ((fun action =>
            newDeleteDeployTask action (Some (deleteDeployNames t)) (Some true))
           <$> kept).

(** Modelled from the spec: the ordering guarantee of the task graph
    (graph/solver.ts, not embedded here).  No task executes before all
    its declared prerequisites have terminated: in the order in which tasks
    complete, every prerequisite of a task stands before it. *)
Definition respectsPrerequisites (graph : ConfigGraph)
    (completed : list DeleteDeployTask) : Prop :=
  forall i t prerequisites,
    completed !! i = Some t ->
    resolveDependencies graph t = Ret prerequisites ->
    forall p, p ∈ prerequisites ->
              exists j, j < i /\ completed !! j = Some p.

(** The binding [deletedDeployStatuses], which commands/delete imports
    from tasks/delete-service.  That file defines [deletedServiceStatuses]
    and no [deletedDeployStatuses], which leaves the binding [undefined]
    ([None]). *)
Variable deletedDeployStatuses : option (TaskGraph.GraphResults -> props).
(** [garden.processTasks]: the task graph at work. *)
Variable processTasks : list DeleteDeployTask -> TaskGraph.GraphResults.

(** [DeleteDeployCommand.action] *)
Definition deleteDeployAction (graph : ConfigGraph)
    (names : option (list string)) (opts : DeleteDeployOpts) : CommandRun :=
  let actions := getDeploys graph names in
  if bool_decide (length actions = 0) then
    {| logged := [Warn "No deploys found. Aborting."];
       processed := None;
       result := Ret [] |}
  else
    let extended : outcome (list Action) :=
      if with_dependants opts then
        (* Then we include service dependants (recursively) in the list of
           services to delete *)
        dependants <-
          flatMapOutcome
            (fun s =>
               filterBy isDeployAction
                 (getDependants graph (Deploy, ConfigGraphModel.name s)
                    true (fun _ => true)))
            actions ;;
        Ret (uniqByName (actions ++ dependants))
      else Ret actions in
    match extended with
    | Throw e => {| logged := []; processed := None; result := Throw e |}
    | Ret actions =>
        let dependantsFirst := dependants_first opts || with_dependants opts in
        let deleteDeployNames := ConfigGraphModel.name <$> actions in
        let tasks :=
          (fun action =>
             newDeleteDeployTask action (Some deleteDeployNames)
               (Some dependantsFirst)) <$> actions in
        (* the tasks are processed before the call of the binding *)
        let results := processTasks tasks in
        {| logged := [];
           processed := Some tasks;
           result :=
             match deletedDeployStatuses with
             | Some statuses => Ret (statuses results)
             | None => Throw (notAFunction "deletedDeployStatuses")
             end |}
    end.

End Imports.

(** ** Sample runs *)

Definition noResults (_ : list DeleteDeployTask) : TaskGraph.GraphResults := [].

Definition dependantsFirstOnly : DeleteDeployOpts :=
  {| dependants_first := true; with_dependants := false |}.

Definition withDependantsOnly : DeleteDeployOpts :=
  {| dependants_first := false; with_dependants := true |}.

End DeleteDeploy.

(* ====================================================================== *)
(** * The Test task                                                        *)
(* ====================================================================== *)

Module TestTaskModel.
Import JS.

(** The detail of a test result, and [GetTestResult], what the [getResult]
    and [run] handlers answer. *)
Record TestResult : Type := {
  success : bool;
  log : option string
}.

Record GetTestResult : Type := {
  state : string;
  detail : option TestResult
}.

Record TestTask : Type := {
  key : string;
  force : bool;
  skipRuntimeDependencies : bool;
  silent : bool;
  interactive : bool
}.

(** What a task does that can be observed from outside: calls of the two
    plugin handlers and log entries. *)
Inductive Event : Type :=
| GetResultCalled
| RunCalled
| LogInfo (section msg : string)
| LogSetSuccess
| LogSetError.

(** A step of a task: it extends the trace of events and returns or
    throws. *)
Definition Task (A : Type) : Type := list Event -> outcome A * list Event.

Definition ret {A} (a : A) : Task A := fun tr => (Ret a, tr).
Definition throw {A} (e : error) : Task A := fun tr => (Throw e, tr).
Definition emit (ev : Event) : Task unit := fun tr => (Ret tt, tr ++ [ev]).
Definition andThen {A B} (m : Task A) (k : A -> Task B) : Task B :=
  fun tr =>
    match m tr with
    | (Ret a, tr') => k a tr'
    | (Throw e, tr') => (Throw e, tr')
    end.
(** [await] of a step that stands outside the model: it returns or throws
    and leaves no event. *)
Definition await {A} (o : outcome A) : Task A := fun tr => (o, tr).
(** [try { m } catch (err) { handler(err) }] *)
Definition tryCatch {A} (m : Task A) (handler : error -> Task A) : Task A :=
  fun tr =>
    match m tr with
    | (Ret a, tr') => (Ret a, tr')
    | (Throw e, tr') => handler e tr'
    end.

Notation "x <~ m ;; k" := (andThen m (fun x => k))
  (at level 100, m at next level, right associativity).
Notation "m ;;; k" := (andThen m (fun _ => k))
  (at level 100, right associativity).

Section Handlers.
(** [(await this.garden.getActionRouter()).test.getResult(...)] for the
    action of the task, the lookup of the router and of the stored result
    taken as one step: the stored result, if the plugin has one. *)
Variable getResultHandler : outcome (option GetTestResult).
(** [prepareRuntimeContext({ action, graph, graphResults })] of
    runtime-context, a file that is not embedded here: it returns the
    context or throws. *)
Variable prepareRuntimeContext : outcome unit.
(** [this.garden.getActionRouter()], as [process] awaits it. *)
Variable getActionRouter : outcome unit.
(** [actions.test.run(...)] for the action of the task. *)
Variable runHandler : outcome GetTestResult.

Definition callGetResult : Task (option GetTestResult) :=
  fun tr => (getResultHandler, tr ++ [GetResultCalled]).

Definition callRun : Task GetTestResult :=
  fun tr => (runHandler, tr ++ [RunCalled]).

(** [private async getTestResult()] *)
Definition getTestResult (t : TestTask) : Task (option GetTestResult) :=
  if force t then ret None
  else callGetResult.

(** [async getStatus()] *)
Definition getStatus (t : TestTask) : Task (option GetTestResult) :=
  result <~ getTestResult t ;;
  let testResult := result ≫= detail in
  match testResult with
  | Some {| success := true |} =>
      emit (LogInfo (key t) "Already passed") ;;;
      emit LogSetSuccess ;;;
      ret result
  | _ => ret None
  end.

(** [async process()] *)
Definition process (t : TestTask) : Task GetTestResult :=
  emit (LogInfo (key t) "Running...") ;;;
  runtimeContext <~ await prepareRuntimeContext ;;
  actions <~ await getActionRouter ;;
  result <~ tryCatch callRun (fun err => emit LogSetError ;;; throw err) ;;
  match detail result with
  | Some {| success := true |} =>
      emit LogSetSuccess ;;;
      ret result
  | d =>
      emit LogSetError ;;;
      throw (Error TestError (default "" (d ≫= log)) [] None)
  end.

(** Modelled from the spec: the step of the task graph that executes a
    task (graph/solver.ts and tasks/base.ts, not embedded here).  A task whose
    status lookup yields a result completes with it; otherwise it is
    processed. *)
Definition execute (t : TestTask) : Task GetTestResult :=
  status <~ getStatus t ;;
  match status with
  | Some result => ret result
  | None => process t
  end.

End Handlers.

(** ** Sample results *)

Definition passed : GetTestResult :=
  {| state := "ready"; detail := Some {| success := true; log := None |} |}.
Definition failed : GetTestResult :=
  {| state := "ready";
     detail := Some {| success := false; log := Some "1 failing" |} |}.
Definition unitTest (force : bool) : TestTask :=
  {| key := "test.unit"; force := force; skipRuntimeDependencies := false;
     silent := true; interactive := false |}.

End TestTaskModel.

(* ====================================================================== *)
(** * core/src/process.ts: the watch loop                                  *)
(* ====================================================================== *)

Module Watch.
Import JS.

Definition newline : string := String "010"%char EmptyString.

Inductive LogEntry : Type :=
| LogDebug (msg : string)
| LogInfo (section : option string) (msg : string)
| LogError (msg : string) (e : option error).

(** What re-parsing the project gave: [Garden.factory], [getConfigGraph] and
    [close] went through, or one of them threw. *)
Inductive Reparse : Type :=
| Parsed
| Failed (e : error).

Inductive OperationType : Type := added | changed | removed.

Definition operationName (o : OperationType) : string :=
  match o with
  | added => "added"
  | changed => "changed"
  | removed => "removed"
  end.

(** The events handled while the watch loop waits.  The handlers of task
    errors, graph completion, changed sources and requests from the cloud
    log and process tasks; they neither resolve the promise nor assign
    [restartRequired] nor touch the Garden instance, and stand here as
    [working], with what they log. *)
Inductive Event : Type :=
| _restart
| _exit
| projectConfigChanged (reparse : Reparse)
| configAdded (path : string) (reparse : Reparse)
| configRemoved (path : string) (reparse : Reparse)
| actionConfigChanged (path : string) (names : list string) (reparse : Reparse)
| working (entries : list LogEntry).

(** The literal parts of the template of the message logged for a
    configuration error, as the tag [dedent] receives them: the text before
    [changedPath], between the interpolated values, and after
    [error.message], with the line breaks and the indentation of the
    source. *)
Definition configurationErrorTemplate : list string :=
  [(newline ++ "        Encountered configuration error after ")%string;
   " was "%string;
   (":" ++ newline ++ newline ++ "        ")%string;
   (newline ++ newline
      ++ "        Keeping existing configuration and skipping restart.")%string].

Section Loop.
(** The Garden instance: the configuration in use. *)
Variable Garden : Type.
Variable projectRoot : Garden -> string.
(** The template tag [dedent] of util/string, a file that is not embedded
    here: it is handed the literal parts of a template and the interpolated
    values, and answers with the text.  It strips indentation from the
    finished text, so what it answers depends on the values too. *)
Variable dedent : list string -> list string -> string.

(** The message logged for a configuration error:
    [dedent`... ${changedPath} was ${operationType}: ... ${error.message}
    ...`]. *)
Definition configurationErrorMessage (path : string) (op : OperationType)
    (message : string) : string :=
  dedent configurationErrorTemplate [path; operationName op; message].

Record State : Type := {
  garden : Garden;
  resolved : bool;
  restartRequired : bool;
  log : list LogEntry;
  factoryCalls : nat
}.

Definition logged (entry : LogEntry) (st : State) : State :=
  {| garden := garden st; resolved := resolved st;
     restartRequired := restartRequired st;
     log := log st ++ [entry]; factoryCalls := factoryCalls st |}.

(** [resolve({})] *)
Definition resolve (st : State) : State :=
  {| garden := garden st; resolved := true;
     restartRequired := restartRequired st;
     log := log st; factoryCalls := factoryCalls st |}.

(** [validateConfigChange]: a new Garden instance is made from the changed
    files and dropped again; the answer is whether that went without a
    configuration error.  Any other error is thrown on. *)
Definition validateConfigChange (st : State) (changedPath : string)
    (operationType : OperationType) (reparse : Reparse)
  : outcome bool * State :=
  let st :=
    {| garden := garden st; resolved := resolved st;
       restartRequired := restartRequired st;
       log := log st; factoryCalls := S (factoryCalls st) |} in
  match reparse with
  | Parsed => (Ret true, st)
  | Failed (Error ConfigurationError message _ _ as error) =>
      let msg := configurationErrorMessage changedPath operationType message in
      (Ret false, logged (LogError msg (Some error)) st)
  | Failed error => (Throw error, st)
  end.

(** A handler of a config event: validate, and on success log and resolve.
    An error thrown by the validation rejects the handler and changes
    nothing else. *)
Definition onConfigChange (changedPath : string) (operationType : OperationType)
    (reparse : Reparse) (info : LogEntry) (st : State) : State :=
  match validateConfigChange st changedPath operationType reparse with
  | (Ret true, st') => resolve (logged info st')
  | (Ret false, st') => st'
  | (Throw _, st') => st'
  end.

(** The handlers registered inside the promise of [processActions]. *)
Definition handle (e : Event) (st : State) : State :=
  match e with
  | _restart =>
      resolve (logged (LogDebug "Manual restart triggered") st)
  | _exit =>
      let st := logged (LogDebug "Manual exit triggered") st in
      resolve {| garden := garden st; resolved := resolved st;
                 restartRequired := false;
                 log := log st; factoryCalls := factoryCalls st |}
  | projectConfigChanged reparse =>
      onConfigChange (projectRoot (garden st)) changed reparse
        (LogInfo None "Project configuration changed, reloading...") st
  | configAdded path reparse =>
      onConfigChange path added reparse
        (LogInfo None ("Garden config added at " ++ path ++ ", reloading...")) st
  | configRemoved path reparse =>
      onConfigChange path removed reparse
        (LogInfo None ("Garden config at " ++ path ++ " removed, reloading...")) st
  | actionConfigChanged path names reparse =>
      onConfigChange path changed reparse
        (LogInfo (match names with [n] => Some n | _ => None end)
                 "Module configuration changed, reloading...") st
  | working entries =>
      {| garden := garden st; resolved := resolved st;
         restartRequired := restartRequired st;
         log := log st ++ entries; factoryCalls := factoryCalls st |}
  end.

(** The state in which the loop starts to wait: [let restartRequired =
    true], the promise pending. *)
Definition waiting (g : Garden) (log0 : list LogEntry) : State :=
  {| garden := g; resolved := false; restartRequired := true;
     log := log0; factoryCalls := 0 |}.

(** Events are handled one after the other until one resolves the promise;
    the function that awaits it then goes on and returns. *)
Fixpoint watch (events : list Event) (st : State) : State :=
  match events with
  | [] => st
  | e :: rest =>
      let st' := handle e st in
      if resolved st' then st' else watch rest st'
  end.

Record ProcessResults : Type := {
  graphResults : TaskGraph.GraphResults;
  restartRequiredResult : bool
}.

(** What [processActions] returns once the promise is resolved; [None]
    while it still waits. *)
Definition returned (st : State) : option ProcessResults :=
  if resolved st
  then Some {| graphResults := []; restartRequiredResult := restartRequired st |}
  else None.

(** The config events: the path, the operation and the outcome of the
    re-parse each of them hands to [validateConfigChange]. *)
Definition configChange (g : Garden) (e : Event)
  : option (string * OperationType * Reparse) :=
  match e with
  | projectConfigChanged reparse => Some (projectRoot g, changed, reparse)
  | configAdded path reparse => Some (path, added, reparse)
  | configRemoved path reparse => Some (path, removed, reparse)
  | actionConfigChanged path _ reparse => Some (path, changed, reparse)
  | _ => None
  end.

End Loop.

(** ** Sample project *)

Definition invalidConfig : error :=
  Error ConfigurationError "Unknown key: foo" [] None.

Definition root (_ : unit) : string := "/project".

(** A tag that joins the literal parts and the values as they come. *)
Fixpoint interleaved (strings values : list string) : string :=
  match strings, values with
  | s :: strings, v :: values =>
      (s ++ v ++ interleaved strings values)%string
  | s :: _, [] => s
  | [], _ => ""%string
  end.

End Watch.

(* ====================================================================== *)
(** * core/src/commands/base.ts                                            *)
(* ====================================================================== *)

Module CommandBase.
Import JS TemplateString TaskGraph.

(** The object handed to [handleProcessResults], by the two properties
    the function reads off it.  The interface [ProcessResults] of process.ts
    declares [graphResults] and [restartRequired] and no [taskResults], and
    [processActions] returns objects of just that shape: [taskResults] is
    [None] ([undefined]) unless the caller put the property there. *)
Record ProcessResults : Type := {
  taskResults : option GraphResults;
  restartRequired : option bool
}.

(** What [processActions] returns, as [handleProcessResults] reads it: the
    graph results are under [graphResults], which is not read. *)
Definition fromProcessActions (r : Watch.ProcessResults) : ProcessResults :=
  {| taskResults := None;
     restartRequired := Some (Watch.restartRequiredResult r) |}.

(** [ProcessCommandResult] *)
Record ProcessCommandResult : Type := {
  builds : props;
  deployments : props;
  tests : props;
  graphResults : GraphResults
}.

(** The [RuntimeError] a command reports: its message and, as detail, the
    results it is about. *)
Record CommandError : Type := {
  cls : errorClass;
  message : string;
  results : GraphResults
}.

Record CommandResult : Type := {
  result : ProcessCommandResult;
  errors : list CommandError;
  restartRequiredResult : option bool
}.

(** The part of [s] before the first [delimiter], and the rest after it, if
    the delimiter occurs. *)
Fixpoint splitAt (delimiter : ascii) (s : string) : string * option string :=
  match s with
  | EmptyString => (EmptyString, None)
  | String c rest =>
      if Ascii.eqb c delimiter then (EmptyString, Some rest)
      else let '(first, tail) := splitAt delimiter rest in
           (String c first, tail)
  end.

(** [name.split(".")[0]] *)
Definition firstPart (name : string) : string := (splitAt "."%char name).1.

(** [splitFirst(name, ".")[1]] of util/util: what follows the first dot,
    empty when there is none. *)
Definition afterFirst (name : string) : string :=
  default EmptyString (splitAt "."%char name).2.

(** The own enumerable properties [{ ...v }] copies: those of a plain
    object; the elements of an array and the characters of a string under
    their indices; none for the other values. *)
Definition indexed {A} (f : A -> value) (l : list A) : props :=
  imap (fun i x => (pretty i, f x)) l.

Definition ownProperties (v : value) : props :=
  match v with
  | VObj _ m => m
  | VArr _ items => indexed id items
  | VStr s => indexed (fun c => VStr (String c EmptyString)) (list_ascii_of_string s)
  | _ => []
  end.

Definition optional {A} (f : A -> value) (o : option A) : value :=
  match o with
  | Some a => f a
  | None => VUndefined
  end.

Section Results.
(** [getDurationMsec] of util/util. *)
Variable getDurationMsec : float -> float -> float.

(** [prepareProcessResult(graphResult)] *)
Definition prepareProcessResult (graphResult : option GraphResult) : props :=
  let output := optional output graphResult in
  let spreadOutput :=
    spread [] (ownProperties (if truthy output then output else VObj None [])) in
  let durationMsec :=
    match graphResult with
    | Some r =>
        match startedAt r, completedAt r with
        | Some s, Some c => VNum (getDurationMsec s c)
        | _, _ => VUndefined
        end
    | None => VUndefined
    end in
  let outputVersion :=
    match output with
    | VUndefined | VNull => VUndefined
    | _ => default VUndefined (getProp "version" (ownProperties output))
    end in
  let version :=
    if truthy outputVersion then outputVersion
    else optional (fun r => optional VStr (TaskGraph.version r)) graphResult in
  setProp "version" version
    (setProp "success"
       (VBool (match graphResult with
               | Some r => match error r with Some _ => false | None => true end
               | None => false
               end))
       (setProp "error"
          (optional (fun r => optional (fun e => VStr (errorMessage e)) (error r))
                    graphResult)
          (setProp "durationMsec" durationMsec
             (setProp "aborted"
                (VBool (match graphResult with Some _ => false | None => true end))
                spreadOutput)))).

(** [fromPairs(pairs)] *)
Definition fromPairs (pairs : list (string * value)) : props :=
  fold_left (fun o kv => setProp kv.1 kv.2 o) pairs [].

(** [prepareProcessResults(taskType, graphResults)] *)
Definition prepareProcessResults (taskType : string) (graphResults : GraphResults)
  : props :=
  let graphBuildResults :=
    filter (fun kr => String.eqb (firstPart kr.1) taskType) graphResults in
  fromPairs
    ((fun kr => (afterFirst kr.1, VObj None (prepareProcessResult kr.2)))
       <$> graphBuildResults).

(** [r && r.error] *)
Definition hasFailed (r : option GraphResult) : bool :=
  match r with
  | Some r => match error r with Some _ => true | None => false end
  | None => false
  end.

(** [pickBy(results.taskResults, (r) => r && r.error)] *)
Definition failedResults (taskResults : GraphResults) : GraphResults :=
  filter (fun kr => hasFailed kr.2) taskResults.

Inductive Footer : Type := FooterPrinted | NoFooter.

(** The [TypeError] of [Object.entries(undefined)] (the wording of its
    message is the engine's). *)
Definition cannotConvert : JS.error :=
  Error TypeError "Cannot convert undefined or null to object" [] None.

(** [handleProcessResults(log, taskType, results)]: the command result or
    the error thrown, and whether the footer was printed.  Without
    [results.taskResults] the first call of [prepareProcessResults] throws
    in [Object.entries]. *)
Definition handleProcessResults (taskType : string) (results : ProcessResults)
  : outcome CommandResult * Footer :=
  match taskResults results with
  | None => (Throw cannotConvert, NoFooter)
  | Some graphResults =>
      let result :=
        {| builds := prepareProcessResults "build" graphResults;
           deployments := prepareProcessResults "deploy" graphResults;
           tests := prepareProcessResults "test" graphResults;
           graphResults := graphResults |} in
      let failed := failedResults graphResults in
      let failedCount := length failed in
      if Nat.ltb 0 failedCount then
        let error :=
          {| cls := RuntimeError;
             message :=
               pretty failedCount ++ " " ++ taskType ++ " task(s) failed!";
             results := failed |} in
        (Ret {| result := result; errors := [error];
                restartRequiredResult := Some false |}, NoFooter)
      else
        (Ret {| result := result; errors := [];
                restartRequiredResult := restartRequired results |},
         if default false (restartRequired results) then NoFooter
         else FooterPrinted)
  end.

End Results.


(** What a call returned, if it did not throw. *)
Definition outcomeValue {A} (o : outcome A) : option A :=
  match o with
  | Ret a => Some a
  | Throw _ => None
  end.

(** ** Sample results *)

Definition aTask (ty nm : string) (failure : option JS.error) : GraphResult :=
  {| type := ty; name := nm; output := VObj None [("log", VStr "ok")];
     startedAt := Some 1000%float; completedAt := Some 1500%float;
     error := failure; version := Some "v-1" |}.

Definition elapsed (started completed : float) : float :=
  PrimFloat.sub completed started.

(** One build failed, one was aborted, one test passed. *)
Definition mixedGraphResults : GraphResults :=
  [("build.a", Some (aTask "build" "a"
                       (Some (Error (OtherError "BuildError")
                                "exit code 1" [] None))));
   ("build.b", None);
   ("test.a.unit", Some (aTask "test" "a.unit" None))].

Definition mixedResults : ProcessResults :=
  {| taskResults := Some mixedGraphResults; restartRequired := None |}.

End CommandBase.

(* ====================================================================== *)
(** * core/src/template-string.ts: the parts of a parsed template          *)
(* ====================================================================== *)

Module TemplateParts.
Import JS TemplateString.

(** Whether a part is one of the block operators the assembly loop of
    [resolveTemplateString] looks for. *)
Definition isBlockPart (part : ResolvedClause) : bool :=
  isBlock part "if" || isBlock part "else" || isBlock part "endif".

(** A part that is text or a value: no block operator and no error. *)
Definition isPlain (part : ResolvedClause) : bool :=
  negb (isBlockPart part)
  && match _error part with Some _ => false | None => true end.

(** How many of the parts are the block operator [name]. *)
Definition countBlock (name : string) (parts : list ResolvedClause) : nat :=
  length (filter (fun part => isBlock part name) parts).

(** The prefix [resolveTemplateString] puts before the message of an error
    it wraps. *)
Definition invalidPrefix (truncate : string -> nat -> string) (str : string)
  : string :=
  ("Invalid template string (" ++ escapeNewlines (truncate str 35) ++ "): ")%string.

Section Text.
Variable numberToString : float -> string.

(** What a plain part adds to the resolved string: nothing when its value
    is undefined, the word null for null, the string conversion of the
    value otherwise. *)
Definition partText (part : ResolvedClause) : string :=
  match resolved part with
  | VUndefined => ""
  | VNull => "null"
  | v => toString numberToString v
  end.

Fixpoint text (parts : list ResolvedClause) : string :=
  match parts with
  | [] => ""
  | part :: rest => (partText part ++ text rest)%string
  end.

(** The node the assembly loop makes of a plain part. *)
Definition valueNode (part : ResolvedClause) : ConditionalTree :=
  let v := resolved part in
  Node NValue (match v with VNull => VStr "null" | _ => v end) [].

(** [for (const child of node.children) { resolveTree(child) }] *)
Definition resolveChildren (children : list ConditionalTree) (acc : string)
  : string :=
  fold_left (fun acc child => resolveTree numberToString child acc)
            children acc.

End Text.

(** A chain that applies one and the same operator to each of [rest]. *)
Definition chainOf (operator : string) (rest : list res)
  : list (string * res) :=
  (fun r => (operator, r)) <$> rest.

(** An operand handed over as a bare null or undefined, not wrapped in a
    clause. *)
Definition bare (r : res) : Prop := r = Raw VNull \/ r = Raw VUndefined.

(** Whether a value holds the key [$merge] at any depth. *)
Fixpoint hasSpreadKey (v : value) : bool :=
  match v with
  | VArr _ items => existsb hasSpreadKey items
  | VObj _ entries =>
      existsb (fun kv => String.eqb kv.1 objectSpreadKey || hasSpreadKey kv.2)
              entries
  | _ => false
  end.

End TemplateParts.

(* ====================================================================== *)
(** * core/src/template-string.ts: references to secrets                   *)
(* ====================================================================== *)

Module SecretKeys.
Import JS TemplateString.

(** SameValueZero, the equality lodash's [difference] compares with:
    strict equality, except that [NaN] equals itself. *)
Definition sameValueZero (l r : value) : bool :=
  match l, r with
  | VNum a, VNum b => PrimFloat.eqb a b || (is_nan a && is_nan b)
  | _, _ => strictEquals l r
  end.

(** [difference(array, values)] of lodash: the elements of [array] that
    are not among [values], in their order. *)
Definition difference (array values : list value) : list value :=
  filter (fun x => negb (existsb (sameValueZero x) values)) array.

(** [ref[i]] on a key path: the segment, undefined past the end. *)
Definition segment (ref : list value) (i : nat) : value :=
  default VUndefined (ref !! i).

Section References.
(** [collectTemplateReferences(obj)]: the key paths the template strings of
    [obj] refer to, each a list of segments (strings or numbers).  It
    resolves [obj] against a scanning context, which is not embedded
    here. *)
Variable collectTemplateReferences : value -> list (list value).
(** [Array.prototype.sort] with the default order. *)
Variable sort : list value -> list value.

(** [getRuntimeTemplateReferences(obj)] *)
Definition getRuntimeTemplateReferences (obj : value) : list (list value) :=
  let refs := collectTemplateReferences obj in
  filter (fun ref => strictEquals (segment ref 0) (VStr "runtime")) refs.

(** The keys of [secrets] that have a value: [Object.entries(secrets)
    .filter(([_key, value]) => value).map(([key, _value]) => key)]. *)
Definition keysWithValues (secrets : props) : list value :=
  (fun kv => VStr kv.1) <$> filter (fun kv => truthy kv.2) secrets.

(** [detectMissingSecretKeys(obj, secrets)] *)
Definition detectMissingSecretKeys (obj : value) (secrets : props)
  : list value :=
  let referencedKeys :=
    (fun ref => segment ref 1)
      <$> filter (fun ref => strictEquals (segment ref 0) (VStr "secrets"))
                 (collectTemplateReferences obj) in
  let missingKeys := difference referencedKeys (keysWithValues secrets) in
  sort missingKeys.

End References.

(** ** Sample references *)

Definition twoSecrets (_ : value) : list (list value) :=
  [[VStr "secrets"; VStr "token"]; [VStr "var"; VStr "a"];
   [VStr "secrets"; VStr "password"]].

Definition unsorted (l : list value) : list value := l.

End SecretKeys.

(* ====================================================================== *)
(** * The selection of tests                                               *)
(* ====================================================================== *)

Module TestSelection.

(** An entry of [ModuleConfig["testConfigs"]], as [filterTestConfigs] reads
    it. *)
Record TestConfig : Type := {
  name : string;
  disabled : bool
}.

(** A Test action, as [getTestActions] reads it. *)
Record TestAction : Type := {
  actionName : string;
  isDisabled : bool;
  moduleName : string
}.

Section Matching.
(** [minimatch(name, pattern)] *)
Variable minimatch : string -> string -> bool.
Variable GardenModule : Type.
(** [getNames] of util/util. *)
Variable getNames : list GardenModule -> list string.

(** [find(filterNames, (n) => minimatch(name, n))] used as a condition:
    [find] answers with the first pattern that matches, and the condition
    holds when that pattern is not the empty string. *)
Definition findPattern (name : string) (filterNames : list string) : bool :=
  match List.find (fun n => minimatch name n) filterNames with
  | Some n => negb (String.eqb n "")
  | None => false
  end.

(** [filterTestConfigs(configs, filterNames)] of tasks/test.ts (the second
    file in core/src/process.ts). *)
Definition filterTestConfigs (configs : list TestConfig)
    (filterNames : option (list string)) : list TestConfig :=
  filter (fun test =>
            negb (disabled test)
            && match filterNames with
               | None => true
               | Some names =>
                   Nat.eqb (length names) 0 || findPattern (name test) names
               end)
         configs.

(** [getTestActions({ graph, modules, filterNames })] of commands/test.ts
    (the second file in core/src/commands/run/run.ts); [tests] is what
    [graph.getTests()] answers. *)
Definition getTestActions (tests : list TestAction)
    (modules : option (list GardenModule))
    (filterNames : option (list string)) : list TestAction :=
  let tests := filter (fun t => negb (isDisabled t)) tests in
  let tests :=
    match modules with
    | Some modules =>
        let moduleNames := getNames modules in
        filter (fun t => bool_decide (moduleName t ∈ moduleNames)) tests
    | None => tests
    end in
  match filterNames with
  | Some filterNames =>
      filter (fun t => findPattern (actionName t) filterNames) tests
  | None => tests
  end.

End Matching.

(** ** Sample tests *)

(** A matcher for patterns without wildcards. *)
Definition exactMatch (name pattern : string) : bool := String.eqb name pattern.

Definition unit : TestConfig := {| name := "unit"; disabled := false |}.
Definition integ : TestConfig := {| name := "integ"; disabled := true |}.

End TestSelection.

(* ====================================================================== *)
(** * core/src/commands/base.ts: keys, names and paths of commands         *)
(* ====================================================================== *)

Module CommandPaths.

(** What the naming methods of [Command] read: the name, the alias and the
    parent group. *)
Inductive Command : Type :=
| mkCommand (name : string) (alias : option string) (parent : option Command).

Definition name (c : Command) : string := let 'mkCommand n _ _ := c in n.
Definition alias (c : Command) : option string := let 'mkCommand _ a _ := c in a.
Definition parent (c : Command) : option Command := let 'mkCommand _ _ p := c in p.

(** [this.alias] used as a condition: the alias, when there is one and it
    is not the empty string. *)
Definition aliasGiven (a : option string) : option string :=
  match a with
  | Some a => if String.eqb a "" then None else Some a
  | None => None
  end.

(** [getKey()] *)
Fixpoint getKey (c : Command) : string :=
  let 'mkCommand name _ parent := c in
  match parent with
  | Some parent => (getKey parent ++ "." ++ name)%string
  | None => name
  end.

(** [getFullName()] *)
Fixpoint getFullName (c : Command) : string :=
  let 'mkCommand name _ parent := c in
  match parent with
  | Some parent => (getFullName parent ++ " " ++ name)%string
  | None => name
  end.

(** [getPath()] *)
Fixpoint getPath (c : Command) : list string :=
  let 'mkCommand name _ parent := c in
  match parent with
  | Some parent => getPath parent ++ [name]
  | None => [name]
  end.

(** [getPaths()] *)
Fixpoint getPaths (c : Command) : list (list string) :=
  let 'mkCommand name alias parent := c in
  match parent with
  | Some parent =>
      let parentPaths := getPaths parent in
      match aliasGiven alias with
      | Some alias =>
          parentPaths ≫= fun parentPath =>
            [parentPath ++ [name]; parentPath ++ [alias]]
      | None => (fun parentPath => parentPath ++ [name]) <$> parentPaths
      end
  | None =>
      match aliasGiven alias with
      | Some alias => [[name]; [alias]]
      | None => [[name]]
      end
  end.

(** The groups a command sits in, outermost first, and the command itself
    last. *)
Fixpoint lineage (c : Command) : list Command :=
  match parent c with
  | Some p => lineage p ++ [c]
  | None => [c]
  end.

(** A word of a command line names a command when it is its name or its
    alias. *)
Definition names (word : string) (c : Command) : Prop :=
  word = name c \/ aliasGiven (alias c) = Some word.

(** ** Sample commands *)

(** The group [delete] and its command [environment] of commands/delete.ts:
    the classes declare [aliases], which the naming methods do not read, and
    no [alias]. *)
Definition deleteGroup : Command := mkCommand "delete" None None.
Definition deleteEnvironment : Command :=
  mkCommand "environment" None (Some deleteGroup).

(** A group and a command that declare an [alias] each. *)
Definition shortGroup : Command := mkCommand "remove" (Some "rm") None.
Definition shortCommand : Command :=
  mkCommand "volume" (Some "vol") (Some shortGroup).

End CommandPaths.

(* ====================================================================== *)
(** * core/src/commands/base.ts: the result of a single task               *)
(* ====================================================================== *)

Module TaskResults.
Import JS TemplateString TaskGraph CommandBase.

(** What the handlers of a result write to the log. *)
Inductive LogCall : Type :=
| LogInfo (msg : string)
| LogError (msg : string)
| PrintFooter.

(** The [RuntimeError] about a failed task: its message and, as detail,
    the result of the task. *)
Record TaskError : Type := {
  errorClass : JS.errorClass;
  errorText : string;
  failedResult : GraphResult
}.

(** [{ result: { result, graphResults } }] or [{ errors }]. *)
Record TaskCommandResult : Type := {
  prepared : option (props * GraphResults);
  taskErrors : list TaskError
}.

(** The [TypeError] of reading a property of [null] or [undefined] (the
    wording of its message is the engine's). *)
Definition cannotRead (what property : string) : JS.error :=
  Error TypeError
    ("Cannot read properties of " ++ what ++ " (reading '" ++ property
       ++ "')")%string
    [] None.

(** [graphResults[key]]: [None] when the key is not there. *)
Fixpoint resultAt (key : string) (graphResults : GraphResults)
  : option (option GraphResult) :=
  match graphResults with
  | [] => None
  | (k, r) :: rest => if String.eqb key k then Some r else resultAt key rest
  end.

(** [result.output.log] *)
Definition outputLog (result : GraphResult) : outcome value :=
  match output result with
  | VUndefined => Throw (cannotRead "undefined" "log")
  | VNull => Throw (cannotRead "null" "log")
  | v => Ret (default VUndefined (getProp "log" (ownProperties v)))
  end.

Section Handlers.
(** [capitalize] of lodash. *)
Variable capitalize : string -> string.
(** [renderMessageWithDivider] of logger/util. *)
Variable renderMessageWithDivider : string -> value -> bool -> string.
(** [chalk.white] *)
Variable white : string -> string.
(** [getDurationMsec] of util/util. *)
Variable getDurationMsec : float -> float -> float.

(** [printResult({ log, result, success, actionDescription })] *)
Definition printResult (result : value) (success : bool)
    (actionDescription : string) : list LogCall :=
  let prefix : string :=
    if success then (capitalize actionDescription ++ " output:")%string
    else (capitalize actionDescription ++ " failed with error:")%string in
  let msg := renderMessageWithDivider prefix result (negb success) in
  if success then [LogInfo (white msg)] else [LogError msg].

(** [handleTaskResult({ log, actionDescription, graphResults, key,
    interactive })]: what it returns or throws, and what it logged. *)
Definition handleTaskResult (actionDescription : string)
    (graphResults : GraphResults) (key : string) (interactive : bool)
  : outcome TaskCommandResult * list LogCall :=
  match resultAt key graphResults with
  | None => (Throw (cannotRead "undefined" "error"), [])
  | Some None => (Throw (cannotRead "null" "error"), [])
  | Some (Some result) =>
      (* If there's an error, the task graph prints it *)
      let printed : outcome (list LogCall) :=
        if negb interactive
           && match error result with Some _ => false | None => true end
        then
          log <- outputLog result ;;
          Ret (if truthy log then printResult log true actionDescription
               else [])
        else Ret [] in
      match printed with
      | Throw e => (Throw e, [])
      | Ret logged =>
          match error result with
          | Some _ =>
              (Ret {| prepared := None;
                      taskErrors :=
                        [{| errorClass := RuntimeError;
                            errorText :=
                              (capitalize actionDescription ++ " failed!")%string;
                            failedResult := result |}] |},
               logged)
          | None =>
              (Ret {| prepared :=
                        Some (prepareProcessResult getDurationMsec (Some result),
                              graphResults);
                      taskErrors := [] |},
               logged ++ [PrintFooter])
          end
      end
  end.

End Handlers.

(** ** Sample handlers *)

Definition asIs (s : string) : string := s.
Definition underDivider (prefix : string) (_ : value) (_ : bool) : string :=
  prefix.

End TaskResults.

(* ====================================================================== *)
(** * Template operators: theorems                                         *)
(* ====================================================================== *)

Module TemplateStringFacts.
Import JS TemplateString.

Lemma reduce_snoc {A B} (f : A -> B -> outcome A) (l : list B) (x : B) (acc : A) :
  reduce f (l ++ [x]) acc = (a <- reduce f l acc ;; f a x).
Proof.
  revert acc. induction l as [|y l IH]; intros acc; simpl.
  - destruct (f acc x); reflexivity.
  - destruct (f acc y) as [a|e]; simpl; [apply IH | reflexivity].
Qed.

(** Evaluating one more operator of a chain applies the callback to the
    result of the chain so far. *)
Lemma buildBinaryExpression_snoc head tail leftRes operator rightRes :
  buildBinaryExpression head tail = Ret leftRes ->
  buildBinaryExpression head (tail ++ [(operator, rightRes)])
  = binaryStep leftRes (operator, rightRes).
Proof.
  unfold buildBinaryExpression. intros H. by rewrite reduce_snoc, H.
Qed.

Lemma buildLogicalExpression_snoc head tail leftRes operator rightRes :
  buildLogicalExpression head tail = Ret leftRes ->
  buildLogicalExpression head (tail ++ [(operator, rightRes)])
  = logicalStep leftRes (operator, rightRes).
Proof.
  unfold buildLogicalExpression. intros H. by rewrite reduce_snoc, H.
Qed.

(** A result that carries an error goes through every later operator. *)
Lemma binaryStep_left_error leftRes element :
  hasError leftRes = true -> binaryStep leftRes element = Ret leftRes.
Proof. intros H. unfold binaryStep. by rewrite H. Qed.

Lemma binaryStep_right_error leftRes operator rightRes :
  hasError leftRes = false -> hasError rightRes = true ->
  binaryStep leftRes (operator, rightRes) = Ret rightRes.
Proof. intros Hl Hr. unfold binaryStep. simpl. by rewrite Hl, Hr. Qed.

(** Reading [message] off a bare [null] operand throws before any error
    result is built. *)
Lemma binaryStep_null_operand operator message :
  binaryStep (Raw VNull) (operator, missingKey message)
  = Throw (Error TypeError
             "Cannot read properties of null (reading 'message')" [] None).
Proof. reflexivity. Qed.

Lemma isUndefined_true v : isUndefined v = true <-> v = VUndefined.
Proof. destruct v; simpl; split; congruence. Qed.

Section ThrownErrors.
Variable ConfigContext : Type.
Variable parse : string -> ConfigContext -> ContextResolveOpts
                 -> outcome (list res).
Variable numberToString : float -> string.
Variable truncate : string -> nat -> string.

Abbreviation resolveTemplateString :=
  (resolveTemplateString ConfigContext parse numberToString truncate).

(** Whatever is thrown inside [resolveTemplateString] leaves it as a
    [TemplateStringError] that wraps the original error. *)
Lemma resolveTemplateString_throws str context opts e :
  resolveTemplateString str context opts = Throw e ->
  errorCls e = TemplateStringError /\
  exists msg cause, e = Error TemplateStringError msg [] (Some cause).
Proof.
  unfold TemplateString.resolveTemplateString.
  destruct (String.eqb str ""); [discriminate|].
  destruct (resolveParsed _ _ _ _ _ _) as [v|err]; [discriminate|].
  intros [= <-]. split; [reflexivity | eauto].
Qed.

Lemma firstError_In outputs e :
  firstError outputs = Some e -> exists r, r ∈ outputs /\ _error r = Some e.
Proof.
  induction outputs as [|r rest IH]; simpl; [discriminate|].
  destruct (_error r) as [e'|] eqn:Hr.
  - intros [= ->]. exists r. split; [left | done].
  - intros H. destruct (IH H) as (r' & Hin & He). exists r'.
    split; [by right | done].
Qed.

(** An error result among the parsed clauses makes the resolution
    throw. *)
Lemma resolveTemplateString_error_result str context opts parsed e :
  str <> "" ->
  parse str context opts = Ret parsed ->
  firstError (map toClause parsed) = Some e ->
  exists msg,
    resolveTemplateString str context opts
    = Throw (Error TemplateStringError msg [] (Some e)).
Proof.
  intros Hne Hp He. unfold TemplateString.resolveTemplateString, resolveParsed.
  destruct (String.eqb_spec str ""); [done|].
  rewrite Hp. simpl. rewrite He. eauto.
Qed.
End ThrownErrors.


(** ** The operators and the conditional blocks at work *)

Example arithmetic_chain :
  buildBinaryExpression (Raw (VNum 1%float))
    [("+", Raw (VNum 2%float)); ("*", Raw (VNum 4%float));
     ("<", Raw (VNum 13%float))]
  = Ret (Raw (VBool true)).
Proof. reflexivity. Qed.

Example remainder_has_the_sign_of_the_dividend :
  buildBinaryExpression (Raw (VNum (-5)%float)) [("%", Raw (VNum 3%float))]
  = Ret (Raw (VNum (-2)%float))
  /\ buildBinaryExpression (Raw (VNum 5.5%float)) [("%", Raw (VNum 2%float))]
     = Ret (Raw (VNum 1.5%float)).
Proof. split; reflexivity. Qed.

Example numbers_only_for_comparison :
  buildBinaryExpression (Raw (VStr "a")) [("<", Raw (VNum 1%float))]
  = Ret (errorResult
           (Error TemplateStringError
              "Both terms need to be numbers for < operator (got string and number)."
              (operandDetail (VStr "a") (VNum 1%float) "<") None)).
Proof. reflexivity. Qed.

Example if_else_endif :
  resolveParts
    [literal "a"; blockClause "if" (VBool true); literal "b";
     blockClause "else" VUndefined; literal "c";
     blockClause "endif" VUndefined; literal "d"]
  = Ret (VStr "abd").
Proof. reflexivity. Qed.

Example nested_if_in_untaken_branch :
  resolveParts
    [literal "a"; blockClause "if" (VBool false); literal "b";
     blockClause "if" (VBool true); literal "x"; blockClause "endif" VUndefined;
     blockClause "else" VUndefined; literal "c";
     blockClause "endif" VUndefined; Raw VNull]
  = Ret (VStr "acnull").
Proof. reflexivity. Qed.

Example missing_endif :
  resolveParts [literal "a"; blockClause "if" (VBool true)]
  = Throw (Error TemplateStringError
             "Invalid template string (template): Missing ${endif} after ${if ...} block."
             []
             (Some (Error TemplateStringError
                      "Missing ${endif} after ${if ...} block." [] None))).
Proof. reflexivity. Qed.

Example single_value_keeps_its_type :
  resolveParts [Raw (VArr (Some 0) [VNum 1%float])]
  = Ret (VArr (Some 0) [VNum 1%float]).
Proof. reflexivity. Qed.

(** ** Undefined operands *)

(** C1, as stated, fails: with an operand that resolves to undefined the
    operator does give an error result, but the error is a
    [TemplateStringError], whose type is [template-string] and not the
    missing-key type.  Here [1 == ${var.a}] with [var.a] not found. *)
Lemma undefined_operand_error_is_template_string :
  buildBinaryExpression (Raw (VNum 1%float))
    [("==", missingKey "Could not find key a under var.")]
  = Ret (errorResult
           (Error TemplateStringError "Could not find key a under var."
              (operandDetail (VNum 1%float) VUndefined "==") None))
  /\ errorType TemplateStringError = Some "template-string"
  /\ String.eqb "template-string" missingKeyExceptionType = false.
Proof. repeat split. Qed.

(** C1 (amended): whatever the operator, when neither operand result
    carries an error and one of them resolves to undefined, the operator
    yields an error result built from a [TemplateStringError] (type
    [template-string], which is not the missing-key type); its message joins
    the operands' resolution messages and defaults to "Could not resolve one
    or more keys.".  Once such a result is the first error among the parsed
    clauses, [resolveTemplateString] throws a [TemplateStringError] that
    wraps it.  Operand results are clauses or defined values here (reading
    the message off a bare null or undefined is left aside). *)
Theorem undefined_operand_fails_with_template_string_error
    head tail leftRes operator rightRes ml mr :
  buildBinaryExpression head tail = Ret leftRes ->
  hasError leftRes = false ->
  hasError rightRes = false ->
  getValue leftRes = VUndefined \/ getValue rightRes = VUndefined ->
  messageOf leftRes = Ret ml ->
  messageOf rightRes = Ret mr ->
  exists e,
    e = Error TemplateStringError
          (orElse (join " " (filterBoolean [ml; mr]))
                  "Could not resolve one or more keys.")
          (operandDetail (getValue leftRes) (getValue rightRes) operator) None
    /\ buildBinaryExpression head (tail ++ [(operator, rightRes)])
       = Ret (errorResult e)
    /\ errorType (errorCls e) = Some "template-string"
    /\ errorType (errorCls e) <> Some missingKeyExceptionType
    /\ forall (ConfigContext : Type) parse numberToString truncate
              str (context : ConfigContext) opts parsed,
         str <> "" ->
         parse str context opts = Ret parsed ->
         firstError (map toClause parsed) = Some e ->
         exists msg,
           resolveTemplateString ConfigContext parse numberToString truncate
             str context opts
           = Throw (Error TemplateStringError msg [] (Some e)).
Proof.
  intros Hchain Hl Hr Hundef Hml Hmr. eexists. split; [reflexivity|].
  split; [|split; [reflexivity|split; [discriminate|]]].
  - rewrite (buildBinaryExpression_snoc _ _ _ _ _ Hchain).
    unfold binaryStep. simpl. rewrite Hl, Hr.
    assert (isUndefined (getValue leftRes) || isUndefined (getValue rightRes)
            = true) as ->.
    { destruct Hundef as [-> | ->]; simpl; [done | by rewrite orb_true_r]. }
    by rewrite Hml, Hmr.
  - intros. by eapply resolveTemplateString_error_result.
Qed.

Lemma undefined_operand_fails_with_template_string_error_witness :
  buildBinaryExpression (Raw (VNum 2%float)) [] = Ret (Raw (VNum 2%float))
  /\ exists e,
    e = Error TemplateStringError "Could not find key a under var."
          (operandDetail (VNum 2%float) VUndefined "<") None
    /\ buildBinaryExpression (Raw (VNum 2%float))
         [("<", missingKey "Could not find key a under var.")]
       = Ret (errorResult e)
    /\ errorType (errorCls e) = Some "template-string".
Proof.
  split; [reflexivity|].
  destruct (undefined_operand_fails_with_template_string_error
              (Raw (VNum 2%float)) [] (Raw (VNum 2%float)) "<"
              (missingKey "Could not find key a under var.")
              None (Some "Could not find key a under var.")
              eq_refl eq_refl eq_refl (or_intror eq_refl) eq_refl eq_refl)
    as (e & He & Hres & Hty & _).
  exists e. repeat split; assumption.
Defined.

(** ** Equality operators *)

(** C2, as stated, fails: comparing two arrays, or an array with a string,
    is no error; the operator answers by identity. *)
Lemma equality_of_non_primitives_does_not_fail :
  isPrimitive (VArr None [VNum 1%float]) = false
  /\ buildBinaryExpression (Raw (VArr None [VNum 1%float]))
       [("==", Raw (VArr None [VNum 1%float]))]
     = Ret (Raw (VBool false))
  /\ buildBinaryExpression (Raw (VArr (Some 0) [VNum 1%float]))
       [("==", Raw (VArr (Some 0) [VNum 1%float]))]
     = Ret (Raw (VBool true))
  /\ buildBinaryExpression (Raw (VArr (Some 0) [])) [("!=", Raw (VStr "a"))]
     = Ret (Raw (VBool true)).
Proof. repeat split. Qed.

Lemma strictEquals_primitive l r :
  isPrimitive l = true -> isPrimitive r = true ->
  strictEquals l r = true <-> primitiveEqual l r.
Proof.
  destruct l, r; simpl; intros; try discriminate; try tauto;
    try (split; [discriminate | contradiction]).
  - destruct b, b0; simpl; split; congruence.
  - apply String.eqb_eq.
Qed.

Lemma sameRef_true r1 r2 :
  sameRef r1 r2 = true -> exists ref, r1 = Some ref /\ r2 = Some ref.
Proof.
  destruct r1 as [a|], r2 as [b|]; simpl; try discriminate.
  intros H%Nat.eqb_eq. subst. eauto.
Qed.

(** C2 (amended): with both operands defined, [==] and [!=] never fail, whatever the operands are.  They answer with the
    language's strict equality and its negation: on primitives that is
    equality of the values; as soon as one operand is an array or an object
    the answer is true only for one and the same object. *)
Theorem equality_operators_are_strict_equality
    head tail leftRes rightRes :
  buildBinaryExpression head tail = Ret leftRes ->
  operandDefined leftRes ->
  operandDefined rightRes ->
  buildBinaryExpression head (tail ++ [("==", rightRes)])
  = Ret (Raw (VBool (strictEquals (getValue leftRes) (getValue rightRes))))
  /\ buildBinaryExpression head (tail ++ [("!=", rightRes)])
     = Ret (Raw (VBool (negb (strictEquals (getValue leftRes)
                                           (getValue rightRes)))))
  /\ (isPrimitive (getValue leftRes) = true ->
      isPrimitive (getValue rightRes) = true ->
      strictEquals (getValue leftRes) (getValue rightRes) = true
      <-> primitiveEqual (getValue leftRes) (getValue rightRes))
  /\ (isPrimitive (getValue leftRes) = false
      \/ isPrimitive (getValue rightRes) = false ->
      strictEquals (getValue leftRes) (getValue rightRes) = true ->
      exists ref,
        (exists a b, getValue leftRes = VArr (Some ref) a
                     /\ getValue rightRes = VArr (Some ref) b)
        \/ (exists a b, getValue leftRes = VObj (Some ref) a
                        /\ getValue rightRes = VObj (Some ref) b)).
Proof.
  intros Hchain [Hl Hdl] [Hr Hdr].
  assert (isUndefined (getValue leftRes) || isUndefined (getValue rightRes)
          = false) as Hdef.
  { destruct (getValue leftRes), (getValue rightRes); simpl; congruence. }
  repeat split.
  - rewrite (buildBinaryExpression_snoc _ _ _ _ _ Hchain).
    unfold binaryStep. simpl. by rewrite Hl, Hr, Hdef.
  - rewrite (buildBinaryExpression_snoc _ _ _ _ _ Hchain).
    unfold binaryStep. simpl. by rewrite Hl, Hr, Hdef.
  - by apply strictEquals_primitive.
  - by apply strictEquals_primitive.
  - intros Hnp Heq.
    destruct (getValue leftRes) as [| |bl|nl|sl|r1 xs|r1 xs] eqn:El,
             (getValue rightRes) as [| |br|nr|sr|r2 ys|r2 ys] eqn:Er;
      simpl in *; try discriminate; try (destruct Hnp; discriminate).
    + destruct (sameRef_true _ _ Heq) as (ref & -> & ->).
      exists ref. left. eauto.
    + destruct (sameRef_true _ _ Heq) as (ref & -> & ->).
      exists ref. right. eauto.
Qed.

Lemma equality_operators_are_strict_equality_witness :
  buildBinaryExpression (Raw (VStr "a")) [] = Ret (Raw (VStr "a"))
  /\ buildBinaryExpression (Raw (VStr "a")) ([] ++ [("==", Raw (VStr "a"))])
     = Ret (Raw (VBool (strictEquals (VStr "a") (VStr "a"))))
  /\ strictEquals (VStr "a") (VStr "a") = true.
Proof.
  split; [reflexivity|].
  destruct (equality_operators_are_strict_equality
              (Raw (VStr "a")) [] (Raw (VStr "a")) (Raw (VStr "a"))
              eq_refl) as (Heq & _); [by split..|].
  split; [exact Heq | reflexivity].
Defined.

(** ** The + operator *)

(** C3: with both operands defined, [+] adds two numbers, concatenates two arrays into a new array, left elements first,
    and for every other pair of operands yields the error result that names
    the two types. *)
Theorem plus_operator_adds_or_concatenates head tail leftRes rightRes :
  buildBinaryExpression head tail = Ret leftRes ->
  operandDefined leftRes ->
  operandDefined rightRes ->
  (forall a b,
      getValue leftRes = VNum a -> getValue rightRes = VNum b ->
      buildBinaryExpression head (tail ++ [("+", rightRes)])
      = Ret (Raw (VNum (PrimFloat.add a b))))
  /\ (forall ra la rb lb,
      getValue leftRes = VArr ra la -> getValue rightRes = VArr rb lb ->
      buildBinaryExpression head (tail ++ [("+", rightRes)])
      = Ret (Raw (VArr None (la ++ lb))))
  /\ (isNumber (getValue leftRes) && isNumber (getValue rightRes) = false ->
      isArray (getValue leftRes) && isArray (getValue rightRes) = false ->
      buildBinaryExpression head (tail ++ [("+", rightRes)])
      = Ret (errorResult
               (Error TemplateStringError
                  ("Both terms need to be either arrays or numbers for + operator (got "
                     ++ typeOf (getValue leftRes) ++ " and "
                     ++ typeOf (getValue rightRes) ++ ").")
                  (operandDetail (getValue leftRes) (getValue rightRes) "+")
                  None))).
Proof.
  intros Hchain [Hl Hdl] [Hr Hdr].
  rewrite (buildBinaryExpression_snoc _ _ _ _ _ Hchain).
  unfold binaryStep. simpl. rewrite Hl, Hr.
  destruct (getValue leftRes) as [| |bl|nl|sl|r1 xs|r1 xs] eqn:El; try done;
    destruct (getValue rightRes) as [| |br|nr|sr|r2 ys|r2 ys] eqn:Er; try done;
    simpl; repeat split; intros; simplify_eq; try done.
Qed.

Lemma plus_operator_adds_or_concatenates_witness :
  buildBinaryExpression (Raw (VNum 1%float)) [("*", Raw (VNum 2%float))]
  = Ret (Raw (VNum 2%float))
  /\ buildBinaryExpression (Raw (VNum 1%float))
       ([("*", Raw (VNum 2%float))] ++ [("+", Raw (VNum 3%float))])
     = Ret (Raw (VNum (PrimFloat.add 2 3))).
Proof.
  split; [reflexivity|].
  destruct (plus_operator_adds_or_concatenates
              (Raw (VNum 1%float)) [("*", Raw (VNum 2%float))]
              (Raw (VNum 2%float)) (Raw (VNum 3%float))
              eq_refl) as (Hnum & _); [by split..|].
  exact (Hnum _ _ eq_refl eq_refl).
Defined.

Example plus_concatenates_arrays :
  buildBinaryExpression (Raw (VArr (Some 0) [VStr "a"]))
    [("+", Raw (VArr (Some 1) [VStr "b"; VStr "c"]))]
  = Ret (Raw (VArr None [VStr "a"; VStr "b"; VStr "c"])).
Proof. reflexivity. Qed.

Example plus_rejects_strings :
  buildBinaryExpression (Raw (VStr "a")) [("+", Raw (VNum 1%float))]
  = Ret (errorResult
           (Error TemplateStringError
              "Both terms need to be either arrays or numbers for + operator (got string and number)."
              (operandDetail (VStr "a") (VNum 1%float) "+") None)).
Proof. reflexivity. Qed.

(** ** Logical operators *)

(** An operand result that carries an error is what a logical operator
    returns, the left one first, whatever the truthiness of the left
    operand. *)
Lemma logicalStep_left_error leftRes element :
  hasError leftRes = true -> logicalStep leftRes element = Ret leftRes.
Proof. intros H. unfold logicalStep. by rewrite H. Qed.

Lemma logicalStep_right_error leftRes operator rightRes :
  hasError leftRes = false -> hasError rightRes = true ->
  logicalStep leftRes (operator, rightRes) = Ret rightRes.
Proof. intros Hl Hr. unfold logicalStep. simpl. by rewrite Hl, Hr. Qed.

(** C4, as stated, fails: in [false && (1 - "x")] the left operand is
    falsy, yet what comes back is the error result of the right operand,
    not the left operand; likewise [||] with a truthy left operand. *)
Lemma logical_operator_returns_failed_right_operand :
  exists failed,
    buildBinaryExpression (Raw (VNum 1%float)) [("-", Raw (VStr "x"))]
    = Ret failed
    /\ hasError failed = true
    /\ truthy (VBool false) = false
    /\ buildLogicalExpression (Raw (VBool false)) [("&&", failed)] = Ret failed
    /\ truthy (VStr "a") = true
    /\ buildLogicalExpression (Raw (VStr "a")) [("||", failed)] = Ret failed.
Proof. eexists. repeat split. Qed.

(** C4 (amended): an operand result that carries an error is what a
    logical operator returns, the left one first.  When neither does, [&&]
    returns the left operand when its value is falsy and the right operand
    otherwise, [||] returns the left operand when its value is truthy and
    the right operand otherwise.  What is returned is the operand's own
    result, so its value is the operand's value and no boolean made from
    it; in particular [a || default] is [default] when [a] is falsy. *)
Theorem logical_operators_return_raw_operand
    head tail leftRes operator rightRes :
  buildLogicalExpression head tail = Ret leftRes ->
  operator = "&&" \/ operator = "||" ->
  (hasError leftRes = true ->
   buildLogicalExpression head (tail ++ [(operator, rightRes)]) = Ret leftRes)
  /\ (hasError leftRes = false -> hasError rightRes = true ->
      buildLogicalExpression head (tail ++ [(operator, rightRes)])
      = Ret rightRes)
  /\ (hasError leftRes = false -> hasError rightRes = false ->
      buildLogicalExpression head (tail ++ [("&&", rightRes)])
      = Ret (if truthy (getValue leftRes) then rightRes else leftRes)
      /\ buildLogicalExpression head (tail ++ [("||", rightRes)])
         = Ret (if truthy (getValue leftRes) then leftRes else rightRes)
      /\ (exists out,
            buildLogicalExpression head (tail ++ [("&&", rightRes)]) = Ret out
            /\ getValue out = if truthy (getValue leftRes)
                              then getValue rightRes else getValue leftRes)
      /\ (exists out,
            buildLogicalExpression head (tail ++ [("||", rightRes)]) = Ret out
            /\ getValue out = if truthy (getValue leftRes)
                              then getValue leftRes else getValue rightRes)
      /\ (truthy (getValue leftRes) = false ->
          buildLogicalExpression head (tail ++ [("||", rightRes)])
          = Ret rightRes)).
Proof.
  intros Hchain Hop.
  rewrite !(buildLogicalExpression_snoc _ _ _ _ _ Hchain).
  split; [|split].
  - apply logicalStep_left_error.
  - apply logicalStep_right_error.
  - intros Hl Hr. unfold logicalStep. simpl. rewrite Hl, Hr.
    destruct (truthy (getValue leftRes)); simpl;
      (split; [reflexivity|]); (split; [reflexivity|]);
      (split; [eexists; split; reflexivity|]);
      (split; [eexists; split; reflexivity|]);
      intros; done.
Qed.

Lemma logical_operators_return_raw_operand_witness :
  buildLogicalExpression (Raw (VStr "")) [] = Ret (Raw (VStr ""))
  /\ buildLogicalExpression (Raw (VStr "")) ([] ++ [("||", Raw (VStr "default"))])
     = Ret (Raw (VStr "default"))
  /\ buildLogicalExpression (Raw (VStr "")) ([] ++ [("&&", Raw (VStr "default"))])
     = Ret (Raw (VStr "")).
Proof.
  split; [reflexivity|].
  destruct (logical_operators_return_raw_operand
              (Raw (VStr "")) [] (Raw (VStr "")) "||" (Raw (VStr "default"))
              eq_refl (or_intror eq_refl)) as (_ & _ & Hvalues).
  destruct (Hvalues eq_refl eq_refl) as (Hand & Hor & _).
  split; [exact Hor | exact Hand].
Defined.

Example or_keeps_a_truthy_number :
  buildLogicalExpression (Raw (VNum 3%float)) [("||", Raw (VStr "default"))]
  = Ret (Raw (VNum 3%float)).
Proof. reflexivity. Qed.

Example or_default_for_missing_key :
  buildLogicalExpression (missingKey "Could not find key a under var.")
    [("||", Raw (VStr "default"))]
  = Ret (Raw (VStr "default")).
Proof. reflexivity. Qed.

(** ** Plain objects *)

Lemma getProp_replaceProp k k' v o :
  getProp k' (replaceProp k v o)
  = if String.eqb k' k then (if hasProp k o then Some v else None)
    else getProp k' o.
Proof.
  unfold hasProp. induction o as [|[k0 v0] o IH]; simpl.
  - by destruct (String.eqb k' k).
  - destruct (String.eqb_spec k k0) as [->|Hne]; simpl.
    + by destruct (String.eqb_spec k' k0).
    + rewrite IH. destruct (String.eqb_spec k' k) as [->|Hne'].
      * by destruct (String.eqb_spec k k0).
      * reflexivity.
Qed.

Lemma getProp_insertIndexed n k k' v o :
  arrayIndex k = Some n ->
  getProp k' (insertIndexed n k v o)
  = if String.eqb k' k then Some v else getProp k' o.
Proof.
  intros Hk. induction o as [|[k0 v0] o IH]; simpl.
  - reflexivity.
  - destruct (arrayIndex k0) as [n0|] eqn:Hk0; simpl; [|reflexivity].
    destruct (N.ltb_spec n0 n) as [Hlt|Hge]; simpl; [|reflexivity].
    rewrite IH. destruct (String.eqb_spec k' k) as [->|Hne]; [|reflexivity].
    destruct (String.eqb_spec k k0) as [->|]; [|reflexivity].
    rewrite Hk in Hk0. injection Hk0 as ->. lia.
Qed.

Lemma getProp_snoc k k' v o :
  getProp k' (o ++ [(k, v)])
  = match getProp k' o with
    | Some x => Some x
    | None => if String.eqb k' k then Some v else None
    end.
Proof.
  induction o as [|[k0 v0] o IH]; simpl; [reflexivity|].
  by destruct (String.eqb k' k0).
Qed.

(** Reading a property after a write: the written one has the new value,
    the others are untouched. *)
Lemma getProp_setProp k k' v o :
  getProp k' (setProp k v o)
  = if String.eqb k' k then Some v else getProp k' o.
Proof.
  unfold setProp. destruct (hasProp k o) eqn:Hhas.
  - by rewrite getProp_replaceProp, Hhas.
  - destruct (arrayIndex k) as [n|] eqn:Hk.
    + by apply getProp_insertIndexed.
    + rewrite getProp_snoc. destruct (String.eqb_spec k' k) as [->|Hne].
      * unfold hasProp in Hhas. by destruct (getProp k o).
      * by destruct (getProp k' o).
Qed.

Lemma getProp_None_not_in k o : getProp k o = None <-> k ∉ o.*1.
Proof.
  induction o as [|[k0 v0] o IH]; simpl.
  - split; [intros _; apply not_elem_of_nil | done].
  - rewrite not_elem_of_cons. destruct (String.eqb_spec k k0) as [->|Hne].
    + split; [discriminate | intros [? _]; done].
    + rewrite IH. tauto.
Qed.

(** Spreading an object over another: its properties win, the others are
    kept. *)
Lemma getProp_spread k output m :
  NoDup m.*1 ->
  getProp k (spread output m)
  = match getProp k m with
    | Some x => Some x
    | None => getProp k output
    end.
Proof.
  unfold spread. revert output.
  induction m as [|[k0 v0] m IH]; intros output Hnd; simpl; [reflexivity|].
  apply NoDup_cons in Hnd as [Hnotin Hnd].
  rewrite (IH _ Hnd), getProp_setProp. simpl.
  destruct (String.eqb_spec k k0) as [->|Hne]; [|reflexivity].
  apply getProp_None_not_in in Hnotin. simpl in Hnotin. by rewrite Hnotin.
Qed.

(** Reading a property after an assignment on the object under
    construction: as after a write, except that an assignment that goes to
    the setter of [__proto__] makes no own property. *)
Lemma getProp_assign k k' v o :
  getProp k' (assign k v o).1
  = if String.eqb k' k
    then (if reachesSetter k o then None else Some v)
    else getProp k' o.1.
Proof.
  unfold assign. destruct (reachesSetter k o) eqn:Hsetter.
  - assert (getProp k' o.1
            = if String.eqb k' k then None else getProp k' o.1) as Hown.
    { destruct (String.eqb_spec k' k) as [->|_]; [|reflexivity].
      unfold reachesSetter in Hsetter.
      apply andb_true_iff in Hsetter as [Hsetter _].
      apply andb_true_iff in Hsetter as [_ Hhas]. unfold hasProp in Hhas.
      by destruct (getProp k o.1). }
    by destruct v.
  - apply getProp_setProp.
Qed.

(** An assignment to another key leaves the way to the setter as it is. *)
Lemma reachesSetter_assign k k0 v o :
  k <> k0 -> reachesSetter k (assign k0 v o) = reachesSetter k o.
Proof.
  intros Hne.
  destruct (String.eqb_spec k protoKey) as [->|Hk].
  - assert (reachesSetter k0 o = false) as Hother.
    { unfold reachesSetter. by destruct (String.eqb_spec k0 protoKey). }
    unfold assign. rewrite Hother. unfold reachesSetter, hasProp. simpl.
    rewrite getProp_setProp. by destruct (String.eqb_spec protoKey k0).
  - unfold reachesSetter. by destruct (String.eqb_spec k protoKey).
Qed.



(** ** Recursive resolution and the $merge key *)

Section MergeKey.
Variable ConfigContext : Type.
Variable parse : string -> ConfigContext -> ContextResolveOpts
                 -> outcome (list res).
Variable numberToString : float -> string.
Variable truncate : string -> nat -> string.
Variable context : ConfigContext.
Variable opts : ContextResolveOpts.

Abbreviation resolveAll :=
  (fun v => resolveTemplateStrings ConfigContext parse numberToString truncate
              v context opts).
Abbreviation resolveTracked :=
  (fun v => resolveWithPrototype ConfigContext parse numberToString truncate
              v context opts).

Lemma resolveTemplateStrings_object ref entries :
  resolveAll (VObj ref entries)
  = (output <- resolveEntries resolveTracked opts (VObj ref entries) entries
                 ([], DefaultPrototype) ;;
     Ret (VObj None output.1)).
Proof.
  unfold resolveTemplateStrings. simpl. by destruct (resolveEntries _ _ _ _ _).
Qed.





End MergeKey.


(** A literal key [__proto__] makes no property of the result when the
    output has none of that name: the assignment goes to the inherited
    setter. *)
Example proto_key_is_not_kept :
  resolveLiteral (VObj None [("__proto__", VStr "1"); ("a", VStr "2")])
  = Ret (VObj None [("a", VStr "2")])
  /\ resolveLiteral
       (VObj None [("$merge", VObj None [("a", VStr "1")]);
                   ("__proto__", VStr "2")])
     = Ret (VObj None [("a", VStr "1")]).
Proof. split; reflexivity. Qed.

(** An object under [__proto__] becomes the prototype of the result, which
    is no mapping any more when it stands under a [$merge] key. *)
Example replaced_prototype_is_no_mapping :
  resolveLiteral
    (VObj None
       [("$merge",
         VObj None [("__proto__", VObj None [("x", VStr "1")]);
                    ("a", VStr "2")])])
  = Throw (Error ConfigurationError
             "Value of $merge key must be (or resolve to) a mapping object (got object)"
             [("value",
               VObj None
                 [("$merge",
                   VObj None [("__proto__", VObj None [("x", VStr "1")]);
                              ("a", VStr "2")])]);
              ("resolved", VObj None [("a", VStr "2")])] None)
  /\ resolveLiteral
       (VObj None
          [("$merge", VObj None [("__proto__", VNull); ("a", VStr "2")])])
     = Ret (VObj None [("a", VStr "2")]).
Proof. split; reflexivity. Qed.

(** Nested [$merge] keys compose: the inner object is resolved, spread
    included, before the outer spread takes place, and the literal [c] that
    follows overrides the value the spread produced. *)
Example nested_merge_keys_compose :
  resolveLiteral
    (VObj None
       [("a", VStr "1");
        ("$merge",
         VObj None [("$merge", VObj None [("a", VStr "2"); ("c", VStr "3")]);
                    ("b", VStr "4")]);
        ("c", VStr "5")])
  = Ret (VObj None [("a", VStr "2"); ("c", VStr "5"); ("b", VStr "4")]).
Proof. reflexivity. Qed.

(** A key that precedes the [$merge] key is overridden by the spread. *)
Example merge_overrides_earlier_key :
  resolveLiteral
    (VObj None [("a", VStr "1"); ("$merge", VObj None [("a", VStr "2")])])
  = Ret (VObj None [("a", VStr "2")]).
Proof. reflexivity. Qed.

Example merge_of_a_sequence_fails :
  resolveLiteral (VObj None [("$merge", VArr None [VStr "a"])])
  = Throw (Error ConfigurationError
             "Value of $merge key must be (or resolve to) a mapping object (got object)"
             [("value", VObj None [("$merge", VArr None [VStr "a"])]);
              ("resolved", VArr None [VStr "a"])] None).
Proof. reflexivity. Qed.

Example merge_of_a_sequence_kept_when_partial :
  resolveTemplateStrings unit literalParser noNumbers noTruncation
    (VObj None [("$merge", VArr None [VStr "a"])]) tt
    {| allowPartial := true; unescape := false |}
  = Ret (VObj None [("$merge", VArr None [VStr "a"])]).
Proof. reflexivity. Qed.

End TemplateStringFacts.

(* ====================================================================== *)
(** * The config graph: dependants                                         *)
(* ====================================================================== *)

Module ConfigGraphFacts.
Import ConfigGraphModel.

Lemma dependsOnOneOf_true a on :
  dependsOnOneOf a on = true <-> exists r, r ∈ dependencies a /\ r ∈ on.
Proof.
  unfold dependsOnOneOf. by rewrite bool_decide_eq_true, Exists_exists.
Qed.

Lemma elem_of_directDependants g on x :
  x ∈ directDependants g on
  <-> exists a r, a ∈ actions g /\ reference a = x
                  /\ r ∈ dependencies a /\ r ∈ on.
Proof.
  unfold directDependants.
  rewrite elem_of_list_to_set, list_elem_of_fmap. split.
  - intros (a & -> & Ha). apply list_elem_of_filter in Ha as [Hex Ha].
    apply Is_true_true, dependsOnOneOf_true in Hex as (r & Hr & Hon). eauto 10.
  - intros (a & r & Ha & <- & Hr & Hon). exists a. split; [done|].
    apply list_elem_of_filter. split; [|done].
    apply Is_true_true, dependsOnOneOf_true. eauto.
Qed.

Lemma directDependants_nodes g on : directDependants g on ⊆ nodes g.
Proof.
  intros x (a & r & Ha & <- & _)%elem_of_directDependants.
  apply elem_of_list_to_set, list_elem_of_fmap. eauto.
Qed.

Lemma size_list_to_set_le (l : list ActionRef) :
  size (list_to_set l : gset ActionRef) <= length l.
Proof.
  induction l as [|x l IH].
  - by rewrite list_to_set_nil, size_empty.
  - rewrite list_to_set_cons, size_union_alt, size_singleton. simpl.
    pose proof (subseteq_size (list_to_set l ∖ {[x]}) (list_to_set l : gset ActionRef)
                  ltac:(set_solver)).
    lia.
Qed.

Lemma size_nodes g : size (nodes g) <= length (actions g).
Proof.
  unfold nodes. etrans; [apply size_list_to_set_le|]. by rewrite length_fmap.
Qed.

Lemma closure_includes g n found : found ⊆ closure g n found.
Proof.
  revert found. induction n as [|n IH]; intros found; simpl; [done|].
  etrans; [|apply IH]. set_solver.
Qed.

Lemma closure_nodes g n found : found ⊆ nodes g -> closure g n found ⊆ nodes g.
Proof.
  revert found. induction n as [|n IH]; intros found Hf; simpl; [done|].
  apply IH. pose proof (directDependants_nodes g found). set_solver.
Qed.

Lemma closure_of_closed g n found :
  directDependants g found ⊆ found -> closure g n found = found.
Proof.
  intros Hc. induction n as [|n IH]; simpl; [done|].
  by replace (found ∪ directDependants g found) with found by set_solver.
Qed.

(** After [n] rounds the set is closed under taking direct dependants, or
    it has grown by at least [n] references. *)
Lemma closure_closed_or_grown g n found :
  directDependants g (closure g n found) ⊆ closure g n found
  \/ size found + n <= size (closure g n found).
Proof.
  revert found. induction n as [|n IH]; intros found; simpl.
  - right. lia.
  - destruct (decide (directDependants g found ⊆ found)) as [Hc|Hnc].
    + left. replace (found ∪ directDependants g found) with found by set_solver.
      by rewrite closure_of_closed.
    + destruct (IH (found ∪ directDependants g found)) as [?|Hsize]; [by left|].
      right.
      assert (size found < size (found ∪ directDependants g found)).
      { apply subset_size. set_solver. }
      lia.
Qed.

Lemma dependantRefs_closed g ref :
  directDependants g (dependantRefs g ref) ⊆ dependantRefs g ref.
Proof.
  unfold dependantRefs.
  destruct (closure_closed_or_grown g (length (actions g))
              (directDependants g {[ref]})) as [Hc|Hsize]; [done|].
  pose proof (closure_nodes g (length (actions g)) _
                (directDependants_nodes g {[ref]})) as Hn.
  apply subseteq_size in Hn. pose proof (size_nodes g).
  assert (size (directDependants g {[ref]}) = 0) as Hempty by lia.
  apply size_empty_inv in Hempty. apply leibniz_equiv in Hempty.
  rewrite Hempty.
  assert (directDependants g ∅ ⊆ (∅ : gset ActionRef)) as H0.
  { intros x (a & r & _ & _ & _ & Hr)%elem_of_directDependants. set_solver. }
  by rewrite closure_of_closed.
Qed.

(** The closure is exact: it holds the references from which a chain of
    dependency edges leads to [ref], and nothing else. *)
Lemma elem_of_dependantRefs g ref x :
  x ∈ dependantRefs g ref <-> dependsOn g x ref.
Proof.
  split.
  - unfold dependantRefs.
    assert (forall n found,
               (forall y, y ∈ found -> dependsOn g y ref) ->
               forall y, y ∈ closure g n found -> dependsOn g y ref) as Hsound.
    { induction n as [|n IH]; intros found Hf y; simpl; [apply Hf|].
      apply IH. intros z [Hz|Hz]%elem_of_union; [by apply Hf|].
      apply elem_of_directDependants in Hz as (a & r & Ha & <- & Hr & Hon).
      eapply dependsThrough; eauto. }
    apply Hsound.
    intros y (a & r & Ha & <- & Hr & Hon)%elem_of_directDependants.
    apply elem_of_singleton in Hon as ->. by apply dependsDirectly.
  - induction 1 as [a ref Ha Hr | a via ref Ha Hvia _ IH].
    + unfold dependantRefs. apply closure_includes.
      apply elem_of_directDependants. exists a, ref. set_solver.
    + apply dependantRefs_closed.
      apply elem_of_directDependants. eauto 10.
Qed.

(** Without [recursive], the dependants are the actions with an edge to
    [ref]. *)
Lemma elem_of_getDependants_direct g ref f a :
  a ∈ getDependants g ref false f
  <-> a ∈ actions g /\ ref ∈ dependencies a /\ f a = true.
Proof.
  unfold getDependants. rewrite list_elem_of_filter, andb_True, !Is_true_true.
  rewrite dependsOnOneOf_true. split.
  - intros [[(r & Hr & ->%elem_of_singleton) Hf] Ha]. done.
  - intros (Ha & Hr & Hf). repeat split; try done. exists ref. set_solver.
Qed.

(** With [recursive], they are the actions with an edge to [ref] or to an
    action from which a chain of edges leads to [ref]. *)
Lemma elem_of_getDependants_recursive g ref f a :
  a ∈ getDependants g ref true f
  <-> a ∈ actions g
      /\ (exists r, r ∈ dependencies a /\ (r = ref \/ dependsOn g r ref))
      /\ f a = true.
Proof.
  unfold getDependants. rewrite list_elem_of_filter, andb_True, !Is_true_true.
  rewrite dependsOnOneOf_true. split.
  - intros [[(r & Hr & Hon) Hf] Ha]. repeat split; try done. exists r.
    split; [done|].
    apply elem_of_union in Hon as [->%elem_of_singleton|Hon]; [by left|].
    right. by apply elem_of_dependantRefs.
  - intros (Ha & (r & Hr & Hon) & Hf). repeat split; try done. exists r.
    split; [done|]. apply elem_of_union.
    destruct Hon as [->|Hon]; [left; set_solver|].
    right. by apply elem_of_dependantRefs.
Qed.

(** Every recursive dependant depends on [ref] in the sense of
    [dependsOn], and whatever depends on [ref] has a recursive dependant
    under its reference. *)
Lemma getDependants_recursive_dependsOn g ref x :
  (exists a, a ∈ getDependants g ref true (fun _ => true) /\ reference a = x)
  <-> dependsOn g x ref.
Proof.
  split.
  - intros (a & (Ha & (r & Hr & [->|Hon]) & _)%elem_of_getDependants_recursive
            & <-).
    + by apply dependsDirectly.
    + by eapply dependsThrough.
  - intros H. inversion H as [a ref' Ha Hr | a via ref' Ha Hvia Hon]; subst.
    + exists a. split; [|done].
      apply elem_of_getDependants_recursive. eauto 10.
    + exists a. split; [|done].
      apply elem_of_getDependants_recursive. eauto 10.
Qed.





End ConfigGraphFacts.

(* ====================================================================== *)
(** * Deleting deploys                                                     *)
(* ====================================================================== *)

Module DeleteDeployFacts.
Import JS ConfigGraphModel ConfigGraphFacts DeleteDeploy.

Lemma resolveDependencies_off isDeployAction graph t :
  dependantsFirst t = false ->
  resolveDependencies isDeployAction graph t = Ret [].
Proof. intros H. unfold resolveDependencies. by rewrite H. Qed.

(** Without the helper, a task with [dependantsFirst] cannot list its
    prerequisites: [filter] throws. *)
Lemma resolveDependencies_without_helper graph t :
  dependantsFirst t = true ->
  resolveDependencies None graph t = Throw (notAFunction "undefined").
Proof. intros H. unfold resolveDependencies. by rewrite H. Qed.

(** With a helper in place, the prerequisites of a task are the delete
    tasks of the Deploy actions that the helper accepts, that depend
    directly on the action of the task and are among the names being
    deleted, and there are some only with [dependantsFirst]. *)
Lemma elem_of_resolveDependencies helper graph t prerequisites p :
  resolveDependencies (Some helper) graph t = Ret prerequisites ->
  p ∈ prerequisites
  <-> dependantsFirst t = true
      /\ exists d,
           d ∈ actions graph /\ kind d = Deploy /\ helper d = true
           /\ (Deploy, getName t) ∈ dependencies d
           /\ name d ∈ deleteDeployNames t
           /\ p = newDeleteDeployTask d (Some (deleteDeployNames t)) (Some true).
Proof.
  unfold resolveDependencies.
  destruct (dependantsFirst t); simpl; intros [= <-].
  - rewrite list_elem_of_fmap. split.
    + intros (d & -> & Hd). split; [done|]. exists d.
      apply list_elem_of_filter in Hd as [Hdeploy%Is_true_true Hd].
      apply elem_of_getDependants_direct in Hd as (Hin & Hdep & Hf).
      apply andb_prop in Hf as [Hk%bool_decide_eq_true Hn%bool_decide_eq_true].
      done.
    + intros (_ & d & Hin & Hk & Hh & Hdep & Hn & ->). exists d.
      split; [done|]. apply list_elem_of_filter. split.
      * by apply Is_true_true.
      * apply elem_of_getDependants_direct. repeat split; try done.
        apply andb_true_intro. split; by apply bool_decide_eq_true.
  - split; [by intros ?%elem_of_nil | by intros [[=] _]].
Qed.

(** With a helper in place the prerequisites are always there. *)
Lemma resolveDependencies_returns helper graph t :
  exists prerequisites,
    resolveDependencies (Some helper) graph t = Ret prerequisites.
Proof.
  unfold resolveDependencies. destruct (dependantsFirst t); simpl; eauto.
Qed.


(** The tasks the command makes all carry the names of the actions being
    deleted and the same [dependantsFirst]. *)
Lemma deleteDeployAction_tasks
    isDeployAction deletedDeployStatuses processTasks graph names opts tasks t :
  processed (deleteDeployAction isDeployAction deletedDeployStatuses
               processTasks graph names opts) = Some tasks ->
  t ∈ tasks ->
  dependantsFirst t = dependants_first opts || with_dependants opts
  /\ deleteDeployNames t = getName <$> tasks.
Proof.
  unfold deleteDeployAction. case_bool_decide; [discriminate|].
  match goal with
  | |- context [match ?extended with Ret _ => _ | Throw _ => _ end] =>
      destruct extended as [actions|e]; simpl; [|discriminate]
  end.
  intros [= <-] (a & -> & Ha)%list_elem_of_fmap. split; [done|]. simpl.
  rewrite <- list_fmap_compose. done.
Qed.

(** C6, as stated, fails: with [b] depending on [a], [delete deploy a
    --dependants-first] schedules the one task for [a].  With the helper
    [isDeployAction] in place that task has no prerequisite, since [b] is
    not among the names being deleted, and [b] is not deleted at all,
    before or after; with the binding undefined, as actions/deploy.ts
    leaves it, listing the prerequisites of the task throws.  Either way no task of
    [b] completes before the task of [a]. *)
Lemma dependants_first_leaves_unnamed_dependant :
  processed (deleteDeployAction (Some isDeploy) (Some deletedServiceStatuses)
               noResults twoDeploys (Some ["a"]) dependantsFirstOnly)
  = Some [{| action := deployA; dependantsFirst := true;
             deleteDeployNames := ["a"] |}]
  /\ processed (deleteDeployAction None None
                  noResults twoDeploys (Some ["a"]) dependantsFirstOnly)
     = Some [{| action := deployA; dependantsFirst := true;
                deleteDeployNames := ["a"] |}]
  /\ resolveDependencies (Some isDeploy) twoDeploys
       {| action := deployA; dependantsFirst := true;
          deleteDeployNames := ["a"] |}
     = Ret []
  /\ resolveDependencies None twoDeploys
       {| action := deployA; dependantsFirst := true;
          deleteDeployNames := ["a"] |}
     = Throw (notAFunction "undefined")
  /\ (Deploy, "a") ∈ dependencies deployB.
Proof.
  split; [|split; [|split; [|split]]].
  - vm_compute. reflexivity.
  - vm_compute. reflexivity.
  - vm_compute. reflexivity.
  - vm_compute. reflexivity.
  - left.
Qed.

(** C6 (amended), with the helper [isDeployAction] in place: a task without
    [dependantsFirst] has no prerequisites; with it, its prerequisites are
    exactly the delete tasks of the Deploy actions that depend directly on
    its action and are among the names being deleted.  So when Deploy [b]
    depends on Deploy [a] and the command, run with --dependants-first (or
    --with-dependants, which implies it), deletes both, the task of [b] is a
    prerequisite of the task of [a], and in every order of completion that
    respects prerequisites it completes before the task of [a]. *)
Theorem dependants_are_deleted_first
    deletedDeployStatuses processTasks graph names opts tasks a b ta tb :
  processed (deleteDeployAction (Some isDeploy) deletedDeployStatuses
               processTasks graph names opts) = Some tasks ->
  dependants_first opts || with_dependants opts = true ->
  b ∈ actions graph ->
  kind a = Deploy ->
  kind b = Deploy ->
  reference a ∈ dependencies b ->
  ta ∈ tasks -> action ta = a ->
  tb ∈ tasks -> action tb = b ->
  (forall t, dependantsFirst t = false ->
             resolveDependencies (Some isDeploy) graph t = Ret [])
  /\ (forall t,
        dependantsFirst t = true ->
        exists prerequisites,
          resolveDependencies (Some isDeploy) graph t = Ret prerequisites
          /\ forall p,
               p ∈ prerequisites
               <-> exists d,
                     d ∈ actions graph /\ kind d = Deploy
                     /\ (Deploy, getName t) ∈ dependencies d
                     /\ name d ∈ deleteDeployNames t
                     /\ p = newDeleteDeployTask d (Some (deleteDeployNames t))
                              (Some true))
  /\ (exists prerequisites,
        resolveDependencies (Some isDeploy) graph ta = Ret prerequisites
        /\ tb ∈ prerequisites)
  /\ (forall completed i,
        respectsPrerequisites (Some isDeploy) graph completed ->
        completed !! i = Some ta ->
        exists j, j < i /\ completed !! j = Some tb).
Proof.
  intros Hrun Hopt Hb Hka Hkb Hdep Hta Ha Htb Hbb.
  destruct (deleteDeployAction_tasks _ _ _ _ _ _ _ _ Hrun Hta) as [Hdfa Hna].
  destruct (deleteDeployAction_tasks _ _ _ _ _ _ _ _ Hrun Htb) as [Hdfb Hnb].
  rewrite Hopt in Hdfa, Hdfb. simpl in Hdfa, Hdfb.
  destruct (resolveDependencies_returns isDeploy graph ta) as [pa Hpa].
  assert (tb ∈ pa) as Hpre.
  { apply (elem_of_resolveDependencies _ _ _ _ _ Hpa). split; [done|].
    exists b. repeat split; try done.
    - unfold isDeploy. by apply bool_decide_eq_true.
    - unfold getName. rewrite Ha. unfold reference in Hdep.
      by rewrite Hka in Hdep.
    - rewrite Hna. apply list_elem_of_fmap. exists tb. split; [|done].
      unfold getName. by rewrite Hbb.
    - destruct tb as [ab dfb nb]. simpl in *. unfold newDeleteDeployTask.
      simpl. by rewrite Hna, <- Hnb, Hdfb, Hbb. }
  split; [apply resolveDependencies_off|].
  split; [|split; [by exists pa|]].
  - intros t Hdf.
    destruct (resolveDependencies_returns isDeploy graph t) as [ps Hps].
    exists ps. split; [done|]. intros p.
    rewrite (elem_of_resolveDependencies _ _ _ _ _ Hps). split.
    + intros (_ & d & ? & ? & _ & ? & ? & ?). eauto 10.
    + intros (d & ? & Hk & ? & ? & ?). split; [done|]. exists d.
      repeat split; try done. unfold isDeploy. by apply bool_decide_eq_true.
  - intros completed i Hresp Hi. by eapply Hresp.
Qed.

(** The scenario itself: both deploys are named, and [b] goes first. *)
Lemma dependants_are_deleted_first_witness :
  processed (deleteDeployAction (Some isDeploy) (Some deletedServiceStatuses)
               noResults twoDeploys (Some ["a"; "b"]) dependantsFirstOnly)
  = Some [newDeleteDeployTask deployA (Some ["a"; "b"]) (Some true);
          newDeleteDeployTask deployB (Some ["a"; "b"]) (Some true)]
  /\ exists prerequisites,
       resolveDependencies (Some isDeploy) twoDeploys
         (newDeleteDeployTask deployA (Some ["a"; "b"]) (Some true))
       = Ret prerequisites
       /\ newDeleteDeployTask deployB (Some ["a"; "b"]) (Some true)
            ∈ prerequisites.
Proof.
  split; [vm_compute; reflexivity|].
  eapply (dependants_are_deleted_first (Some deletedServiceStatuses) noResults
            twoDeploys (Some ["a"; "b"]) dependantsFirstOnly _ deployA deployB).
  - vm_compute. reflexivity.
  - reflexivity.
  - right. left.
  - reflexivity.
  - reflexivity.
  - left.
  - left.
  - reflexivity.
  - right. left.
  - reflexivity.
Defined.

(** An order of completion that respects prerequisites exists for that run:
    [b], then [a]. *)
Example dependants_first_order_exists :
  respectsPrerequisites (Some isDeploy) twoDeploys
    [newDeleteDeployTask deployB (Some ["a"; "b"]) (Some true);
     newDeleteDeployTask deployA (Some ["a"; "b"]) (Some true)].
Proof.
  intros i t ps Hi Hps p Hp.
  destruct i as [|[|i]]; simpl in Hi; simplify_eq.
  - vm_compute in Hps. injection Hps as <-. by apply elem_of_nil in Hp.
  - exists 0. split; [lia|]. vm_compute in Hps. injection Hps as <-.
    by apply list_elem_of_singleton in Hp as ->.
Qed.

(** ** --with-dependants *)



(** With the two bindings undefined, as the files they are imported from
    leave them, the command throws: with --with-dependants before it makes
    a task, without it after the tasks have been processed. *)
Lemma delete_deploy_without_helpers processTasks graph names opts :
  getDeploys graph names <> [] ->
  (with_dependants opts = true ->
   deleteDeployAction None None processTasks graph names opts
   = {| logged := []; processed := None;
        result := Throw (notAFunction "undefined") |})
  /\ (with_dependants opts = false ->
      exists tasks,
        deleteDeployAction None None processTasks graph names opts
        = {| logged := []; processed := Some tasks;
             result := Throw (notAFunction "deletedDeployStatuses") |}).
Proof.
  intros Hsome. unfold deleteDeployAction.
  case_bool_decide as Hlen; [by apply nil_length_inv in Hlen|].
  split; intros ->.
  - destruct (getDeploys graph names); [done | reflexivity].
  - eexists. reflexivity.
Qed.

Example with_dependants_on_chain :
  processed (deleteDeployAction (Some isDeploy) (Some deletedServiceStatuses)
               noResults chain (Some ["a"]) withDependantsOnly)
  = Some [newDeleteDeployTask deployA (Some ["a"; "b"; "c"]) (Some true);
          newDeleteDeployTask deployB (Some ["a"; "b"; "c"]) (Some true);
          newDeleteDeployTask deployC (Some ["a"; "b"; "c"]) (Some true)].
Proof. vm_compute. reflexivity. Qed.

Example no_deploys_found :
  deleteDeployAction None None noResults chain (Some ["x"]) withDependantsOnly
  = {| logged := [Warn "No deploys found. Aborting."];
       processed := None; result := Ret [] |}.
Proof. vm_compute. reflexivity. Qed.

End DeleteDeployFacts.

(* ====================================================================== *)
(** * The Test task: short-circuit                                         *)
(* ====================================================================== *)

Module TestTaskFacts.
Import JS TestTaskModel.

Ltac run_task :=
  unfold execute, getStatus, getTestResult, process, callGetResult, callRun,
    tryCatch, andThen, await, emit, ret, throw; simpl.

Section ShortCircuit.
Variable getResultHandler : outcome (option GetTestResult).
Variable prepareRuntimeContext getActionRouter : outcome unit.
Variable runHandler : outcome GetTestResult.

Abbreviation execute :=
  (execute getResultHandler prepareRuntimeContext getActionRouter runHandler).

(** Processing calls the run handler exactly when the runtime context and
    the router have been obtained. *)
Lemma process_runs t tr :
  RunCalled ∉ tr ->
  RunCalled ∈ (process prepareRuntimeContext getActionRouter runHandler t tr).2
  <-> prepareRuntimeContext = Ret tt /\ getActionRouter = Ret tt.
Proof.
  intros Htr. run_task.
  destruct prepareRuntimeContext as [[]|?], getActionRouter as [[]|?]; simpl;
    try (split; [set_solver | by intros [? ?]]).
  split; [done|]. intros _.
  destruct runHandler as [r|?]; simpl;
    [destruct (detail r) as [[[] ?]|]; simpl|]; set_solver.
Qed.

(** C7: executing a Test task returns the stored result without calling
    the run handler exactly when [force] is unset and the stored result has
    [success = true]; with [force] set the stored result is never asked for
    and the test is run: the task is processed, and the run handler is
    called once the runtime context and the router have been obtained (it is
    not called only when one of these two steps throws, and then that error
    is what the task throws). *)
Theorem test_task_short_circuits_on_cached_success t :
  ((exists cached,
       getResultHandler = Ret (Some cached)
       /\ (execute t []).1 = Ret cached
       /\ RunCalled ∉ (execute t []).2)
   <-> (force t = false
        /\ exists cached d,
             getResultHandler = Ret (Some cached)
             /\ detail cached = Some d /\ success d = true))
  /\ (force t = true ->
      (GetResultCalled ∉ (execute t []).2)
      /\ (execute t []
          = process prepareRuntimeContext getActionRouter runHandler t [])
      /\ (RunCalled ∈ (execute t []).2
          <-> prepareRuntimeContext = Ret tt /\ getActionRouter = Ret tt)
      /\ (RunCalled ∉ (execute t []).2 ->
          exists e,
            (execute t []).1 = Throw e
            /\ (prepareRuntimeContext = Throw e
                \/ (prepareRuntimeContext = Ret tt
                    /\ getActionRouter = Throw e)))).
Proof.
  split; [split|].
  - intros (cached & Hc & Hout & Hrun). revert Hout Hrun. run_task.
    destruct (force t); simpl.
    + destruct prepareRuntimeContext as [[]|?], getActionRouter as [[]|?];
        simpl; try discriminate.
      destruct runHandler as [r|e]; simpl.
      * destruct (detail r) as [[[] ?]|]; simpl; set_solver.
      * set_solver.
    + rewrite Hc. simpl.
      destruct (detail cached) as [[[] ?]|] eqn:Hd; simpl.
      * intros _ _. split; [done|]. eauto.
      * destruct prepareRuntimeContext as [[]|?], getActionRouter as [[]|?];
          simpl; try discriminate.
        destruct runHandler as [r|e]; simpl; [|set_solver].
        destruct (detail r) as [[[] ?]|]; simpl; set_solver.
      * destruct prepareRuntimeContext as [[]|?], getActionRouter as [[]|?];
          simpl; try discriminate.
        destruct runHandler as [r|e]; simpl; [|set_solver].
        destruct (detail r) as [[[] ?]|]; simpl; set_solver.
  - intros (Hf & cached & d & Hc & Hd & Hs). exists cached.
    split; [done|]. run_task. rewrite Hf, Hc. simpl. rewrite Hd.
    destruct d as [[] ?]; [|discriminate]. simpl. split; [done|]. set_solver.
  - intros Hf.
    assert (execute t []
            = process prepareRuntimeContext getActionRouter runHandler t [])
      as Hprocess.
    { unfold TestTaskModel.execute, getStatus, getTestResult, andThen, ret.
      by rewrite Hf. }
    rewrite Hprocess. split; [|split; [done|split]].
    + run_task.
      destruct prepareRuntimeContext as [[]|?], getActionRouter as [[]|?];
        simpl; try set_solver.
      destruct runHandler as [r|?]; simpl;
        [destruct (detail r) as [[[] ?]|]; simpl|]; set_solver.
    + apply process_runs. set_solver.
    + intros Hnot.
      assert (~ (prepareRuntimeContext = Ret tt /\ getActionRouter = Ret tt))
        as Hthrown by (by rewrite <- (process_runs t []); [|set_solver]).
      revert Hthrown. run_task.
      destruct prepareRuntimeContext as [[]|e], getActionRouter as [[]|e'];
        simpl; intros Hthrown; eauto; by destruct Hthrown.
Qed.

End ShortCircuit.

Example cached_success_is_returned :
  execute (Ret (Some passed)) (Ret tt) (Ret tt) (Ret failed) (unitTest false) []
  = (Ret passed,
     [GetResultCalled; LogInfo "test.unit" "Already passed"; LogSetSuccess]).
Proof. reflexivity. Qed.

Example cached_failure_is_run_again :
  execute (Ret (Some failed)) (Ret tt) (Ret tt) (Ret passed) (unitTest false) []
  = (Ret passed,
     [GetResultCalled; LogInfo "test.unit" "Running..."; RunCalled;
      LogSetSuccess]).
Proof. reflexivity. Qed.

Example forced_test_skips_the_cache :
  execute (Ret (Some passed)) (Ret tt) (Ret tt) (Ret failed) (unitTest true) []
  = (Throw (Error TestError "1 failing" [] None),
     [LogInfo "test.unit" "Running..."; RunCalled; LogSetError]).
Proof. reflexivity. Qed.

End TestTaskFacts.

(* ====================================================================== *)
(** * The watch loop: config events                                        *)
(* ====================================================================== *)

Module WatchFacts.
Import JS Watch.

Section ConfigEvents.
Variable Garden : Type.
Variable projectRoot : Garden -> string.
Variable dedent : list string -> list string -> string.

Abbreviation State := (State Garden).
Abbreviation handle := (handle Garden projectRoot dedent).
Abbreviation watch := (watch Garden projectRoot dedent).
Abbreviation waiting := (waiting Garden).
Abbreviation returned := (returned Garden).
Abbreviation configChange := (configChange Garden projectRoot).
Abbreviation configurationErrorMessage := (configurationErrorMessage dedent).

(** No handler replaces the Garden instance. *)
Lemma handle_garden e (st : State) : garden Garden (handle e st) = garden Garden st.
Proof.
  destruct e as [| |r|p r|p r|p ns r|?]; simpl; try done;
    unfold onConfigChange, validateConfigChange;
    destruct r as [|[[] ? ? ?]]; done.
Qed.

(** Only the exit handler assigns [restartRequired], and it resolves. *)
Lemma handle_unresolved e (st : State) :
  resolved Garden (handle e st) = false ->
  restartRequired Garden (handle e st) = restartRequired Garden st.
Proof.
  destruct e as [| |r|p r|p r|p ns r|?]; simpl; try done;
    unfold onConfigChange, validateConfigChange;
    destruct r as [|[[] ? ? ?]]; done.
Qed.

Lemma watch_unresolved events (st : State) :
  resolved Garden (watch events st) = false ->
  resolved Garden st = false ->
  restartRequired Garden (watch events st) = restartRequired Garden st
  /\ garden Garden (watch events st) = garden Garden st.
Proof.
  revert st. induction events as [|e events IH]; intros st; simpl; [done|].
  destruct (resolved Garden (handle e st)) eqn:Hres; [congruence|].
  intros Hw _. destruct (IH _ Hw Hres) as [-> ->].
  by rewrite handle_unresolved, handle_garden.
Qed.

(** While the promise is pending, further events are handled. *)
Lemma watch_app events rest (st : State) :
  resolved Garden (watch events st) = false ->
  watch (events ++ rest) st = watch rest (watch events st).
Proof.
  revert st. induction events as [|e events IH]; intros st; simpl; [done|].
  destruct (resolved Garden (handle e st)) eqn:Hres; [congruence|]. apply IH.
Qed.

(** C8: while the watch loop waits, a config event makes the process parse
    the project anew.  If that fails with a ConfigurationError, the error is
    logged (with the text the tag [dedent] makes of the template, the path,
    the operation and the message of the error), the Garden instance stays,
    the promise stays pending and the loop goes on with the next events.  If it succeeds, the promise is
    resolved, the loop ends and [processActions] returns with
    [restartRequired = true]. *)
Theorem config_change_restarts_only_when_valid
    g log0 events e path op reparse :
  resolved Garden (watch events (waiting g log0)) = false ->
  configChange g e = Some (path, op, reparse) ->
  factoryCalls Garden (handle e (watch events (waiting g log0)))
  = S (factoryCalls Garden (watch events (waiting g log0)))
  /\ garden Garden (handle e (watch events (waiting g log0))) = g
  /\ (forall message detail cause,
        reparse = Failed (Error ConfigurationError message detail cause) ->
        log Garden (handle e (watch events (waiting g log0)))
        = log Garden (watch events (waiting g log0))
            ++ [LogError
                  (dedent configurationErrorTemplate
                     [path; operationName op; message])
                  (Some (Error ConfigurationError message detail cause))]
        /\ resolved Garden (handle e (watch events (waiting g log0))) = false
        /\ returned (handle e (watch events (waiting g log0))) = None
        /\ forall rest,
             watch (events ++ e :: rest) (waiting g log0)
             = watch rest (handle e (watch events (waiting g log0))))
  /\ (reparse = Parsed ->
      (exists info,
          log Garden (handle e (watch events (waiting g log0)))
          = log Garden (watch events (waiting g log0)) ++ [info])
      /\ resolved Garden (handle e (watch events (waiting g log0))) = true
      /\ forall rest,
           returned (watch (events ++ e :: rest) (waiting g log0))
           = Some {| graphResults := []; restartRequiredResult := true |}).
Proof.
  intros Hwait He.
  destruct (watch_unresolved _ _ Hwait eq_refl) as [Hrr Hg]. simpl in Hrr, Hg.
  set (st := watch events (waiting g log0)) in *.
  assert (forall rest,
             watch (events ++ e :: rest) (waiting g log0)
             = if resolved Garden (handle e st) then handle e st
               else watch rest (handle e st)) as Hstep.
  { intros rest. by rewrite watch_app. }
  split; [|split; [|split]].
  - destruct e as [| |r|p r|p r|p ns r|?]; simpl in *; try done;
      unfold onConfigChange, validateConfigChange;
      destruct r as [|[[] ? ? ?]]; done.
  - by rewrite handle_garden.
  - intros message detail cause ->.
    assert (log Garden (handle e st)
            = log Garden st
                ++ [LogError (configurationErrorMessage path op message)
                      (Some (Error ConfigurationError message detail cause))]
            /\ resolved Garden (handle e st) = false) as [Hlog Hres].
    { destruct e as [| |r|p r|p r|p ns r|?]; simpl in He; simplify_eq;
        simpl; unfold onConfigChange; simpl; rewrite ?Hg; by rewrite Hwait. }
    repeat split; try done.
    + unfold Watch.returned. by rewrite Hres.
    + intros rest. by rewrite Hstep, Hres.
  - intros ->.
    assert ((exists info, log Garden (handle e st) = log Garden st ++ [info])
            /\ resolved Garden (handle e st) = true
            /\ restartRequired Garden (handle e st) = true) as (Hlog & Hres & Hr).
    { destruct e as [| |r|p r|p r|p ns r|?]; simpl in He; simplify_eq;
        simpl; unfold onConfigChange; simpl; rewrite Hrr; eauto. }
    repeat split; try done.
    intros rest. rewrite Hstep, Hres. unfold Watch.returned. by rewrite Hres, Hr.
Qed.

End ConfigEvents.

Lemma config_change_restarts_only_when_valid_witness :
  resolved unit
    (watch unit root interleaved
       [working []; configAdded "a.yml" (Failed invalidConfig)]
       (waiting unit tt [])) = false
  /\ returned unit
       (watch unit root interleaved
          ([working []; configAdded "a.yml" (Failed invalidConfig)]
           ++ configRemoved "a.yml" Parsed :: [_exit])
          (waiting unit tt []))
     = Some {| graphResults := []; restartRequiredResult := true |}.
Proof.
  split; [reflexivity|].
  destruct (config_change_restarts_only_when_valid unit root interleaved tt []
              [working []; configAdded "a.yml" (Failed invalidConfig)]
              (configRemoved "a.yml" Parsed) "a.yml" removed Parsed
              eq_refl eq_refl) as (_ & _ & _ & Hparsed).
  destruct (Hparsed eq_refl) as (_ & _ & Hret). exact (Hret [_exit]).
Defined.

Example invalid_config_is_logged_and_kept :
  watch unit root interleaved [configAdded "a.yml" (Failed invalidConfig)] (waiting unit tt [])
  = {| garden := tt; resolved := false; restartRequired := true;
       log := [LogError
                 (configurationErrorMessage interleaved "a.yml" added
                    "Unknown key: foo")
                 (Some invalidConfig)];
       factoryCalls := 1 |}.
Proof. reflexivity. Qed.

End WatchFacts.

(* ====================================================================== *)
(** * Command results                                                      *)
(* ====================================================================== *)

Module CommandBaseFacts.
Import JS TemplateString TemplateStringFacts TaskGraph CommandBase.


Lemma prepareProcessResult_aborted getDurationMsec graphResult :
  getProp "aborted" (prepareProcessResult getDurationMsec graphResult)
  = Some (VBool (match graphResult with Some _ => false | None => true end))
  /\ getProp "success" (prepareProcessResult getDurationMsec graphResult)
     = Some (VBool (match graphResult with
                    | Some r => match error r with
                                | Some _ => false
                                | None => true
                                end
                    | None => false
                    end)).
Proof.
  unfold prepareProcessResult. by rewrite !getProp_setProp.
Qed.




Example aborted_build_is_reported :
  (fun r => getProp "b" (builds (result r)))
    <$> outcomeValue (handleProcessResults elapsed "build" mixedResults).1
  = Some (Some (VObj None
                  [("aborted", VBool true); ("durationMsec", VUndefined);
                   ("error", VUndefined); ("success", VBool false);
                   ("version", VUndefined)])).
Proof. vm_compute. reflexivity. Qed.

Example only_the_failed_build_is_counted :
  errors <$> outcomeValue (handleProcessResults elapsed "build" mixedResults).1
  = Some
      [{| cls := RuntimeError; message := "1 build task(s) failed!";
          CommandBase.results :=
            [("build.a", Some (aTask "build" "a"
                                 (Some (Error (OtherError "BuildError")
                                          "exit code 1" [] None))))] |}].
Proof. vm_compute. reflexivity. Qed.

Example aborted_alone_raises_no_error :
  errors
    <$> outcomeValue
          (handleProcessResults elapsed "build"
             {| taskResults := Some [("build.b", None)];
                restartRequired := None |}).1
  = Some [].
Proof. reflexivity. Qed.

Example results_of_processActions_make_it_throw :
  handleProcessResults elapsed "deploy"
    (fromProcessActions
       {| Watch.graphResults := []; Watch.restartRequiredResult := true |})
  = (Throw cannotConvert, NoFooter).
Proof. reflexivity. Qed.

End CommandBaseFacts.

(* ====================================================================== *)
(** * Strings and plain objects: lemmas                                    *)
(* ====================================================================== *)

Module StringFacts.

Lemma append_nil_r (s : string) : (s ++ "")%string = s.
Proof.
  induction s as [|c s IH]; [reflexivity|].
  change (String c (s ++ "")%string = String c s). by rewrite IH.
Qed.

Lemma append_assoc (a b c : string) :
  ((a ++ b) ++ c)%string = (a ++ (b ++ c))%string.
Proof.
  induction a as [|x a IH]; [reflexivity|].
  change (String x ((a ++ b) ++ c)%string = String x (a ++ (b ++ c))%string).
  by rewrite IH.
Qed.

Lemma prefix_append (p s : string) : String.prefix p (p ++ s) = true.
Proof.
  induction p as [|c p IH]; [by destruct s|].
  change (String.prefix (String c p) (String c (p ++ s)%string) = true).
  simpl. by destruct (ascii_dec c c).
Qed.

End StringFacts.

Module PropsFacts.
Import JS TemplateString TemplateStringFacts.

(** Writing properties one after the other: a key ends up with the value
    written last under it, and keeps its old value when none is written. *)
Lemma getProp_fold_setProp {A} (keyOf : A -> string) (valueOf : A -> value)
    (l : list A) (o : props) (k : string) :
  getProp k (fold_left (fun o x => setProp (keyOf x) (valueOf x) o) l o)
  = match last (omap (fun x => if String.eqb (keyOf x) k
                               then Some (valueOf x) else None) l) with
    | Some v => Some v
    | None => getProp k o
    end.
Proof.
  revert o. induction l as [|x l IH]; intros o; simpl; [reflexivity|].
  rewrite IH, getProp_setProp.
  destruct (String.eqb_spec (keyOf x) k) as [->|Hne].
  - rewrite String.eqb_refl, last_cons.
    change (list_omap A value ?f ?l) with (omap f l).
    by destruct (last (omap _ l)).
  - destruct (String.eqb_spec k (keyOf x)) as [->|_]; [done|]. reflexivity.
Qed.

End PropsFacts.

(* ====================================================================== *)
(** * Template operators: chains of operators                              *)
(* ====================================================================== *)

Module OperatorChainFacts.
Import JS TemplateString TemplateStringFacts TemplateParts.

Lemma reduce_app {A B} (f : A -> B -> outcome A) (l1 l2 : list B) (acc : A) :
  reduce f (l1 ++ l2) acc = (a <- reduce f l1 acc ;; reduce f l2 a).
Proof.
  revert acc. induction l1 as [|x l1 IH]; intros acc; simpl; [reflexivity|].
  destruct (f acc x) as [a|e]; simpl; [apply IH | reflexivity].
Qed.

Lemma reduce_fixed {A B} (f : A -> B -> outcome A) (l : list B) (acc : A) :
  (forall x, f acc x = Ret acc) -> reduce f l acc = Ret acc.
Proof.
  intros H. induction l as [|x l IH]; simpl; [reflexivity|]. by rewrite H.
Qed.

(** X1: once the result of a chain of binary or logical operators carries
    an error, that very result is the result of every longer chain: the
    operators that follow neither replace the error nor evaluate
    anything. *)
Theorem carried_error_ends_the_chain head pre post failed :
  hasError failed = true ->
  (buildBinaryExpression head pre = Ret failed ->
   buildBinaryExpression head (pre ++ post) = Ret failed)
  /\ (buildLogicalExpression head pre = Ret failed ->
      buildLogicalExpression head (pre ++ post) = Ret failed).
Proof.
  intros Herr. unfold buildBinaryExpression, buildLogicalExpression.
  split; intros H; rewrite reduce_app, H; simpl; apply reduce_fixed; intros x.
  - by apply binaryStep_left_error.
  - by apply logicalStep_left_error.
Qed.

Lemma carried_error_ends_the_chain_witness :
  buildBinaryExpression (Raw (VNum 1%float))
    ([("-", Raw (VStr "x"))]
     ++ [("*", Raw (VNum 2%float)); ("==", Raw (VNum 3%float))])
  = Ret (errorResult
           (Error TemplateStringError
              "Both terms need to be numbers for - operator (got number and string)."
              (operandDetail (VNum 1%float) (VStr "x") "-") None)).
Proof.
  apply (carried_error_ends_the_chain (Raw (VNum 1%float))
           [("-", Raw (VStr "x"))]
           [("*", Raw (VNum 2%float)); ("==", Raw (VNum 3%float))]);
    reflexivity.
Defined.

Lemma operands_defined leftRes rightRes :
  operandDefined leftRes -> operandDefined rightRes ->
  hasError leftRes = false /\ hasError rightRes = false
  /\ isUndefined (getValue leftRes) || isUndefined (getValue rightRes) = false.
Proof.
  intros [Hl Hdl] [Hr Hdr]. repeat split; try done.
  destruct (getValue leftRes), (getValue rightRes); simpl; congruence.
Qed.

Ltac other_operator :=
  repeat match goal with
         | H : ?op <> ?s |- context [String.eqb ?op ?s] =>
             rewrite (proj2 (String.eqb_neq op s) H)
         end.

(** X2: between two defined operands, an operator other than [==], [!=]
    and [+] needs two numbers.  On two numbers [*], [/], [%] and [-] give
    the number and [<=], [>=], [<] and [>] the boolean of the language,
    never an error result, and any other operator is reported as
    unrecognized.  As soon as one operand is no number the result is the
    error that names the operator and the two types, also for an operator
    that does not exist. *)
Theorem numeric_operators_require_numbers
    head tail leftRes operator rightRes :
  buildBinaryExpression head tail = Ret leftRes ->
  operandDefined leftRes ->
  operandDefined rightRes ->
  operator <> "==" -> operator <> "!=" -> operator <> "+" ->
  (isNumber (getValue leftRes) && isNumber (getValue rightRes) = false ->
   buildBinaryExpression head (tail ++ [(operator, rightRes)])
   = Ret (errorResult
            (Error TemplateStringError
               ("Both terms need to be numbers for " ++ operator
                  ++ " operator (got " ++ typeOf (getValue leftRes) ++ " and "
                  ++ typeOf (getValue rightRes) ++ ").")
               (operandDetail (getValue leftRes) (getValue rightRes) operator)
               None)))
  /\ (forall a b,
        getValue leftRes = VNum a -> getValue rightRes = VNum b ->
        buildBinaryExpression head (tail ++ [("*", rightRes)])
        = Ret (Raw (VNum (PrimFloat.mul a b)))
        /\ buildBinaryExpression head (tail ++ [("/", rightRes)])
           = Ret (Raw (VNum (PrimFloat.div a b)))
        /\ buildBinaryExpression head (tail ++ [("%", rightRes)])
           = Ret (Raw (VNum (js_rem a b)))
        /\ buildBinaryExpression head (tail ++ [("-", rightRes)])
           = Ret (Raw (VNum (PrimFloat.sub a b)))
        /\ buildBinaryExpression head (tail ++ [("<=", rightRes)])
           = Ret (Raw (VBool (PrimFloat.leb a b)))
        /\ buildBinaryExpression head (tail ++ [(">=", rightRes)])
           = Ret (Raw (VBool (PrimFloat.leb b a)))
        /\ buildBinaryExpression head (tail ++ [("<", rightRes)])
           = Ret (Raw (VBool (PrimFloat.ltb a b)))
        /\ buildBinaryExpression head (tail ++ [(">", rightRes)])
           = Ret (Raw (VBool (PrimFloat.ltb b a)))
        /\ (operator ∉ ["*"; "/"; "%"; "-"; "<="; ">="; "<"; ">"] ->
            buildBinaryExpression head (tail ++ [(operator, rightRes)])
            = Ret (errorResult
                     (Error TemplateStringError
                        ("Unrecognized operator: " ++ operator)
                        [("operator", VStr operator)] None)))).
Proof.
  intros Hchain Hdl Hdr Heq Hne Hplus.
  destruct (operands_defined _ _ Hdl Hdr) as (Hl & Hr & Hdef).
  rewrite !(buildBinaryExpression_snoc _ _ _ _ _ Hchain).
  unfold binaryStep. simpl. rewrite Hl, Hr, Hdef. split.
  - intros Hnum. other_operator.
    destruct (getValue leftRes), (getValue rightRes); try done.
  - intros a b -> ->. repeat (split; [reflexivity|]).
    intros Hnot. other_operator.
    rewrite !not_elem_of_cons in Hnot.
    destruct Hnot as (? & ? & ? & ? & ? & ? & ? & ? & _).
    by other_operator.
Qed.

Lemma numeric_operators_require_numbers_witness :
  buildBinaryExpression (Raw VNull) ([] ++ [("<", Raw (VNum 1%float))])
  = Ret (errorResult
           (Error TemplateStringError
              "Both terms need to be numbers for < operator (got object and number)."
              (operandDetail VNull (VNum 1%float) "<") None)).
Proof.
  assert (operandDefined (Raw VNull)) as Hl by (by split).
  assert (operandDefined (Raw (VNum 1%float))) as Hr by (by split).
  exact (proj1 (numeric_operators_require_numbers
                  (Raw VNull) [] (Raw VNull) "<" (Raw (VNum 1%float))
                  eq_refl Hl Hr ltac:(discriminate) ltac:(discriminate)
                  ltac:(discriminate))
               eq_refl).
Defined.

Example division_by_zero_is_no_error :
  buildBinaryExpression (Raw (VNum 1%float)) [("/", Raw (VNum 0%float))]
  = Ret (Raw (VNum infinity))
  /\ buildBinaryExpression (Raw (VNum 1%float)) [("%", Raw (VNum 0%float))]
     = Ret (Raw (VNum nan)).
Proof. split; reflexivity. Qed.

Example unknown_operator_between_numbers :
  buildBinaryExpression (Raw (VNum 1%float)) [("^", Raw (VNum 2%float))]
  = Ret (errorResult
           (Error TemplateStringError "Unrecognized operator: ^"
              [("operator", VStr "^")] None)).
Proof. reflexivity. Qed.

(** ** Operands that make an operator throw *)

Lemma messageOf_throws r e :
  messageOf r = Throw e -> errorCls e = TypeError /\ bare r.
Proof.
  destruct r as [[]|c]; simpl; intros [= <-]; (split; [reflexivity|]);
    [right | left]; reflexivity.
Qed.

Lemma binaryStep_throws leftRes element e :
  binaryStep leftRes element = Throw e ->
  errorCls e = TypeError /\ (bare leftRes \/ bare element.2).
Proof.
  unfold binaryStep.
  destruct (hasError leftRes); [discriminate|].
  destruct (hasError element.2); [discriminate|].
  destruct (isUndefined (getValue leftRes) || isUndefined (getValue element.2)).
  - destruct (messageOf leftRes) as [ml|el] eqn:Hml; simpl.
    + destruct (messageOf element.2) as [mr|er] eqn:Hmr; simpl; [discriminate|].
      intros [= <-]. destruct (messageOf_throws _ _ Hmr). auto.
    + intros [= <-]. destruct (messageOf_throws _ _ Hml). auto.
  - repeat (match goal with
            | |- context [if ?b then _ else _] => destruct b
            | |- context [match ?v with _ => _ end] => destruct v
            end; try discriminate).
Qed.

Lemma binaryStep_returns leftRes element out :
  binaryStep leftRes element = Ret out ->
  out = leftRes \/ out = element.2 \/ ~ bare out.
Proof.
  unfold binaryStep, bare.
  destruct (hasError leftRes); [intros [= <-]; auto|].
  destruct (hasError element.2); [intros [= <-]; auto|].
  destruct (isUndefined (getValue leftRes) || isUndefined (getValue element.2)).
  - destruct (messageOf leftRes); simpl; [|discriminate].
    destruct (messageOf element.2); simpl; [|discriminate].
    intros [= <-]. right. right. intros [|]; discriminate.
  - repeat (match goal with
            | |- context [if ?b then _ else _] => destruct b
            | |- context [match ?v with _ => _ end] => destruct v
            end; try (intros [= <-]; right; right; intros [|]; discriminate)).
Qed.

Lemma reduce_binaryStep_throws tail head e :
  reduce binaryStep tail head = Throw e ->
  errorCls e = TypeError
  /\ exists operand, operand ∈ head :: tail.*2 /\ bare operand.
Proof.
  revert head. induction tail as [|x tail IH]; intros head; simpl; [discriminate|].
  destruct (binaryStep head x) as [a|e'] eqn:Hstep; simpl.
  - intros Hrest. destruct (IH _ Hrest) as (Hcls & operand & Hin & Hbare).
    split; [done|].
    apply elem_of_cons in Hin as [->|Hin].
    + destruct (binaryStep_returns _ _ _ Hstep) as [->|[->|Hnot]].
      * exists head. split; [left | done].
      * exists x.2. split; [right; left | done].
      * done.
    + exists operand. split; [by do 2 right | done].
  - intros [= <-]. destruct (binaryStep_throws _ _ _ Hstep) as (Hcls & [Hb|Hb]).
    + split; [done|]. exists head. split; [left | done].
    + split; [done|]. exists x.2. split; [right; left | done].
Qed.

(** X3: a chain of binary operators throws only the [TypeError] of reading
    the message off a bare null or undefined, and only when such an
    operand is in the chain; with operands that are clauses or values
    other than null and undefined it always returns a result. *)
Theorem binary_expression_throws_only_on_bare_null head tail :
  (forall e,
      buildBinaryExpression head tail = Throw e ->
      errorCls e = TypeError
      /\ exists operand, operand ∈ head :: tail.*2 /\ bare operand)
  /\ ((forall operand, operand ∈ head :: tail.*2 -> ~ bare operand) ->
      exists result, buildBinaryExpression head tail = Ret result).
Proof.
  split.
  - intros e. apply reduce_binaryStep_throws.
  - intros Hsafe. unfold buildBinaryExpression.
    destruct (reduce binaryStep tail head) as [r|e] eqn:Hr; [eauto|].
    destruct (reduce_binaryStep_throws _ _ _ Hr) as (_ & operand & Hin & Hb).
    by destruct (Hsafe operand Hin).
Qed.

Example null_compared_with_a_missing_key_throws :
  buildBinaryExpression (Raw VNull)
    [("==", missingKey "Could not find key a under var.")]
  = Throw (Error TypeError
             "Cannot read properties of null (reading 'message')" [] None).
Proof. reflexivity. Qed.

(** ** Chains of one logical operator *)

Lemma logical_chain_fold (pickLeft : value -> bool) operator rest head :
  (forall leftRes rightRes,
      hasError leftRes = false -> hasError rightRes = false ->
      logicalStep leftRes (operator, rightRes)
      = Ret (if pickLeft (getValue leftRes) then leftRes else rightRes)) ->
  Forall (fun r => hasError r = false) (head :: rest) ->
  buildLogicalExpression head (chainOf operator rest)
  = Ret (fold_left
           (fun acc r => if pickLeft (getValue acc) then acc else r)
           rest head).
Proof.
  intros Hstep. unfold buildLogicalExpression, chainOf.
  revert head. induction rest as [|r rest IH]; intros head Hok; simpl;
    [reflexivity|].
  apply Forall_cons in Hok as [Hhead Hok].
  pose proof Hok as Hok'. apply Forall_cons in Hok' as [Hr Hrest].
  rewrite (Hstep _ _ Hhead Hr). simpl. apply IH.
  destruct (pickLeft (getValue head)); [|done].
  by apply Forall_cons.
Qed.

Lemma fold_pick_decided (pickLeft : value -> bool) rest head :
  pickLeft (getValue head) = true ->
  fold_left (fun acc r => if pickLeft (getValue acc) then acc else r) rest head
  = head.
Proof.
  intros H. induction rest as [|r rest IH]; simpl; [reflexivity|].
  by rewrite H.
Qed.

Lemma fold_pick_first (pickLeft : value -> bool) pre r post head rest :
  head :: rest = pre ++ r :: post ->
  Forall (fun x => pickLeft (getValue x) = false) pre ->
  pickLeft (getValue r) = true ->
  fold_left (fun acc r => if pickLeft (getValue acc) then acc else r) rest head
  = r.
Proof.
  revert head rest. induction pre as [|x pre IH]; intros head rest; simpl.
  - intros [= -> ->] _ Hr. by apply fold_pick_decided.
  - intros [= -> ->] Hpre Hr. apply Forall_cons in Hpre as [Hx Hpre].
    destruct pre as [|y pre]; simpl in *.
    + rewrite Hx. by apply fold_pick_decided.
    + rewrite Hx. by apply (IH y (pre ++ r :: post)).
Qed.

Lemma fold_pick_last (pickLeft : value -> bool) rest head :
  Forall (fun x => pickLeft (getValue x) = false) (head :: rest) ->
  fold_left (fun acc r => if pickLeft (getValue acc) then acc else r) rest head
  = default head (last rest).
Proof.
  revert head. induction rest as [|r rest IH]; intros head Hall; simpl;
    [reflexivity|].
  apply Forall_cons in Hall as [Hhead Hall]. rewrite Hhead, (IH _ Hall).
  destruct rest as [|r' rest]; [reflexivity|].
  change (last (r :: r' :: rest)) with (last (r' :: rest)).
  destruct (last (r' :: rest)) eqn:Hlast; [reflexivity|].
  by apply last_None in Hlast.
Qed.

(** X4: in a chain of [||] over operands without errors the result is the
    first operand whose value is truthy, and the last operand when none
    is; in a chain of [&&] it is the first operand whose value is falsy,
    and the last operand when none is.  The result is the operand's own
    result, not a boolean. *)
Theorem logical_chain_yields_the_deciding_operand head rest :
  Forall (fun r => hasError r = false) (head :: rest) ->
  (forall pre r post,
      head :: rest = pre ++ r :: post ->
      Forall (fun x => truthy (getValue x) = false) pre ->
      truthy (getValue r) = true ->
      buildLogicalExpression head (chainOf "||" rest) = Ret r)
  /\ (Forall (fun x => truthy (getValue x) = false) (head :: rest) ->
      buildLogicalExpression head (chainOf "||" rest)
      = Ret (default head (last rest)))
  /\ (forall pre r post,
      head :: rest = pre ++ r :: post ->
      Forall (fun x => truthy (getValue x) = true) pre ->
      truthy (getValue r) = false ->
      buildLogicalExpression head (chainOf "&&" rest) = Ret r)
  /\ (Forall (fun x => truthy (getValue x) = true) (head :: rest) ->
      buildLogicalExpression head (chainOf "&&" rest)
      = Ret (default head (last rest))).
Proof.
  intros Hok.
  assert (buildLogicalExpression head (chainOf "||" rest)
          = Ret (fold_left
                   (fun acc r => if truthy (getValue acc) then acc else r)
                   rest head)) as Hor.
  { apply logical_chain_fold; [|done].
    intros l r Hl Hr. unfold logicalStep. simpl. by rewrite Hl, Hr. }
  assert (buildLogicalExpression head (chainOf "&&" rest)
          = Ret (fold_left
                   (fun acc r => if negb (truthy (getValue acc)) then acc else r)
                   rest head)) as Hand.
  { apply (logical_chain_fold (fun v => negb (truthy v))); [|done].
    intros l r Hl Hr. unfold logicalStep. simpl. by rewrite Hl, Hr. }
  rewrite Hor, Hand. split; [|split; [|split]].
  - intros pre r post Hsplit Hpre Hr. f_equal.
    by eapply (fold_pick_first truthy).
  - intros Hall. f_equal. by apply (fold_pick_last truthy).
  - intros pre r post Hsplit Hpre Hr. f_equal.
    eapply (fold_pick_first (fun v => negb (truthy v))); [done| |by rewrite Hr].
    eapply Forall_impl; [exact Hpre|]. simpl. by intros x ->.
  - intros Hall. f_equal. apply (fold_pick_last (fun v => negb (truthy v))).
    eapply Forall_impl; [exact Hall|]. simpl. by intros x ->.
Qed.

Lemma logical_chain_yields_the_deciding_operand_witness :
  buildLogicalExpression (missingKey "Could not find key a under var.")
    (chainOf "||" [Raw (VStr ""); Raw (VNum 8080%float); Raw (VStr "x")])
  = Ret (Raw (VNum 8080%float)).
Proof.
  destruct (logical_chain_yields_the_deciding_operand
              (missingKey "Could not find key a under var.")
              [Raw (VStr ""); Raw (VNum 8080%float); Raw (VStr "x")])
    as (Hfirst & _).
  - repeat constructor.
  - apply (Hfirst [missingKey "Could not find key a under var."; Raw (VStr "")]
                  (Raw (VNum 8080%float)) [Raw (VStr "x")]).
    + reflexivity.
    + repeat constructor.
    + reflexivity.
Defined.

End OperatorChainFacts.
(* ====================================================================== *)
(** * Template strings: resolution                                         *)
(* ====================================================================== *)

Module ResolutionFacts.
Import JS TemplateString TemplateStringFacts TemplateParts StringFacts.

Lemma isBlock_name part a b :
  isBlock part a = true -> isBlock part b = true -> a = b.
Proof.
  unfold isBlock. destruct (block part) as [n|]; [|discriminate].
  intros Ha%String.eqb_eq Hb%String.eqb_eq. congruence.
Qed.

Lemma isPlain_true part :
  isPlain part = true ->
  isBlock part "if" = false /\ isBlock part "else" = false
  /\ isBlock part "endif" = false /\ _error part = None.
Proof.
  unfold isPlain, isBlockPart.
  destruct (isBlock part "if"), (isBlock part "else"), (isBlock part "endif"),
    (_error part); simpl; try discriminate. done.
Qed.

Lemma firstError_plain outputs :
  Forall (fun part => _error part = None) outputs -> firstError outputs = None.
Proof.
  induction 1 as [|part outputs Hpart _ IH]; simpl; [reflexivity|].
  by rewrite Hpart.
Qed.

Lemma countBlock_cons name part parts :
  countBlock name (part :: parts)
  = (if isBlock part name then 1 else 0) + countBlock name parts.
Proof.
  unfold countBlock. rewrite filter_cons.
  destruct (isBlock part name); simpl; reflexivity.
Qed.

Lemma pushChild_length child rootChildren open :
  length (pushChild child rootChildren open).2 = length open.
Proof. by destruct open. Qed.

(** A resolved template has as many [endif] as [if] operators, never more
    [endif] than [if] operators up to any point, and an [else] only inside
    an open block. *)
Lemma assemble_balanced parts rootChildren open tree :
  assemble parts rootChildren open = Ret tree ->
  length open + countBlock "if" parts = countBlock "endif" parts
  /\ (forall pre post,
        parts = pre ++ post ->
        countBlock "endif" pre <= length open + countBlock "if" pre)
  /\ (forall pre part post,
        parts = pre ++ part :: post -> isBlock part "else" = true ->
        countBlock "endif" pre < length open + countBlock "if" pre).
Proof.
  revert rootChildren open.
  induction parts as [|part parts IH]; intros rootChildren open.
  - simpl. destruct open; [|discriminate]. intros _. split; [reflexivity|].
    split.
    + intros pre post Heq. symmetry in Heq.
      apply app_nil in Heq as [-> _]. reflexivity.
    + intros [|] ? ? Heq; discriminate Heq.
  - assert (forall open' : list frame,
               (length open' + countBlock "if" parts = countBlock "endif" parts
                /\ (forall pre post,
                       parts = pre ++ post ->
                       countBlock "endif" pre
                       <= length open' + countBlock "if" pre)
                /\ (forall pre p post,
                       parts = pre ++ p :: post -> isBlock p "else" = true ->
                       countBlock "endif" pre
                       < length open' + countBlock "if" pre)) ->
               length open' + (if isBlock part "endif" then 1 else 0)
               = length open + (if isBlock part "if" then 1 else 0) ->
               (isBlock part "else" = true -> 0 < length open) ->
               length open + countBlock "if" (part :: parts)
               = countBlock "endif" (part :: parts)
               /\ (forall pre post,
                      part :: parts = pre ++ post ->
                      countBlock "endif" pre
                      <= length open + countBlock "if" pre)
               /\ (forall pre p post,
                      part :: parts = pre ++ p :: post ->
                      isBlock p "else" = true ->
                      countBlock "endif" pre
                      < length open + countBlock "if" pre)) as Hstep.
    { intros open' (H1 & H2 & H3) Hlen Helse. rewrite !countBlock_cons.
      remember (if isBlock part "if" then 1 else 0) as opened eqn:Hopened.
      remember (if isBlock part "endif" then 1 else 0) as closed eqn:Hclosed.
      split; [lia|]. split.
      - intros [|p pre] post Heq; [unfold countBlock; simpl; lia|].
        injection Heq as <- ->. rewrite !countBlock_cons.
        rewrite <- Hopened, <- Hclosed.
        specialize (H2 pre post eq_refl). lia.
      - intros [|p0 pre] p post Heq Hp.
        + injection Heq as <- _. specialize (Helse Hp).
          unfold countBlock. simpl. lia.
        + injection Heq as <- ->. rewrite !countBlock_cons.
          rewrite <- Hopened, <- Hclosed.
          specialize (H3 pre p post eq_refl Hp). lia. }
    simpl. destruct (isBlock part "if") eqn:Bif.
    { assert (isBlock part "endif" = false) as Bendif.
      { destruct (isBlock part "endif") eqn:B; [|done].
        discriminate (isBlock_name _ _ _ Bif B). }
      assert (isBlock part "else" = false) as Belse.
      { destruct (isBlock part "else") eqn:B; [|done].
        discriminate (isBlock_name _ _ _ Bif B). }
      intros H. apply IH in H. rewrite ?Bendif in Hstep.
      apply (Hstep _ H); [simpl; lia | by rewrite Belse]. }
    destruct (isBlock part "else") eqn:Belse.
    { assert (isBlock part "endif" = false) as Bendif.
      { destruct (isBlock part "endif") eqn:B; [|done].
        discriminate (isBlock_name _ _ _ Belse B). }
      destruct open as [|[[] v cs] up]; try discriminate.
      destruct (pushChild _ rootChildren up) as [rootChildren' up'] eqn:Hpush.
      pose proof (pushChild_length
                    (frameNode {| ftype := NIf; fvalue := v; fchildren := cs |})
                    rootChildren up) as Hlen.
      rewrite Hpush in Hlen. simpl in Hlen.
      intros H. apply IH in H. rewrite ?Bendif in Hstep.
      apply (Hstep _ H); simpl; lia. }
    destruct (isBlock part "endif") eqn:Bendif.
    { destruct open as [|f up]; [discriminate|].
      destruct (pushChild _ rootChildren up) as [rootChildren' up'] eqn:Hpush.
      pose proof (pushChild_length (frameNode f) rootChildren up) as Hlen.
      rewrite Hpush in Hlen. simpl in Hlen.
      intros H. apply IH in H. 
      apply (Hstep _ H); [simpl; lia | discriminate]. }
    destruct (pushChild _ rootChildren open) as [rootChildren' open'] eqn:Hpush.
    match type of Hpush with
    | pushChild ?c _ _ = _ =>
        pose proof (pushChild_length c rootChildren open) as Hlen
    end.
    rewrite Hpush in Hlen. simpl in Hlen.
    intros H. apply IH in H. 
    apply (Hstep _ H); [lia | discriminate].
Qed.

(** Induction over values, with the property at hand for the items of an
    array and the values of an object. *)
Lemma value_nested_ind (P : value -> Prop) :
  P VUndefined -> P VNull -> (forall b, P (VBool b)) ->
  (forall n, P (VNum n)) -> (forall s, P (VStr s)) ->
  (forall ref items, Forall P items -> P (VArr ref items)) ->
  (forall ref entries, Forall (fun kv => P kv.2) entries -> P (VObj ref entries)) ->
  forall v, P v.
Proof.
  intros Hu Hn Hb Hnum Hs Harr Hobj.
  fix IH 1. intros v. destruct v as [| |b|n|s|ref items|ref entries].
  - exact Hu.
  - exact Hn.
  - apply Hb.
  - apply Hnum.
  - apply Hs.
  - apply Harr. induction items as [|x items IHitems]; constructor;
      [apply IH | exact IHitems].
  - apply Hobj. induction entries as [|[k x] entries IHentries]; constructor;
      [apply IH | exact IHentries].
Qed.

Lemma mapOutcome_throws f l e :
  mapOutcome f l = Throw e -> exists x, x ∈ l /\ f x = Throw e.
Proof.
  induction l as [|x l IH]; simpl; [discriminate|].
  destruct (f x) as [y|e'] eqn:Hx; simpl.
  - destruct (mapOutcome f l) as [ys|e'']; simpl; [discriminate|].
    intros [= <-]. destruct (IH eq_refl) as (x' & Hin & Hx').
    exists x'. split; [by right | done].
  - intros [= <-]. exists x. split; [left | done].
Qed.

Lemma mapOutcome_returns f l out :
  mapOutcome f l = Ret out -> Forall2 (fun x y => f x = Ret y) l out.
Proof.
  revert out. induction l as [|x l IH]; intros out; simpl.
  - intros [= <-]. constructor.
  - destruct (f x) as [y|e'] eqn:Hx; simpl; [|discriminate].
    destruct (mapOutcome f l) as [ys|e'']; simpl; [|discriminate].
    intros [= <-]. constructor; [done | by apply IH].
Qed.

Lemma resolveEntries_throws f opts whole entries output e :
  resolveEntries f opts whole entries output = Throw e ->
  (exists kv, kv ∈ entries /\ f kv.2 = Throw e)
  \/ (errorCls e = ConfigurationError /\ allowPartial opts = false
      /\ objectSpreadKey ∈ entries.*1).
Proof.
  revert output. induction entries as [|[k v] entries IH]; intros output; simpl;
    [discriminate|].
  assert (forall o, resolveEntries f opts whole entries o = Throw e ->
                    (exists kv, kv ∈ (k, v) :: entries /\ f kv.2 = Throw e)
                    \/ (errorCls e = ConfigurationError
                        /\ allowPartial opts = false
                        /\ objectSpreadKey ∈ k :: entries.*1)) as Hrest.
  { intros o Ho. destruct (IH _ Ho) as [(kv & Hin & Hkv)|(? & ? & ?)].
    - left. exists kv. split; [by right | done].
    - right. repeat split; try done. by right. }
  destruct (f v) as [r|e'] eqn:Hv; simpl.
  - destruct (String.eqb_spec k objectSpreadKey) as [->|Hne]; [|apply Hrest].
    destruct (asPlainObject r); [apply Hrest|].
    destruct (allowPartial opts) eqn:Hpartial; [apply Hrest|].
    intros [= <-]. right. repeat split. left.
  - intros [= <-]. left. exists (k, v). split; [left | done].
Qed.

(** Without a [$merge] key, the loop over the entries gives every key the
    resolved value of its entry and leaves the other properties of the
    output as they were; the key [__proto__] gets none when its assignment
    goes to the inherited setter. *)
Lemma resolveEntries_plain f opts whole entries output out :
  objectSpreadKey ∉ entries.*1 ->
  NoDup entries.*1 ->
  resolveEntries f opts whole entries output = Ret out ->
  forall k,
    match getProp k entries with
    | Some v =>
        exists v',
          f v = Ret v'
          /\ getProp k out.1
             = if reachesSetter k output then None else Some v'.1
    | None => getProp k out.1 = getProp k output.1
    end.
Proof.
  revert output. induction entries as [|[k0 v0] entries IH];
    intros output Hm Hnd; simpl.
  - by intros [= <-] k.
  - apply not_elem_of_cons in Hm as [Hm0 Hm]. simpl in Hm0.
    apply NoDup_cons in Hnd as [Hk0 Hnd]. simpl in Hk0.
    destruct (f v0) as [r0|e] eqn:Hv0; simpl; [|discriminate].
    destruct (String.eqb_spec k0 objectSpreadKey) as [->|_]; [done|].
    intros Hrest k. specialize (IH _ Hm Hnd Hrest).
    destruct (String.eqb_spec k k0) as [->|Hne].
    + exists r0. split; [done|]. specialize (IH k0).
      apply getProp_None_not_in in Hk0. rewrite Hk0 in IH.
      by rewrite IH, getProp_assign, String.eqb_refl.
    + specialize (IH k).
      assert (getProp k (assign k0 r0.1 output).1 = getProp k output.1)
        as Hother.
      { rewrite getProp_assign. by destruct (String.eqb_spec k k0). }
      destruct (getProp k entries); [|by rewrite IH].
      destruct IH as (v' & Hv' & Hget). exists v'. split; [done|].
      by rewrite reachesSetter_assign in Hget.
Qed.

Section Resolution.
Variable ConfigContext : Type.
Variable parse : string -> ConfigContext -> ContextResolveOpts
                 -> outcome (list res).
Variable numberToString : float -> string.
Variable truncate : string -> nat -> string.

Abbreviation resolveTemplateString :=
  (resolveTemplateString ConfigContext parse numberToString truncate).
Abbreviation resolveParsed :=
  (resolveParsed ConfigContext parse numberToString).
Abbreviation resolveTree := (resolveTree numberToString).
Abbreviation resolveChildren := (resolveChildren numberToString).
Abbreviation text := (text numberToString).
Abbreviation partText := (partText numberToString).

Local Arguments TemplateString.resolveTree : simpl never.

(** X5: every error [resolveTemplateString] throws is a
    [TemplateStringError] that wraps the error met while parsing or
    assembling, and its message starts with the prefix that names the
    (shortened, newline-escaped) template string.  The prefix is put before
    the message of the wrapped error unless that message starts with it
    already, in which case the message is taken over as it is. *)
Theorem thrown_message_names_the_template str context opts e :
  resolveTemplateString str context opts = Throw e ->
  exists cause,
    resolveParsed str context opts = Throw cause
    /\ e = Error TemplateStringError (errorMessage e) [] (Some cause)
    /\ String.prefix (invalidPrefix truncate str) (errorMessage e) = true
    /\ (String.prefix (invalidPrefix truncate str) (errorMessage cause) = true ->
        errorMessage e = errorMessage cause)
    /\ (String.prefix (invalidPrefix truncate str) (errorMessage cause) = false ->
        errorMessage e
        = (invalidPrefix truncate str ++ errorMessage cause)%string).
Proof.
  unfold TemplateString.resolveTemplateString.
  destruct (String.eqb str ""); [discriminate|].
  destruct (TemplateString.resolveParsed _ _ _ _ _ _) as [v|cause];
    [discriminate|].
  fold (invalidPrefix truncate str).
  intros [= <-]. exists cause. simpl.
  destruct (String.prefix (invalidPrefix truncate str) (errorMessage cause))
    eqn:Hpre; repeat split; try done.
  apply prefix_append.
Qed.

(** ** The conditional tree *)

Lemma assemble_plain_root vals rest rootChildren :
  Forall (fun part => isPlain part = true) vals ->
  assemble (vals ++ rest) rootChildren []
  = assemble rest (rootChildren ++ map valueNode vals) [].
Proof.
  intros Hvals. revert rootChildren.
  induction Hvals as [|part vals Hpart _ IH]; intros rootChildren; simpl.
  - by rewrite app_nil_r.
  - destruct (isPlain_true _ Hpart) as (-> & -> & -> & _). simpl.
    rewrite IH. by rewrite <- app_assoc.
Qed.

Lemma assemble_plain_open vals rest rootChildren f up :
  Forall (fun part => isPlain part = true) vals ->
  assemble (vals ++ rest) rootChildren (f :: up)
  = assemble rest rootChildren
      ({| ftype := ftype f; fvalue := fvalue f;
          fchildren := fchildren f ++ map valueNode vals |} :: up).
Proof.
  intros Hvals. revert f.
  induction Hvals as [|part vals Hpart _ IH]; intros f; simpl.
  - rewrite app_nil_r. by destruct f.
  - destruct (isPlain_true _ Hpart) as (-> & -> & -> & _). simpl.
    rewrite IH. simpl. by rewrite <- app_assoc.
Qed.

Lemma resolveTree_children type val children acc :
  resolveTree (Node type val children) acc
  = match type with
    | NValue => if isUndefined val then acc else (acc ++ toString numberToString val)%string
    | NRoot => resolveChildren children acc
    | NIf | NElse => if truthy val then resolveChildren children acc else acc
    end.
Proof.
  assert (forall l a,
             (fix all (l : list ConditionalTree) (acc : string) : string :=
                match l with
                | [] => acc
                | child :: t => all t (resolveTree child acc)
                end) l a
             = resolveChildren l a) as Hall.
  { induction l as [|child l IH]; intros a; simpl; [reflexivity | apply IH]. }
  unfold TemplateString.resolveTree at 1. fold TemplateString.resolveTree.
  destruct type; try done; by rewrite Hall.
Qed.

Lemma resolveChildren_app l1 l2 acc :
  resolveChildren (l1 ++ l2) acc = resolveChildren l2 (resolveChildren l1 acc).
Proof. apply fold_left_app. Qed.

Lemma resolveChildren_values vals acc :
  resolveChildren (map valueNode vals) acc = (acc ++ text vals)%string.
Proof.
  revert acc. induction vals as [|part vals IH]; intros acc.
  - unfold TemplateParts.resolveChildren. simpl. by rewrite append_nil_r.
  - change (resolveChildren (map valueNode vals)
              (resolveTree (valueNode part) acc)
            = (acc ++ (partText part ++ text vals))%string).
    rewrite IH, <- append_assoc. f_equal.
    unfold valueNode, TemplateParts.partText. rewrite resolveTree_children.
    destruct (resolved part); simpl; try reflexivity.
    by rewrite append_nil_r.
Qed.

Lemma resolveParsed_parts str context opts parsed :
  parse str context opts = Ret parsed ->
  firstError (map toClause parsed) = None ->
  2 <= length parsed ->
  resolveParsed str context opts
  = (tree <- assemble (map toClause parsed) [] [] ;;
     Ret (VStr (resolveTree tree ""))).
Proof.
  intros Hp Herr Hlen. unfold TemplateString.resolveParsed.
  rewrite Hp. simpl. rewrite Herr.
  destruct parsed as [|p [|q rest]]; simpl in *; try lia. reflexivity.
Qed.

Lemma resolveTemplateString_returns str context opts v :
  str <> "" ->
  resolveParsed str context opts = Ret v ->
  resolveTemplateString str context opts = Ret v.
Proof.
  intros Hne Hv. unfold TemplateString.resolveTemplateString.
  destruct (String.eqb_spec str ""); [done|]. by rewrite Hv.
Qed.

(** X6: a template whose parts hold no block operator and no error
    resolves to nothing for no part, to the value of the part itself (of
    whatever type) for one part, and for more parts to the string that
    joins them in order, where an undefined value adds nothing and null
    adds the word null. *)
Theorem parts_without_blocks_are_joined str context opts parsed :
  str <> "" ->
  parse str context opts = Ret parsed ->
  Forall (fun p => isPlain (toClause p) = true) parsed ->
  resolveTemplateString str context opts
  = Ret (match parsed with
         | [] => VUndefined
         | [p] => getValue p
         | _ => VStr (text (map toClause parsed))
         end).
Proof.
  intros Hne Hp Hplain.
  assert (Forall (fun part => isPlain part = true) (map toClause parsed))
    as Hplain' by (by apply Forall_map).
  assert (firstError (map toClause parsed) = None) as Herr.
  { apply firstError_plain. eapply Forall_impl; [exact Hplain'|].
    intros part H. by destruct (isPlain_true _ H) as (_ & _ & _ & ?). }
  apply resolveTemplateString_returns; [done|].
  destruct parsed as [|p [|q rest]].
  - unfold TemplateString.resolveParsed. by rewrite Hp.
  - unfold TemplateString.resolveParsed. rewrite Hp. simpl.
    simpl in Herr. rewrite Herr. by destruct p.
  - remember (p :: q :: rest) as parsed eqn:Hparsed.
    transitivity (Ret (VStr (text (map toClause parsed))));
      [|by subst].
    rewrite (resolveParsed_parts _ _ _ _ Hp Herr) by (subst; simpl; lia).
    rewrite <- (app_nil_r (map toClause parsed)),
      (assemble_plain_root _ _ _ Hplain').
    cbn [assemble bind app].
    by rewrite resolveTree_children, resolveChildren_values, app_nil_r.
Qed.

(** X7: in a template made of plain parts around one conditional block,
    the resolved string holds the parts before the block, then the parts
    between [if] and [else] when the value of the [if] clause is truthy
    and the parts between [else] and [endif] otherwise, then the parts
    after the block; without an [else], a falsy value leaves the block
    out. *)
Theorem conditional_block_selects_a_branch
    str context opts parsed pre ifPart thenParts elsePart elseParts
    endifPart post :
  str <> "" ->
  parse str context opts = Ret parsed ->
  block ifPart = Some "if" -> _error ifPart = None ->
  block elsePart = Some "else" -> _error elsePart = None ->
  block endifPart = Some "endif" -> _error endifPart = None ->
  Forall (fun part => isPlain part = true)
         (pre ++ thenParts ++ elseParts ++ post) ->
  (map toClause parsed
   = pre ++ ifPart :: thenParts ++ elsePart :: elseParts ++ endifPart :: post ->
   resolveTemplateString str context opts
   = Ret (VStr (text pre
                  ++ (if truthy (resolved ifPart) then text thenParts
                      else text elseParts)
                  ++ text post)%string))
  /\ (map toClause parsed = pre ++ ifPart :: thenParts ++ endifPart :: post ->
      resolveTemplateString str context opts
      = Ret (VStr (text pre
                     ++ (if truthy (resolved ifPart) then text thenParts
                         else "")
                     ++ text post)%string)).
Proof.
  intros Hne Hp Hif Hife Helse Helsee Hendif Hendife Hplain.
  rewrite !Forall_app in Hplain.
  destruct Hplain as (Hpre & Hthen & Helses & Hpost).
  assert (forall parts, Forall (fun part => isPlain part = true) parts ->
                        Forall (fun part => _error part = None) parts)
    as Hnoerr.
  { intros parts H. eapply Forall_impl; [exact H|]. intros part Hpart.
    by destruct (isPlain_true _ Hpart) as (_ & _ & _ & ?). }
  assert (isBlock ifPart "if" = true) as Bif
    by (unfold isBlock; by rewrite Hif).
  assert (isBlock elsePart "if" = false /\ isBlock elsePart "else" = true)
    as [Belse1 Belse2] by (unfold isBlock; by rewrite Helse).
  assert (isBlock endifPart "if" = false /\ isBlock endifPart "else" = false
          /\ isBlock endifPart "endif" = true) as (Bend1 & Bend2 & Bend3)
    by (unfold isBlock; by rewrite Hendif).
  split; intros Hparts; (apply resolveTemplateString_returns; [done|]).
  - rewrite (resolveParsed_parts _ _ _ _ Hp).
    2:{ rewrite Hparts. apply firstError_plain.
        rewrite !Forall_app, !Forall_cons, !Forall_app, !Forall_cons,
          !Forall_app, !Forall_cons.
        repeat split; try done; by apply Hnoerr. }
    2:{ rewrite <- (length_map toClause), Hparts.
        rewrite !length_app; simpl; rewrite !length_app; simpl. lia. }
    rewrite Hparts, (assemble_plain_root _ _ _ Hpre).
    cbn [assemble app]. rewrite Bif.
    rewrite (assemble_plain_open _ _ _ _ _ Hthen).
    cbn [assemble app ftype fvalue fchildren pushChild frameNode].
    rewrite Belse1, Belse2.
    rewrite (assemble_plain_open _ _ _ _ _ Helses).
    cbn [assemble app ftype fvalue fchildren pushChild frameNode].
    rewrite Bend1, Bend2, Bend3.
    rewrite <- (app_nil_r post), (assemble_plain_root _ _ _ Hpost).
    cbn [assemble bind]. rewrite resolveTree_children.
    rewrite !resolveChildren_app, !resolveChildren_values.
    unfold TemplateParts.resolveChildren at 1 2.
    unfold fold_left, frameNode. simpl.
    rewrite !resolveTree_children, !resolveChildren_values. cbn [truthy].
    rewrite app_nil_r.
    destruct (truthy (resolved ifPart)); cbn [negb];
      by rewrite ?append_assoc.
  - rewrite (resolveParsed_parts _ _ _ _ Hp).
    2:{ rewrite Hparts. apply firstError_plain.
        rewrite !Forall_app, !Forall_cons, !Forall_app, !Forall_cons.
        repeat split; try done; by apply Hnoerr. }
    2:{ rewrite <- (length_map toClause), Hparts.
        rewrite !length_app; simpl; rewrite !length_app; simpl. lia. }
    rewrite Hparts, (assemble_plain_root _ _ _ Hpre).
    cbn [assemble app]. rewrite Bif.
    rewrite (assemble_plain_open _ _ _ _ _ Hthen).
    cbn [assemble app ftype fvalue fchildren pushChild frameNode].
    rewrite Bend1, Bend2, Bend3.
    rewrite <- (app_nil_r post), (assemble_plain_root _ _ _ Hpost).
    cbn [assemble bind]. rewrite resolveTree_children.
    rewrite !resolveChildren_app, !resolveChildren_values.
    unfold TemplateParts.resolveChildren at 1.
    unfold fold_left, frameNode. simpl.
    rewrite !resolveTree_children, !resolveChildren_values. cbn [truthy].
    rewrite app_nil_r.
    destruct (truthy (resolved ifPart));
      by rewrite ?append_assoc, ?append_nil_r.
Qed.

(** X8: a template of two or more parts resolves only when its block
    operators are balanced: it has as many [endif] as [if] operators, up to
    any point no more [endif] than [if] operators, and every [else] stands
    inside a block that is still open. *)
Theorem resolved_template_has_balanced_blocks str context opts parsed v :
  str <> "" ->
  parse str context opts = Ret parsed ->
  2 <= length parsed ->
  resolveTemplateString str context opts = Ret v ->
  countBlock "if" (map toClause parsed)
  = countBlock "endif" (map toClause parsed)
  /\ (forall pre post,
        map toClause parsed = pre ++ post ->
        countBlock "endif" pre <= countBlock "if" pre)
  /\ (forall pre part post,
        map toClause parsed = pre ++ part :: post ->
        isBlock part "else" = true ->
        countBlock "endif" pre < countBlock "if" pre).
Proof.
  intros Hne Hp Hlen Hres.
  assert (exists v', resolveParsed str context opts = Ret v') as [v' Hparsed].
  { revert Hres. unfold TemplateString.resolveTemplateString.
    destruct (String.eqb_spec str ""); [done|].
    destruct (TemplateString.resolveParsed _ _ _ _ _ _); [eauto|discriminate]. }
  assert (firstError (map toClause parsed) = None) as Herr.
  { revert Hparsed. unfold TemplateString.resolveParsed. rewrite Hp. simpl.
    by destruct (firstError _). }
  rewrite (resolveParsed_parts _ _ _ _ Hp Herr Hlen) in Hparsed.
  destruct (assemble (map toClause parsed) [] []) as [tree|e] eqn:Htree;
    [|discriminate].
  apply (assemble_balanced _ _ _ _ Htree).
Qed.

Abbreviation resolveAll :=
  (fun v context opts =>
     resolveTemplateStrings ConfigContext parse numberToString truncate
       v context opts).

Abbreviation resolveTracked :=
  (fun v context opts =>
     resolveWithPrototype ConfigContext parse numberToString truncate
       v context opts).

Lemma resolveTemplateStrings_array ref items context opts :
  resolveAll (VArr ref items) context opts
  = (items' <- mapOutcome (fun v => resolveAll v context opts) items ;;
     Ret (VArr None items')).
Proof.
  unfold resolveTemplateStrings. simpl. by destruct (mapOutcome _ items).
Qed.

Lemma resolveTemplateStrings_throws v context opts e :
  resolveAll v context opts = Throw e <-> resolveTracked v context opts = Throw e.
Proof.
  unfold resolveTemplateStrings.
  destruct (resolveWithPrototype _ _ _ _ v context opts); simpl;
    split; congruence.
Qed.

(** X9: whatever [resolveTemplateStrings] throws is a
    [TemplateStringError], thrown for a string in the value, or the
    [ConfigurationError] about a [$merge] key that does not resolve to a
    mapping; the latter only when [allowPartial] is unset and the value
    holds a [$merge] key. *)
Theorem resolution_throws_template_or_merge_error v context opts e :
  resolveAll v context opts = Throw e ->
  errorCls e = TemplateStringError
  \/ (errorCls e = ConfigurationError /\ allowPartial opts = false
      /\ hasSpreadKey v = true).
Proof.
  revert e. induction v as [| |b|n|s|ref items IH|ref entries IH]
    using value_nested_ind; intros e; try discriminate.
  - unfold resolveTemplateStrings. simpl.
    destruct (resolveTemplateString s context opts) eqn:H; simpl;
      [discriminate|].
    intros [= <-]. left.
    by destruct (resolveTemplateString_throws _ _ _ _ _ _ _ _ H).
  - rewrite resolveTemplateStrings_array.
    destruct (mapOutcome _ items) as [items'|e'] eqn:Hitems; simpl;
      [discriminate|].
    intros [= <-].
    destruct (mapOutcome_throws _ _ _ Hitems) as (x & Hin & Hx).
    rewrite Forall_forall in IH.
    destruct (IH x Hin _ Hx) as [?|(? & ? & Hkey)]; [by left|right].
    repeat split; try done. simpl. apply existsb_exists.
    exists x. split; [by apply list_elem_of_In | done].
  - rewrite resolveTemplateStrings_object.
    destruct (resolveEntries _ opts _ entries _) as [out|e'] eqn:Hentries;
      simpl; [discriminate|].
    intros [= <-].
    destruct (resolveEntries_throws _ _ _ _ _ _ Hentries)
      as [(kv & Hin & Hkv)|(? & ? & Hkey)].
    + rewrite Forall_forall in IH.
      apply resolveTemplateStrings_throws in Hkv.
      destruct (IH kv Hin _ Hkv) as [?|(? & ? & Hsub)]; [by left|right].
      repeat split; try done. simpl. apply existsb_exists.
      exists kv. split; [by apply list_elem_of_In|].
      rewrite Hsub. by rewrite orb_true_r.
    + right. repeat split; try done. simpl. apply existsb_exists.
      apply list_elem_of_fmap in Hkey as (kv & Hk & Hin).
      exists kv. split; [by apply list_elem_of_In|].
      rewrite <- Hk. by rewrite String.eqb_refl.
Qed.

(** X10: resolution keeps the shape of a value.  An array resolves to an
    array of the same length whose items are the resolved items, in order;
    an object without a [$merge] key resolves to an object with the same
    keys, each holding the resolved value of its entry, except for an own
    key [__proto__], whose value is resolved but which the result does not
    have; undefined, null, booleans, numbers and the empty string resolve
    to themselves. *)
Theorem resolution_keeps_the_shape context opts :
  (forall ref items out,
      resolveAll (VArr ref items) context opts = Ret out ->
      exists items',
        out = VArr None items'
        /\ Forall2 (fun x y => resolveAll x context opts = Ret y) items items')
  /\ (forall ref entries out,
        objectSpreadKey ∉ entries.*1 ->
        NoDup entries.*1 ->
        resolveAll (VObj ref entries) context opts = Ret out ->
        exists output,
          out = VObj None output
          /\ forall k,
               match getProp k entries with
               | Some v =>
                   exists v',
                     resolveAll v context opts = Ret v'
                     /\ getProp k output
                        = if String.eqb k protoKey then None else Some v'
               | None => getProp k output = None
               end)
  /\ (forall v,
        match v with
        | VStr _ | VArr _ _ | VObj _ _ => True
        | _ => resolveAll v context opts = Ret v
        end)
  /\ resolveAll (VStr "") context opts = Ret (VStr "").
Proof.
  split; [|split; [|split]].
  - intros ref items out. rewrite resolveTemplateStrings_array.
    destruct (mapOutcome _ items) as [items'|e] eqn:Hitems; simpl;
      [|discriminate].
    intros [= <-]. exists items'. split; [done|].
    by apply mapOutcome_returns.
  - intros ref entries out Hm Hnd. rewrite resolveTemplateStrings_object.
    destruct (resolveEntries _ opts _ entries _) as [output|e] eqn:Hentries;
      simpl; [|discriminate].
    intros [= <-]. exists output.1. split; [done|].
    intros k. pose proof (resolveEntries_plain _ _ _ _ _ _ Hm Hnd Hentries k)
      as Hk.
    destruct (getProp k entries); [|done].
    destruct Hk as (v' & Hv' & Hget). exists v'.1. split.
    + unfold resolveTemplateStrings. by rewrite Hv'.
    + rewrite Hget. unfold reachesSetter, hasProp. simpl.
      by rewrite !andb_true_r.
  - by intros [].
  - reflexivity.
Qed.

End Resolution.

Lemma thrown_message_names_the_template_witness :
  exists cause,
    resolveParsed unit (parsedAs [literal "a"; blockClause "if" (VBool true)])
      noNumbers "template" tt strict
    = Throw cause
    /\ String.prefix (invalidPrefix noTruncation "template")
         "Invalid template string (template): Missing ${endif} after ${if ...} block."
       = true.
Proof.
  destruct (thrown_message_names_the_template unit
              (parsedAs [literal "a"; blockClause "if" (VBool true)])
              noNumbers noTruncation "template" tt strict _ eq_refl)
    as (cause & Hcause & _ & Hprefix & _).
  exists cause. split; [exact Hcause | exact Hprefix].
Defined.

Lemma parts_without_blocks_are_joined_witness :
  resolveParts [literal "a-"; Raw VNull; Raw VUndefined; literal "-b"]
  = Ret (VStr "a-null-b").
Proof.
  apply (parts_without_blocks_are_joined unit
           (parsedAs [literal "a-"; Raw VNull; Raw VUndefined; literal "-b"])
           noNumbers noTruncation "template" tt strict
           [literal "a-"; Raw VNull; Raw VUndefined; literal "-b"]).
  - discriminate.
  - reflexivity.
  - repeat constructor.
Defined.

Lemma conditional_block_selects_a_branch_witness :
  resolveParts
    [literal "a"; blockClause "if" (VBool false); literal "b";
     blockClause "else" VUndefined; literal "c";
     blockClause "endif" VUndefined; literal "d"]
  = Ret (VStr "acd").
Proof.
  apply (conditional_block_selects_a_branch unit
           (parsedAs
              [literal "a"; blockClause "if" (VBool false); literal "b";
               blockClause "else" VUndefined; literal "c";
               blockClause "endif" VUndefined; literal "d"])
           noNumbers noTruncation "template" tt strict
           [literal "a"; blockClause "if" (VBool false); literal "b";
            blockClause "else" VUndefined; literal "c";
            blockClause "endif" VUndefined; literal "d"]
           [toClause (literal "a")] (toClause (blockClause "if" (VBool false)))
           [toClause (literal "b")] (toClause (blockClause "else" VUndefined))
           [toClause (literal "c")] (toClause (blockClause "endif" VUndefined))
           [toClause (literal "d")]);
    try reflexivity.
  - discriminate.
  - repeat constructor.
Defined.

Lemma resolved_template_has_balanced_blocks_witness :
  countBlock "if"
    (map toClause
       [literal "a"; blockClause "if" (VBool true); literal "b";
        blockClause "endif" VUndefined])
  = countBlock "endif"
      (map toClause
         [literal "a"; blockClause "if" (VBool true); literal "b";
          blockClause "endif" VUndefined]).
Proof.
  refine (proj1 (resolved_template_has_balanced_blocks unit
                   (parsedAs
                      [literal "a"; blockClause "if" (VBool true); literal "b";
                       blockClause "endif" VUndefined])
                   noNumbers noTruncation "template" tt strict _ (VStr "ab")
                   _ eq_refl _ eq_refl)).
  - discriminate.
  - simpl. lia.
Defined.

Lemma resolution_throws_template_or_merge_error_witness :
  errorCls (Error ConfigurationError
              "Value of $merge key must be (or resolve to) a mapping object (got object)"
              [("value", VObj None [("$merge", VArr None [VStr "a"])]);
               ("resolved", VArr None [VStr "a"])] None)
  = TemplateStringError
  \/ (errorCls (Error ConfigurationError
                  "Value of $merge key must be (or resolve to) a mapping object (got object)"
                  [("value", VObj None [("$merge", VArr None [VStr "a"])]);
                   ("resolved", VArr None [VStr "a"])] None)
      = ConfigurationError
      /\ allowPartial strict = false
      /\ hasSpreadKey (VObj None [("$merge", VArr None [VStr "a"])]) = true).
Proof.
  apply (resolution_throws_template_or_merge_error unit literalParser noNumbers
           noTruncation (VObj None [("$merge", VArr None [VStr "a"])]) tt
           strict).
  reflexivity.
Defined.

Example stray_endif :
  resolveParts [literal "a"; blockClause "endif" VUndefined]
  = Throw (Error TemplateStringError
             "Invalid template string (template): Found ${endif} block without a preceding ${if...} block."
             []
             (Some (Error TemplateStringError
                      "Found ${endif} block without a preceding ${if...} block."
                      [] None))).
Proof. reflexivity. Qed.

Example second_else_is_rejected :
  resolveParts
    [blockClause "if" (VBool true); blockClause "else" VUndefined;
     blockClause "else" VUndefined; blockClause "endif" VUndefined]
  = Throw (Error TemplateStringError
             "Invalid template string (template): Found ${else} block without a preceding ${if...} block."
             []
             (Some (Error TemplateStringError
                      "Found ${else} block without a preceding ${if...} block."
                      [] None))).
Proof. reflexivity. Qed.

End ResolutionFacts.
(* ====================================================================== *)
(** * References to secrets                                                *)
(* ====================================================================== *)

Module SecretKeyFacts.
Import JS TemplateString SecretKeys.

Lemma sameValueZero_string k name :
  sameValueZero k (VStr name) = true <-> k = VStr name.
Proof.
  destruct k; simpl; try (split; [discriminate | congruence]).
  rewrite String.eqb_eq. split; congruence.
Qed.

Section References.
Variable collectTemplateReferences : value -> list (list value).
Variable sort : list value -> list value.
Hypothesis sort_permutes : forall l, sort l ≡ₚ l.

Abbreviation detectMissingSecretKeys :=
  (detectMissingSecretKeys collectTemplateReferences sort).

(** X11: [detectMissingSecretKeys] reports a key exactly when it is the
    second segment of a reference whose first segment is [secrets] and the
    secrets hold no truthy value under it; a secret with an empty value
    counts as missing, and a key that no template refers to is never
    reported. *)
Theorem missing_secrets_are_referenced_and_blank obj secrets k :
  k ∈ detectMissingSecretKeys obj secrets
  <-> (exists ref,
         ref ∈ collectTemplateReferences obj
         /\ segment ref 0 = VStr "secrets"
         /\ segment ref 1 = k)
      /\ ~ (exists name v,
              k = VStr name /\ (name, v) ∈ secrets /\ truthy v = true).
Proof.
  unfold SecretKeys.detectMissingSecretKeys. rewrite sort_permutes.
  unfold difference. rewrite list_elem_of_filter, list_elem_of_fmap.
  rewrite negb_True, Is_true_false.
  assert (existsb (sameValueZero k) (keysWithValues secrets) = true
          <-> exists name v,
                k = VStr name /\ (name, v) ∈ secrets /\ truthy v = true)
    as Hkeys.
  { rewrite existsb_exists. unfold keysWithValues. split.
    - intros (key & Hin & Hsame).
      apply list_elem_of_In, list_elem_of_fmap in Hin as ([name v] & -> & Hin).
      apply list_elem_of_filter in Hin as [Hv%Is_true_true Hin].
      apply sameValueZero_string in Hsame. eauto 10.
    - intros (name & v & -> & Hin & Hv). exists (VStr name). split.
      + apply list_elem_of_In, list_elem_of_fmap. exists (name, v).
        split; [done|]. apply list_elem_of_filter. split; [|done].
        by apply Is_true_true.
      + by apply sameValueZero_string. }
  rewrite <- Hkeys, not_true_iff_false. split.
  - intros [Hmissing (ref & -> & Href)].
    apply list_elem_of_filter in Href as [Hfirst%Is_true_true Href].
    split; [|done]. exists ref. repeat split; try done.
    revert Hfirst. destruct (segment ref 0); simpl; try discriminate.
    by intros ->%String.eqb_eq.
  - intros [(ref & Href & Hfirst & <-) Hmissing]. split; [done|].
    exists ref. split; [done|]. apply list_elem_of_filter. split; [|done].
    rewrite Hfirst. by apply Is_true_true.
Qed.

End References.

Lemma missing_secrets_are_referenced_and_blank_witness :
  VStr "password"
    ∈ detectMissingSecretKeys twoSecrets unsorted (VObj None [])
        [("token", VStr "abc"); ("password", VStr "")]
  <-> (exists ref,
         ref ∈ twoSecrets (VObj None [])
         /\ segment ref 0 = VStr "secrets"
         /\ segment ref 1 = VStr "password")
      /\ ~ (exists name v,
              VStr "password" = VStr name
              /\ (name, v) ∈ [("token", VStr "abc"); ("password", VStr "")]
              /\ truthy v = true).
Proof.
  apply (missing_secrets_are_referenced_and_blank twoSecrets unsorted).
  reflexivity.
Defined.

Example blank_secret_is_missing :
  detectMissingSecretKeys twoSecrets unsorted (VObj None [])
    [("token", VStr "abc"); ("password", VStr "")]
  = [VStr "password"].
Proof. reflexivity. Qed.

End SecretKeyFacts.
(* ====================================================================== *)
(** * The watch loop: how it ends                                          *)
(* ====================================================================== *)

Module WatchEndFacts.
Import JS Watch WatchFacts.

Section Ending.
Variable Garden : Type.
Variable projectRoot : Garden -> string.
Variable dedent : list string -> list string -> string.

Abbreviation State := (State Garden).
Abbreviation handle := (handle Garden projectRoot dedent).
Abbreviation watch := (watch Garden projectRoot dedent).
Abbreviation waiting := (waiting Garden).
Abbreviation validateConfigChange := (validateConfigChange Garden dedent).
Abbreviation configChange := (configChange Garden projectRoot).

(** The handler of [_exit] is the only one that leaves the promise resolved
    and [restartRequired] unset. *)
Lemma handle_clears_restart e (st : State) :
  resolved Garden st = false ->
  restartRequired Garden st = true ->
  resolved Garden (handle e st) = true ->
  restartRequired Garden (handle e st) = false ->
  e = _exit.
Proof.
  intros Hres Hrr.
  destruct e as [| |r|p r|p r|p ns r|?]; simpl;
    unfold onConfigChange, Watch.validateConfigChange;
    try (destruct r as [|[[] ? ? ?]]); simpl; intros;
    try reflexivity; congruence.
Qed.

Lemma watch_clears_restart events (st : State) :
  resolved Garden st = false ->
  restartRequired Garden st = true ->
  restartRequired Garden (watch events st) = false
  <-> exists pre post,
        events = pre ++ _exit :: post
        /\ resolved Garden (watch pre st) = false.
Proof.
  revert st. induction events as [|e events IH]; intros st Hres Hrr.
  - simpl. split; [congruence|]. intros ([|] & ? & Heq & _); discriminate Heq.
  - simpl. destruct (resolved Garden (handle e st)) eqn:Hres'.
    + split.
      * intros Hclear. rewrite (handle_clears_restart e st Hres Hrr Hres' Hclear).
        by exists [], events.
      * intros (pre & post & Heq & Hpre). destruct pre as [|e' pre].
        -- injection Heq as -> _. reflexivity.
        -- injection Heq as <- _. simpl in Hpre.
           rewrite Hres' in Hpre. congruence.
    + assert (restartRequired Garden (handle e st) = true) as Hrr'
        by (by rewrite handle_unresolved).
      rewrite (IH _ Hres' Hrr'). split.
      * intros (pre & post & -> & Hpre). exists (e :: pre), post.
        split; [reflexivity|]. simpl. by rewrite Hres'.
      * intros (pre & post & Heq & Hpre). destruct pre as [|e' pre].
        -- injection Heq as -> _. simpl in Hres'. discriminate.
        -- injection Heq as <- ->. exists pre, post. split; [reflexivity|].
           simpl in Hpre. by rewrite Hres' in Hpre.
Qed.

(** X12: in watch mode [restartRequired] ends up unset exactly when the
    event that ends the waiting is [_exit]: among the events handled there
    is an [_exit] before which the promise was still pending.  A manual
    restart or a valid change of the configuration leaves it set. *)
Theorem only_exit_clears_restart_required g log0 events :
  restartRequired Garden (watch events (waiting g log0)) = false
  <-> exists pre post,
        events = pre ++ _exit :: post
        /\ resolved Garden (watch pre (waiting g log0)) = false.
Proof. by apply watch_clears_restart. Qed.

(** X13: an error of the re-parse that is no [ConfigurationError] is
    thrown on by [validateConfigChange] and not logged; the handler of the
    config event then logs nothing, leaves the promise as it is and leaves
    [restartRequired] as it is. *)
Theorem other_errors_are_thrown_on (st : State) e :
  errorCls e <> ConfigurationError ->
  (forall changedPath operationType,
      (validateConfigChange st changedPath operationType (Failed e)).1
      = Throw e
      /\ log Garden
           (validateConfigChange st changedPath operationType (Failed e)).2
         = log Garden st)
  /\ (forall event path operation,
        configChange (garden Garden st) event = Some (path, operation, Failed e) ->
        log Garden (handle event st) = log Garden st
        /\ resolved Garden (handle event st) = resolved Garden st
        /\ restartRequired Garden (handle event st) = restartRequired Garden st
        /\ factoryCalls Garden (handle event st) = S (factoryCalls Garden st)).
Proof.
  intros Hcls.
  assert (forall changedPath operationType,
             Watch.validateConfigChange Garden dedent st changedPath
               operationType
               (Failed e)
             = (Throw e,
                {| garden := garden Garden st; resolved := resolved Garden st;
                   restartRequired := restartRequired Garden st;
                   log := log Garden st;
                   factoryCalls := S (factoryCalls Garden st) |})) as Hthrow.
  { intros changedPath operationType. unfold Watch.validateConfigChange.
    destruct e as [[] msg detail cause]; simpl in *; done. }
  split.
  - intros changedPath operationType. by rewrite Hthrow.
  - intros event path operation Hevent.
    destruct event as [| |r|p r|p r|p ns r|?]; simpl in Hevent; simplify_eq;
      simpl; unfold onConfigChange; by rewrite Hthrow.
Qed.

End Ending.

Lemma other_errors_are_thrown_on_witness :
  log unit
    (handle unit root interleaved
       (configAdded "a.yml" (Failed (Error TypeError "x is undefined" [] None)))
       (waiting unit tt []))
  = []
  /\ resolved unit
       (handle unit root interleaved
          (configAdded "a.yml"
             (Failed (Error TypeError "x is undefined" [] None)))
          (waiting unit tt []))
     = false.
Proof.
  destruct (other_errors_are_thrown_on unit root interleaved
              (waiting unit tt [])
              (Error TypeError "x is undefined" [] None))
    as (_ & Hhandle); [discriminate|].
  destruct (Hhandle (configAdded "a.yml"
                       (Failed (Error TypeError "x is undefined" [] None)))
                    "a.yml" added eq_refl) as (Hlog & Hres & _).
  split; [exact Hlog | exact Hres].
Defined.

Example exit_after_invalid_config :
  returned unit
    (watch unit root interleaved [configAdded "a.yml" (Failed invalidConfig); _exit; _restart]
       (waiting unit tt []))
  = Some {| graphResults := []; restartRequiredResult := false |}.
Proof. reflexivity. Qed.

End WatchEndFacts.

(* ====================================================================== *)
(** * The Test task: status and processing                                 *)
(* ====================================================================== *)

Module TestRunFacts.
Import JS TestTaskModel TestTaskFacts.

(** X14: [process] of a Test task first logs that it is running and then
    obtains the runtime context and the router; when one of these two steps
    throws, its error is thrown on, the run handler is not called and the
    log entry gets no mark.  Otherwise the run handler is called once.
    [process] returns the handler's result exactly when that result reports
    success; when the handler throws, its error is thrown on; when the
    result reports no success, a [TestError] with the log of the result as
    message is thrown.  After a call of the run handler the log entry is
    marked as succeeded when [process] returns and as failed when it
    throws. *)
Theorem test_process_returns_only_success
    prepareRuntimeContext getActionRouter runHandler t tr :
  (forall result,
      (process prepareRuntimeContext getActionRouter runHandler t tr).1
      = Ret result
      <-> prepareRuntimeContext = Ret tt
          /\ getActionRouter = Ret tt
          /\ runHandler = Ret result
          /\ exists d, detail result = Some d /\ success d = true)
  /\ (process prepareRuntimeContext getActionRouter runHandler t tr).2
     = tr ++ LogInfo (key t) "Running..."
          :: match prepareRuntimeContext, getActionRouter with
             | Ret _, Ret _ =>
                 [RunCalled;
                  match (process prepareRuntimeContext getActionRouter
                           runHandler t tr).1 with
                  | Ret _ => LogSetSuccess
                  | Throw _ => LogSetError
                  end]
             | _, _ => []
             end
  /\ (forall err,
        prepareRuntimeContext = Throw err
        \/ (prepareRuntimeContext = Ret tt /\ getActionRouter = Throw err)
        \/ (prepareRuntimeContext = Ret tt /\ getActionRouter = Ret tt
            /\ runHandler = Throw err) ->
        (process prepareRuntimeContext getActionRouter runHandler t tr).1
        = Throw err)
  /\ (forall result err,
        prepareRuntimeContext = Ret tt ->
        getActionRouter = Ret tt ->
        runHandler = Ret result ->
        (process prepareRuntimeContext getActionRouter runHandler t tr).1
        = Throw err ->
        err = Error TestError (default "" (detail result ≫= log)) [] None).
Proof.
  run_task.
  destruct prepareRuntimeContext as [[]|?], getActionRouter as [[]|?]; simpl;
    try (destruct runHandler as [r|e]; simpl;
         [destruct (detail r) as [[[] l]|] eqn:Hd; simpl|]);
    rewrite <- ?app_assoc; simpl;
    (split; [|split; [|split]]); try done; try naive_solver;
    intros result err _ _ [= <-] [= <-]; by rewrite Hd.
Qed.

(** X15: [getStatus] of a Test task never calls the run handler.  It
    answers with a result exactly when [force] is unset and the stored
    result reports success, and that is when it logs that the test has
    passed already; with [force] set it does not ask for the stored
    result. *)
Theorem test_status_answers_only_stored_success getResultHandler t tr :
  (forall result,
      (getStatus getResultHandler t tr).1 = Ret (Some result)
      <-> force t = false
          /\ getResultHandler = Ret (Some result)
          /\ exists d, detail result = Some d /\ success d = true)
  /\ (getStatus getResultHandler t tr).2
     = tr ++ (if force t then [] else [GetResultCalled])
          ++ match (getStatus getResultHandler t tr).1 with
             | Ret (Some _) => [LogInfo (key t) "Already passed"; LogSetSuccess]
             | _ => []
             end
  /\ (forall err,
        (getStatus getResultHandler t tr).1 = Throw err
        <-> force t = false /\ getResultHandler = Throw err).
Proof.
  run_task.
  destruct (force t); simpl;
    [|destruct getResultHandler as [[r|]|e]; simpl;
      [destruct (detail r) as [[[] l]|] eqn:Hd; simpl| |]];
    rewrite <- ?app_assoc, ?app_nil_r; simpl;
    (split; [|split]); try done; naive_solver.
Qed.

End TestRunFacts.

(* ====================================================================== *)
(** * The selection of tests: theorems                                     *)
(* ====================================================================== *)

Module TestSelectionFacts.
Import TestSelection.

Section Matching.
Variable minimatch : string -> string -> bool.
Variable GardenModule : Type.
Variable getNames : list GardenModule -> list string.

Abbreviation findPattern := (findPattern minimatch).
Abbreviation filterTestConfigs := (filterTestConfigs minimatch).
Abbreviation getTestActions := (getTestActions minimatch GardenModule getNames).

Lemma findPattern_true name filterNames :
  findPattern name filterNames = true
  <-> exists pattern,
        List.find (fun n => minimatch name n) filterNames = Some pattern
        /\ pattern <> "".
Proof.
  unfold TestSelection.findPattern.
  destruct (List.find _ filterNames) as [n|]; split.
  - intros H%negb_true_iff%String.eqb_neq. eauto.
  - intros (pattern & [= <-] & H). by apply negb_true_iff, String.eqb_neq.
  - discriminate.
  - by intros (? & ? & _).
Qed.

(** X16: [filterTestConfigs] keeps, in their order, the tests that are not
    disabled and, when names are given, those among them for which the
    first name that matches the name of the test is not the empty string;
    no names and an empty list of names both keep every enabled test.
    Filtering what was filtered changes nothing. *)
Theorem filterTestConfigs_keeps_enabled_matches configs filterNames :
  (forall test,
      test ∈ filterTestConfigs configs filterNames
      <-> test ∈ configs
          /\ disabled test = false
          /\ (filterNames = None \/ filterNames = Some []
              \/ exists names pattern,
                   filterNames = Some names
                   /\ List.find (fun n => minimatch (name test) n) names
                      = Some pattern
                   /\ pattern <> ""))
  /\ filterTestConfigs configs (Some []) = filterTestConfigs configs None
  /\ filterTestConfigs configs filterNames `sublist_of` configs
  /\ filterTestConfigs (filterTestConfigs configs filterNames) filterNames
     = filterTestConfigs configs filterNames.
Proof.
  split; [|split; [|split]].
  - intros test. unfold TestSelection.filterTestConfigs.
    rewrite list_elem_of_filter, andb_True, negb_True, Is_true_false.
    destruct filterNames as [[|n names]|]; simpl.
    + split; [intros [[? _] ?] | intros (? & ? & _)]; eauto.
    + rewrite Is_true_true, findPattern_true. split.
      * intros [[? (pattern & ? & ?)] ?]. repeat split; try done.
        right. right. eauto.
      * intros (? & ? & [?|[?|(names' & pattern & [= <-] & ? & ?)]]);
          try done. eauto.
    + split; [intros [[? _] ?] | intros (? & ? & _)]; eauto.
  - reflexivity.
  - apply sublist_filter.
  - unfold TestSelection.filterTestConfigs. by rewrite list_filter_filter_l.
Qed.

(** X17: [getTestActions] keeps the tests that are not disabled, belong to
    one of the given modules when modules are given, and, when names are
    given, are matched first by a name that is not the empty string.  With
    an empty list of names it keeps no test at all. *)
Theorem getTestActions_keeps_enabled_matches tests modules filterNames :
  (forall t,
      t ∈ getTestActions tests modules filterNames
      <-> t ∈ tests
          /\ isDisabled t = false
          /\ match modules with
             | Some modules => moduleName t ∈ getNames modules
             | None => True
             end
          /\ match filterNames with
             | Some names =>
                 exists pattern,
                   List.find (fun n => minimatch (actionName t) n) names
                   = Some pattern
                   /\ pattern <> ""
             | None => True
             end)
  /\ getTestActions tests modules (Some []) = [].
Proof.
  split.
  - intros t. unfold TestSelection.getTestActions.
    destruct filterNames as [names|], modules as [modules|];
      rewrite ?list_elem_of_filter, ?negb_True, ?Is_true_false,
        ?Is_true_true, ?bool_decide_eq_true, ?findPattern_true; tauto.
  - unfold TestSelection.getTestActions.
    assert (forall l : list TestAction,
               filter (fun t => findPattern (actionName t) []) l = []) as Hnone.
    { induction l as [|t l IH]; [reflexivity|].
      rewrite filter_cons. simpl. exact IH. }
    destruct modules; apply Hnone.
Qed.

End Matching.

Example disabled_tests_are_left_out :
  filterTestConfigs exactMatch [unit; integ] (Some ["integ"; "unit"]) = [unit].
Proof. reflexivity. Qed.

End TestSelectionFacts.
(* ====================================================================== *)
(** * Deleting deploys: statuses, prerequisites and duplicates             *)
(* ====================================================================== *)

Module DeleteStatusFacts.
Import JS TemplateString TemplateStringFacts ConfigGraphModel ConfigGraphFacts.
Import DeleteDeploy DeleteDeployFacts PropsFacts.

(** X18: the statuses the delete commands return hold, under the name of a
    deploy, the output of the last result of type delete-service for that
    name; results of other types and tasks without a result add nothing. *)
Theorem deleted_statuses_hold_the_last_output results n :
  getProp n (deletedServiceStatuses results)
  = last (omap (fun kr =>
                  match kr.2 with
                  | Some r =>
                      if String.eqb (TaskGraph.type r) "delete-service"
                         && String.eqb (TaskGraph.name r) n
                      then Some (TaskGraph.output r) else None
                  | None => None
                  end) results).
Proof.
  unfold deletedServiceStatuses. rewrite getProp_fold_setProp. simpl.
  replace (omap _ (omap _ results))
    with (omap (fun kr : string * option TaskGraph.GraphResult =>
                  match kr.2 with
                  | Some r =>
                      if String.eqb (TaskGraph.type r) "delete-service"
                         && String.eqb (TaskGraph.name r) n
                      then Some (TaskGraph.output r) else None
                  | None => None
                  end) results).
  { by destruct (last _). }
  induction results as [|[key [r|]] results IH]; simpl;
    change (list_omap ?A ?B ?f ?l) with (omap f l) in *;
    [reflexivity| |exact IH].
  destruct (String.eqb (TaskGraph.type r) "delete-service"); simpl;
    change (list_omap ?A ?B ?f ?l) with (omap f l) in *;
    [|exact IH].
  destruct (String.eqb (TaskGraph.name r) n); by rewrite IH.
Qed.

Example statuses_of_a_run :
  deletedServiceStatuses
    [("delete-service.a",
      Some {| TaskGraph.type := "delete-service"; TaskGraph.name := "a";
              TaskGraph.output := VStr "missing";
              TaskGraph.startedAt := None; TaskGraph.completedAt := None;
              TaskGraph.error := None; TaskGraph.version := None |});
     ("delete-service.b", None);
     ("build.a",
      Some {| TaskGraph.type := "build"; TaskGraph.name := "a";
              TaskGraph.output := VStr "built";
              TaskGraph.startedAt := None; TaskGraph.completedAt := None;
              TaskGraph.error := None; TaskGraph.version := None |})]
  = [("a", VStr "missing")].
Proof. reflexivity. Qed.

(** X19: whenever [resolveDependencies] returns a prerequisite, the task
    has [dependantsFirst], the binding [isDeployAction] is a helper that
    accepts the action of the prerequisite (with the binding undefined, as
    actions/deploy.ts leaves it, a task with [dependantsFirst] throws and
    returns none), and the prerequisite deletes a Deploy action of the graph that
    depends directly on the action of the task and is named among
    [deleteDeployNames]; it carries the same names and [dependantsFirst]
    on.  So a task made without names, for which the names default to the
    name of its own action, has no prerequisite of another name. *)
Theorem prerequisites_stay_among_the_named
    isDeployAction graph t prerequisites p :
  resolveDependencies isDeployAction graph t = Ret prerequisites ->
  p ∈ prerequisites ->
  dependantsFirst t = true
  /\ (exists helper,
        isDeployAction = Some helper /\ helper (action p) = true)
  /\ dependantsFirst p = true
  /\ deleteDeployNames p = deleteDeployNames t
  /\ getName p ∈ deleteDeployNames t
  /\ action p ∈ actions graph
  /\ kind (action p) = Deploy
  /\ (Deploy, getName t) ∈ dependencies (action p)
  /\ (forall a first, t = newDeleteDeployTask a None first ->
                      getName p = name a).
Proof.
  intros Hrun Hp.
  destruct isDeployAction as [helper|].
  - apply (elem_of_resolveDependencies _ _ _ _ _ Hrun) in Hp
      as (Hfirst & d & Hd & Hk & Hh & Hdep & Hn & ->).
    repeat split; try done; [by exists helper|].
    intros a first ->. simpl in Hn. by apply list_elem_of_singleton in Hn.
  - destruct (dependantsFirst t) eqn:Hfirst.
    + by rewrite resolveDependencies_without_helper in Hrun.
    + rewrite resolveDependencies_off in Hrun by done.
      injection Hrun as <-. by apply elem_of_nil in Hp.
Qed.

Lemma prerequisites_stay_among_the_named_witness :
  dependantsFirst (newDeleteDeployTask deployA (Some ["a"; "b"]) (Some true))
  = true
  /\ getName (newDeleteDeployTask deployB (Some ["a"; "b"]) (Some true))
     ∈ ["a"; "b"].
Proof.
  destruct (prerequisites_stay_among_the_named (Some isDeploy) twoDeploys
              (newDeleteDeployTask deployA (Some ["a"; "b"]) (Some true))
              [newDeleteDeployTask deployB (Some ["a"; "b"]) (Some true)]
              (newDeleteDeployTask deployB (Some ["a"; "b"]) (Some true)))
    as (Hfirst & _ & _ & _ & Hname & _).
  - vm_compute. reflexivity.
  - left.
  - split; [exact Hfirst | exact Hname].
Defined.

Example default_names_give_no_prerequisite :
  resolveDependencies (Some isDeploy) twoDeploys
    (newDeleteDeployTask deployA None (Some true))
  = Ret [].
Proof. vm_compute. reflexivity. Qed.

End DeleteStatusFacts.

(* ====================================================================== *)
(** * Commands: names and paths                                            *)
(* ====================================================================== *)

Module CommandPathFacts.
Import TemplateString CommandPaths.

(** Induction over a command and the groups around it. *)
Lemma Command_parent_ind (P : Command -> Prop) :
  (forall name alias, P (mkCommand name alias None)) ->
  (forall name alias parent,
      P parent -> P (mkCommand name alias (Some parent))) ->
  forall c, P c.
Proof.
  intros Hroot Hsub. fix IH 1. intros [name alias [parent|]].
  - apply Hsub, IH.
  - apply Hroot.
Qed.

Lemma join_snoc sep l x :
  l <> [] -> join sep (l ++ [x]) = (join sep l ++ sep ++ x)%string.
Proof.
  induction l as [|y l IH]; [done|]. intros _.
  destruct l as [|z l]; [reflexivity|].
  change (join sep ((y :: z :: l) ++ [x]))
    with (y ++ sep ++ join sep ((z :: l) ++ [x]))%string.
  rewrite IH by done.
  change (join sep (y :: z :: l)) with (y ++ sep ++ join sep (z :: l))%string.
  by rewrite !StringFacts.append_assoc.
Qed.

Lemma getPath_not_nil c : getPath c <> [].
Proof. destruct c as [name alias [parent|]]; simpl; [|done]. by destruct (getPath parent). Qed.

(** X21: the key and the full name of a command are its path joined by
    dots and by blanks; the path holds the names of the groups around the
    command, outermost first, and the name of the command last. *)
Theorem key_and_full_name_spell_the_path c :
  getKey c = join "." (getPath c)
  /\ getFullName c = join " " (getPath c)
  /\ getPath c = name <$> lineage c
  /\ last (getPath c) = Some (name c).
Proof.
  induction c as [name alias|name alias parent (IHkey & IHfull & IHpath & _)]
    using Command_parent_ind.
  - by repeat split.
  - simpl. rewrite !join_snoc by apply getPath_not_nil.
    rewrite IHkey, IHfull, IHpath, fmap_app, last_snoc. by repeat split.
Qed.

Lemma lineage_sub name alias parent :
  lineage (mkCommand name alias (Some parent))
  = lineage parent ++ [mkCommand name alias (Some parent)].
Proof. reflexivity. Qed.

Lemma Forall2_snoc_r {A B} (R : A -> B -> Prop) l k y :
  Forall2 R l (k ++ [y])
  <-> exists l' x, l = l' ++ [x] /\ Forall2 R l' k /\ R x y.
Proof.
  rewrite Forall2_app_inv_r. split.
  - intros (l1 & l2 & H1 & H2 & ->).
    inversion H2 as [|x ? l2' ? Hx Hnil]; subst. inversion Hnil; subst. eauto.
  - intros (l' & x & -> & H1 & Hx). exists l', [x].
    repeat split; try done. by repeat constructor.
Qed.

(** X22: the paths of a command are exactly the ways to spell it on the
    command line: one word per group around it and one for the command
    itself, each the name or the alias of its command.  The path made of
    the names is among them, and there are two paths for every alias in
    the lineage. *)
Theorem paths_are_all_spellings c :
  (forall path, path ∈ getPaths c <-> Forall2 names path (lineage c))
  /\ getPath c ∈ getPaths c
  /\ length (getPaths c)
     = 2 ^ length (filter (fun g => is_Some (aliasGiven (alias g))) (lineage c)).
Proof.
  induction c as [name alias|name alias parent (IHpaths & IHpath & IHlen)]
    using Command_parent_ind.
  - simpl. unfold names. rewrite filter_cons, filter_nil. simpl.
    destruct (aliasGiven alias) as [a|] eqn:Ha; simpl.
    + split; [|split; [left | reflexivity]].
      intros path. rewrite !elem_of_cons, elem_of_nil. split.
      * intros [->|[->|[]]]; repeat constructor; simpl; by rewrite ?Ha; auto.
      * intros H. inversion H as [|w ? ? ? Hw Hnil]; subst.
        inversion Hnil; subst. simpl in Hw. rewrite Ha in Hw.
        destruct Hw as [->|[= ->]]; auto.
    + split; [|split; [left | reflexivity]].
      intros path. rewrite list_elem_of_singleton. split.
      * intros ->. repeat constructor.
      * intros H. inversion H as [|w ? ? ? Hw Hnil]; subst.
        inversion Hnil; subst. simpl in Hw. rewrite Ha in Hw.
        by destruct Hw as [->|[=]].
  - rewrite lineage_sub, filter_app, length_app, filter_cons, filter_nil.
    simpl getPaths. simpl getPath.
    assert (forall path,
               Forall2 names path
                 (lineage parent ++ [mkCommand name alias (Some parent)])
               <-> exists parentPath word,
                     path = parentPath ++ [word]
                     /\ parentPath ∈ getPaths parent
                     /\ (word = name \/ aliasGiven alias = Some word)) as Hsnoc.
    { intros path. rewrite Forall2_snoc_r.
      split; intros (parentPath & word & -> & Hp & Hw); exists parentPath, word;
        (split; [done|]); (split; [by apply IHpaths | exact Hw]). }
    destruct (aliasGiven alias) as [a|] eqn:Ha; simpl.
    + split; [|split].
      * intros path. rewrite Hsnoc, list_elem_of_bind. split.
        -- intros (parentPath & Hin & Hp).
           rewrite !elem_of_cons, elem_of_nil in Hin.
           destruct Hin as [->|[->|[]]]; eauto 10.
        -- intros (parentPath & word & -> & Hp & [->|[= ->]]);
             exists parentPath; (split; [|done]);
             rewrite !elem_of_cons; auto.
      * apply list_elem_of_bind. exists (getPath parent).
        split; [left | done].
      * rewrite Ha. case_decide as Hs; [|by destruct Hs; eauto]. simpl.
        rewrite Nat.add_1_r, Nat.pow_succ_r', <- IHlen.
        clear. induction (getPaths parent) as [|p l IH]; [reflexivity|].
        rewrite bind_cons, length_app, IH. simpl. lia.
    + split; [|split].
      * intros path. rewrite Hsnoc, list_elem_of_fmap. split.
        -- intros (parentPath & -> & Hp). eauto 10.
        -- intros (parentPath & word & -> & Hp & [->|[=]]). eauto.
      * apply list_elem_of_fmap. eauto.
      * rewrite Ha. case_decide as Hs; [by destruct Hs as [? [=]]|]. simpl.
        by rewrite Nat.add_0_r, length_fmap.
Qed.

Example paths_of_delete_environment :
  getPaths deleteEnvironment = [["delete"; "environment"]]
  /\ getKey deleteEnvironment = "delete.environment"
  /\ getFullName deleteEnvironment = "delete environment".
Proof. repeat split. Qed.

Example paths_of_an_aliased_command :
  getPaths shortCommand
  = [["remove"; "volume"]; ["remove"; "vol"];
     ["rm"; "volume"]; ["rm"; "vol"]].
Proof. reflexivity. Qed.

End CommandPathFacts.
(* ====================================================================== *)
(** * Command results: what is reported                                    *)
(* ====================================================================== *)

Module CommandResultFacts.
Import JS TemplateString TemplateStringFacts TaskGraph CommandBase.
Import CommandBaseFacts PropsFacts TaskResults.

Section Results.
Variable getDurationMsec : float -> float -> float.

Abbreviation prepareProcessResult := (prepareProcessResult getDurationMsec).
Abbreviation prepareProcessResults := (prepareProcessResults getDurationMsec).
Abbreviation handleProcessResults := (handleProcessResults getDurationMsec).

(** X23: [handleProcessResults] reads the graph results off
    [results.taskResults].  Results without that property, which is the
    shape of what [processActions] returns, make it throw a [TypeError]
    before anything is printed.  Results with it are handed on as they are,
    beside what [prepareProcessResults] makes of them for the builds, the
    deployments and the tests; when a task has failed the answer has [restartRequired] unset and no
    footer is printed, whatever the process results ask for; when none has
    failed it reports no error, passes [restartRequired] on and prints the
    footer unless a restart is required. *)
Theorem failed_tasks_suppress_the_restart taskType results :
  (taskResults results = None ->
   handleProcessResults taskType results = (Throw cannotConvert, NoFooter))
  /\ (forall processed,
        handleProcessResults taskType (fromProcessActions processed)
        = (Throw cannotConvert, NoFooter))
  /\ (forall given,
        taskResults results = Some given ->
        exists commandResult,
          (handleProcessResults taskType results).1 = Ret commandResult
          /\ result commandResult
             = {| builds := prepareProcessResults "build" given;
                  deployments := prepareProcessResults "deploy" given;
                  tests := prepareProcessResults "test" given;
                  graphResults := given |}
          /\ (failedResults given <> [] ->
              restartRequiredResult commandResult = Some false
              /\ (handleProcessResults taskType results).2 = NoFooter)
          /\ (failedResults given = [] ->
              errors commandResult = []
              /\ restartRequiredResult commandResult = restartRequired results
              /\ ((handleProcessResults taskType results).2 = FooterPrinted
                  <-> restartRequired results <> Some true))).
Proof.
  unfold CommandBase.handleProcessResults. split; [|split].
  - by intros ->.
  - reflexivity.
  - intros given ->.
    destruct (failedResults given) as [|failed rest] eqn:Hfailed; simpl;
      (eexists; split; [reflexivity|]); simpl;
      (split; [reflexivity|]); (split; [done|]); [|done].
    intros _.
    destruct (restartRequired results) as [[]|]; simpl; repeat split;
      congruence.
Qed.

Example restart_is_dropped_after_a_failure :
  restartRequiredResult
    <$> outcomeValue
          (handleProcessResults "build"
             {| taskResults := Some mixedGraphResults;
                restartRequired := Some true |}).1
  = Some (Some false).
Proof. reflexivity. Qed.

Lemma getProp_fromPairs_last {A} (keyOf : A -> string) (valueOf : A -> value)
    (keep : A -> bool) (l : list A) (k : string) :
  getProp k (fromPairs ((fun x => (keyOf x, valueOf x)) <$> filter keep l))
  = last (omap (fun x => if keep x && String.eqb (keyOf x) k
                         then Some (valueOf x) else None) l).
Proof.
  unfold fromPairs.
  rewrite (getProp_fold_setProp fst snd). simpl.
  replace (omap _ (_ <$> filter keep l))
    with (omap (fun x => if keep x && String.eqb (keyOf x) k
                         then Some (valueOf x) else None) l).
  { by destruct (last _). }
  induction l as [|x l IH]; [reflexivity|].
  rewrite filter_cons. simpl.
  change (list_omap ?A ?B ?f ?l) with (omap f l) in *.
  destruct (keep x) eqn:Hkeep; simpl;
    change (list_omap ?A ?B ?f ?l) with (omap f l) in *;
    [|exact IH].
  destruct (String.eqb (keyOf x) k); by rewrite IH.
Qed.

(** X24: among the builds, deployments or tests of a command result, a
    name holds the prepared result of the last task of that type whose key
    ends, after the first dot, in that name; tasks of other types are
    never reported. *)
Theorem prepared_results_are_keyed_by_name taskType graphResults k :
  getProp k (prepareProcessResults taskType graphResults)
  = last (omap (fun kr =>
                  if String.eqb (firstPart kr.1) taskType
                     && String.eqb (afterFirst kr.1) k
                  then Some (VObj None (prepareProcessResult kr.2))
                  else None) graphResults)
  /\ (forall v,
        getProp k (prepareProcessResults taskType graphResults) = Some v ->
        exists key r,
          (key, r) ∈ graphResults
          /\ firstPart key = taskType
          /\ afterFirst key = k
          /\ v = VObj None (prepareProcessResult r)).
Proof.
  assert (getProp k (prepareProcessResults taskType graphResults)
          = last (omap (fun kr : string * option GraphResult =>
                          if String.eqb (firstPart kr.1) taskType
                             && String.eqb (afterFirst kr.1) k
                          then Some (VObj None (prepareProcessResult kr.2))
                          else None) graphResults)) as Hlast.
  { unfold CommandBase.prepareProcessResults.
    apply (getProp_fromPairs_last
             (fun kr : string * option GraphResult => afterFirst kr.1)
             (fun kr => VObj None (prepareProcessResult kr.2))
             (fun kr => String.eqb (firstPart kr.1) taskType)). }
  split; [exact Hlast|].
  intros v. rewrite Hlast. intros Hv%last_Some_elem_of.
  apply list_elem_of_omap in Hv as ([key r] & Hin & Hsome). simpl in Hsome.
  destruct (String.eqb_spec (firstPart key) taskType); [|discriminate].
  destruct (String.eqb_spec (afterFirst key) k); [|discriminate].
  simpl in Hsome. injection Hsome as <-. eauto 10.
Qed.

(** The keys [prepareProcessResult] writes after the output of the task. *)
Lemma prepareProcessResult_written graphResult k :
  k ∉ ["aborted"; "durationMsec"; "error"; "success"; "version"] ->
  getProp k (prepareProcessResult graphResult)
  = getProp k
      (spread []
         (ownProperties
            (if truthy (optional output graphResult)
             then optional output graphResult else VObj None []))).
Proof.
  intros Hk. rewrite !not_elem_of_cons in Hk.
  destruct Hk as (? & ? & ? & ? & ? & _).
  unfold CommandBase.prepareProcessResult. rewrite !getProp_setProp.
  repeat match goal with
         | |- context [String.eqb k ?s] =>
             destruct (String.eqb_spec k s); [done|]
         end.
  reflexivity.
Qed.

(** X25: in the prepared result of a task that ran, [aborted], [success],
    [error] and [durationMsec] come from the graph result, also when the
    output of the task has properties of these names; [version] is the
    version of the output when that is truthy and the version of the graph
    result otherwise; every other property of the output is passed on
    unchanged. *)
Theorem metadata_overrides_the_output r :
  getProp "aborted" (prepareProcessResult (Some r)) = Some (VBool false)
  /\ getProp "success" (prepareProcessResult (Some r))
     = Some (VBool (match error r with Some _ => false | None => true end))
  /\ getProp "error" (prepareProcessResult (Some r))
     = Some (match error r with
             | Some e => VStr (errorMessage e)
             | None => VUndefined
             end)
  /\ getProp "durationMsec" (prepareProcessResult (Some r))
     = Some (match startedAt r, completedAt r with
             | Some s, Some c => VNum (getDurationMsec s c)
             | _, _ => VUndefined
             end)
  /\ (exists outputVersion,
        outputVersion
        = match output r with
          | VUndefined | VNull => VUndefined
          | _ => default VUndefined
                   (getProp "version" (ownProperties (output r)))
          end
        /\ getProp "version" (prepareProcessResult (Some r))
           = Some (if truthy outputVersion then outputVersion
                   else match version r with
                        | Some v => VStr v
                        | None => VUndefined
                        end))
  /\ (forall k,
        k ∉ ["aborted"; "durationMsec"; "error"; "success"; "version"] ->
        NoDup (ownProperties (output r)).*1 ->
        getProp k (prepareProcessResult (Some r))
        = if truthy (output r) then getProp k (ownProperties (output r))
          else None).
Proof.
  split; [apply prepareProcessResult_aborted|].
  split; [apply prepareProcessResult_aborted|].
  split; [|split; [|split]].
  - unfold CommandBase.prepareProcessResult. rewrite !getProp_setProp. simpl.
    by destruct (error r).
  - unfold CommandBase.prepareProcessResult. rewrite !getProp_setProp. simpl.
    reflexivity.
  - eexists. split; [reflexivity|].
    unfold CommandBase.prepareProcessResult. rewrite !getProp_setProp. simpl.
    by destruct (version r).
  - intros k Hk Hnd. rewrite (prepareProcessResult_written _ _ Hk). simpl.
    destruct (truthy (output r)).
    + rewrite (getProp_spread _ _ _ Hnd). simpl.
      by destruct (getProp k (ownProperties (output r))).
    + reflexivity.
Qed.

End Results.

(** The output of a task cannot pass itself off as a success. *)
Example output_cannot_claim_success :
  getProp "success"
    (prepareProcessResult elapsed
       (Some {| type := "test"; name := "a.unit";
                output := VObj None [("success", VBool true); ("log", VStr "x")];
                startedAt := None; completedAt := None;
                error := Some (Error (OtherError "TestError") "failed" [] None);
                version := None |}))
  = Some (VBool false).
Proof. reflexivity. Qed.

Section TaskResult.
Variable capitalize : string -> string.
Variable renderMessageWithDivider : string -> value -> bool -> string.
Variable white : string -> string.
Variable getDurationMsec : float -> float -> float.

Abbreviation handleTaskResult :=
  (handleTaskResult capitalize renderMessageWithDivider white getDurationMsec).
Abbreviation printResult :=
  (printResult capitalize renderMessageWithDivider white).

(** X26: [handleTaskResult] throws a [TypeError], and logs nothing, when
    the graph results hold nothing or null (an aborted task) under the
    key.  For a task that failed it answers with the one [RuntimeError]
    and prints neither output nor footer.  For a task that succeeded it
    answers with the prepared result and prints the footer, after the log
    of the output when that is truthy and the command is not interactive;
    an output of null or undefined then makes it throw. *)
Theorem task_result_is_reported_or_thrown
    actionDescription graphResults key interactive :
  (resultAt key graphResults = None \/ resultAt key graphResults = Some None ->
   exists e,
     handleTaskResult actionDescription graphResults key interactive
     = (Throw e, [])
     /\ errorCls e = TypeError)
  /\ (forall r e,
        resultAt key graphResults = Some (Some r) -> error r = Some e ->
        handleTaskResult actionDescription graphResults key interactive
        = (Ret {| prepared := None;
                  taskErrors :=
                    [{| errorClass := RuntimeError;
                        errorText :=
                          (capitalize actionDescription ++ " failed!")%string;
                        failedResult := r |}] |},
           []))
  /\ (forall r,
        resultAt key graphResults = Some (Some r) -> error r = None ->
        (interactive = true ->
         handleTaskResult actionDescription graphResults key interactive
         = (Ret {| prepared :=
                     Some (prepareProcessResult getDurationMsec (Some r),
                           graphResults);
                   taskErrors := [] |},
            [PrintFooter]))
        /\ (forall log,
              interactive = false -> outputLog r = Ret log ->
              handleTaskResult actionDescription graphResults key interactive
              = (Ret {| prepared :=
                          Some (prepareProcessResult getDurationMsec (Some r),
                                graphResults);
                        taskErrors := [] |},
                 (if truthy log then printResult log true actionDescription
                  else []) ++ [PrintFooter]))
        /\ (forall e,
              interactive = false -> outputLog r = Throw e ->
              handleTaskResult actionDescription graphResults key interactive
              = (Throw e, [])
              /\ errorCls e = TypeError)).
Proof.
  unfold TaskResults.handleTaskResult. split; [|split].
  - intros [-> | ->]; eexists; split; reflexivity.
  - intros r e -> ->. destruct interactive; reflexivity.
  - intros r -> ->. split; [|split].
    + intros ->. reflexivity.
    + intros log -> ->. reflexivity.
    + intros e -> He. rewrite He. split; [reflexivity|].
      revert He. unfold outputLog. by destruct (output r); intros [= <-].
Qed.

End TaskResult.

Example aborted_task_makes_the_handler_throw :
  handleTaskResult asIs underDivider asIs elapsed "test" [("test.a.unit", None)]
    "test.a.unit" false
  = (Throw (cannotRead "null" "error"), []).
Proof. reflexivity. Qed.

Example passed_task_is_printed :
  (handleTaskResult asIs underDivider asIs elapsed "test"
     [("test.a.unit", Some (aTask "test" "a.unit" None))] "test.a.unit" false).2
  = [LogInfo "test output:"; PrintFooter].
Proof. reflexivity. Qed.

End CommandResultFacts.
